(** * Verification of [common/lib/capa/capa/responsetypes.py]

    A shallow embedding of the grading procedures of the CAPA response
    types (multiple choice, true/false, numerical, string, custom,
    external, formula, image), of the checks made when a response is
    built and of the hint engine, followed by the properties claimed for
    them.

    Layout: Part I holds the model (Python runtime fragments, XML trees,
    the correctness map, the external collaborators as type classes and one
    module per response class); Part II holds the theorems on the
    documented behaviour, Part III further properties of the code. *)

From Stdlib Require Import ZArith NArith QArith String Ascii List Lia.
From stdpp Require Import base option gmap strings list pretty.

Local Open Scope string_scope.
Local Set Warnings "-register-all,-clear-no-such-hyp".

(* ===================================================================== *)
(** * Part I.  The model                                                  *)
(* ===================================================================== *)

(** ** Fragments of the Python runtime used by the source *)

Module Py.

(** Exceptions.  The text of a message is kept where the source builds it
    from plain strings; messages interpolating [repr]s of Python objects
    are not modelled and their exception carries no payload. *)
Inductive exn : Type :=
| KeyError (key : string)
| IndexError
| TypeError
| AttributeError
| NameError
| ValueError
| UndefinedVariable (message : string)   (* calc.UndefinedVariable *)
| LibraryError (name : string)           (* any other error of a library call *)
| LoncapaProblemError
| ResponseError
| StudentInputError (message : string)
| Exception_.                            (* [raise Exception(...)] *)

(** A computation either returns or raises. *)
Inductive res (A : Type) : Type :=
| Ok (a : A)
| Raise (e : exn).
Arguments Ok {A} a.
Arguments Raise {A} e.

#[global] Instance res_ret : MRet res := fun _ a => Ok a.
#[global] Instance res_bind : MBind res := fun _ _ f m =>
  match m with Ok a => f a | Raise e => Raise e end.

(** [try: m  except Exception as err: h err] *)
Definition try_except {A} (m : res A) (h : exn -> res A) : res A :=
  match m with Ok a => Ok a | Raise e => h e end.

Definition is_ok {A} (m : res A) : bool :=
  match m with Ok _ => true | Raise _ => false end.

(** The double-quote character. *)
Definition dquote : string := String (ascii_of_nat 34) EmptyString.

(** *** Values submitted by a student

    [student_answers] maps an answer id to the raw input: a string for
    text and single-choice inputs, a list of strings for multi-choice
    inputs. *)
Inductive answer : Type :=
| AStr (s : string)
| AList (l : list string).

#[global] Instance answer_eq_dec : EqDecision answer.
Proof. solve_decision. Defined.

(** Python truthiness: [not v]. *)
Definition truthy (v : answer) : bool :=
  match v with
  | AStr s => negb (String.eqb s EmptyString)
  | AList l => match l with [] => false | _ => true end
  end.

(** [d[k]] on a dict: raises [KeyError] when the key is absent. *)
Definition getitem {V} (d : gmap string V) (k : string) : res V :=
  match d !! k with Some v => Ok v | None => Raise (KeyError k) end.

(** [k in d] on a dict. *)
Definition contains {V} (d : gmap string V) (k : string) : bool :=
  bool_decide (is_Some (d !! k)).

(** [l[i]] on a list, for [i >= 0]. *)
Definition list_getitem {A} (l : list A) (i : nat) : res A :=
  match l !! i with Some a => Ok a | None => Raise IndexError end.

(** [l[-1]] *)
Definition list_last {A} (l : list A) : res A :=
  match last l with Some a => Ok a | None => Raise IndexError end.

(** [x in l] for a list of strings. *)
Definition str_in (x : string) (l : list string) : bool :=
  bool_decide (x ∈ l).

(** [v in l] where [l] is a list of strings: a list value never equals a
    string. *)
Definition answer_in (v : answer) (l : list string) : bool :=
  match v with
  | AStr s => str_in s l
  | AList _ => false
  end.

(** [set(v)]: the elements of a list, the characters of a string. *)
Definition chars (s : string) : list string :=
  (fun c => String c EmptyString) <$> list_ascii_of_string s.

Definition set_of (v : answer) : gset string :=
  match v with
  | AStr s => list_to_set (chars s)
  | AList l => list_to_set l
  end.

(** [dict(pairs)]: a later pair overrides an earlier one with its key. *)
Definition dict `{Countable K} {V} (pairs : list (K * V)) : gmap K V :=
  foldl (fun m p => <[p.1 := p.2]> m) ∅ pairs.

(** [sorted(l)] on strings (insertion sort; the order is the
    lexicographic order of the characters). *)
Fixpoint insert_sorted (x : string) (l : list string) : list string :=
  match l with
  | [] => [x]
  | y :: l' => if String.leb x y then x :: l else y :: insert_sorted x l'
  end.

Definition sorted (l : list string) : list string :=
  foldr insert_sorted [] l.

(** [l.index(x)]: position of the first occurrence. *)
Fixpoint index (x : string) (l : list string) : res nat :=
  match l with
  | [] => Raise ValueError
  | y :: l' => if String.eqb x y then Ok 0 else n ← index x l'; mret (S n)
  end.

(** Python's zip applied to an unpacked list of lists: the transpose,
    cut at the length of the shortest list. *)
Fixpoint zip_star_aux {A} (n : nat) (ls : list (list A)) : list (list A) :=
  match n with
  | O => []
  | S n' =>
      match mapM head ls with
      | Some hs => hs :: zip_star_aux n' (tail <$> ls)
      | None => []
      end
  end.

Definition zip_star {A} (ls : list (list A)) : list (list A) :=
  match ls with
  | [] => []
  | l0 :: _ => zip_star_aux (length l0) ls
  end.

End Py.
Export Py.

(** ** Python string methods *)

Module Str.

Definition code (c : ascii) : N := N_of_ascii c.

(** Strings are text: submissions come from the request and attribute
    values from the XML parser, both as text objects; a character stands
    for its code point, below 256.

    The characters removed by [strip()] on text: tab, newline, vertical
    tab, form feed, carriage return, the four separators 28 to 31, space,
    next line (133) and no-break space (160). *)
Definition is_whitespace (c : ascii) : bool :=
  let n := code c in
  (n =? 32)%N || ((9 <=? n)%N && (n <=? 13)%N)
  || ((28 <=? n)%N && (n <=? 31)%N) || (n =? 133)%N || (n =? 160)%N.

Definition is_digit (c : ascii) : bool :=
  let n := code c in (48 <=? n)%N && (n <=? 57)%N.

(** The letters [isalnum()] knows.  The source calls it in [strip_dict]
    only, on keys it has tested to be byte strings ([type(k)==str]), where
    the letters are the ASCII ones. *)
Definition is_alpha (c : ascii) : bool :=
  let n := code c in
  ((65 <=? n)%N && (n <=? 90)%N) || ((97 <=? n)%N && (n <=? 122)%N).

(** [s.isalnum()]: non-empty and made of letters and digits only. *)
Definition isalnum (s : string) : bool :=
  match s with
  | EmptyString => false
  | _ => forallb (fun c => is_alpha c || is_digit c) (list_ascii_of_string s)
  end.

Fixpoint lstrip (s : string) : string :=
  match s with
  | String c s' => if is_whitespace c then lstrip s' else s
  | EmptyString => EmptyString
  end.

Definition rev_string (s : string) : string :=
  string_of_list_ascii (rev (list_ascii_of_string s)).

Definition rstrip (s : string) : string :=
  rev_string (lstrip (rev_string s)).

(** [s.strip()] *)
Definition strip (s : string) : string := rstrip (lstrip s).

(** [s.replace(old, new)]: the occurrences of [old] are found from the
    left and do not overlap.  [skip] counts the characters of a matched
    occurrence still to be dropped. *)
Fixpoint replace_aux (old new : string) (skip : nat) (s : string) : string :=
  match s with
  | EmptyString => EmptyString
  | String c s' =>
      match skip with
      | S k => replace_aux old new k s'
      | O =>
          if String.prefix old s
          then new +:+ replace_aux old new (String.length old - 1) s'
          else String c (replace_aux old new 0 s')
      end
  end.

(** With an empty [old], Python puts [new] before every character and at
    the end. *)
Fixpoint intersperse (new s : string) : string :=
  match s with
  | EmptyString => new
  | String c s' => new +:+ String c (intersperse new s')
  end.

Definition replace (old new s : string) : string :=
  match old with
  | EmptyString => intersperse new s
  | _ => replace_aux old new 0 s
  end.

(** [s.split(sep)] for a one-character separator. *)
Fixpoint split (sep : ascii) (s : string) : list string :=
  match s with
  | EmptyString => [EmptyString]
  | String c s' =>
      if Ascii.eqb c sep then EmptyString :: split sep s'
      else match split sep s' with
           | w :: ws => String c w :: ws
           | [] => [String c EmptyString]
           end
  end.

(** [s.lower()] on text: the capital letters are [A] to [Z] and, above
    the ASCII range, the code points 192 to 222 but the multiplication sign
    (215); the small letter of each is 32 places higher. *)
Definition lower_char (c : ascii) : ascii :=
  let n := code c in
  if ((65 <=? n)%N && (n <=? 90)%N)
     || ((192 <=? n)%N && (n <=? 222)%N && negb (n =? 215)%N)
  then ascii_of_N (n + 32) else c.

Fixpoint lower (s : string) : string :=
  match s with
  | EmptyString => EmptyString
  | String c s' => String (lower_char c) (lower s')
  end.

(** A string of whitespace only (or empty): what [strip] removes. *)
Definition is_blank (s : string) : bool :=
  forallb is_whitespace (list_ascii_of_string s).

Definition digit_value (c : ascii) : N := (code c - 48)%N.

(** The longest prefix of decimal digits, read as a number, the number of
    digits read and the rest of the string. *)
Fixpoint span_digits (acc : N) (count : nat) (s : string) : N * nat * string :=
  match s with
  | String c s' =>
      if is_digit c then span_digits (acc * 10 + digit_value c)%N (S count) s'
      else (acc, count, s)
  | EmptyString => (acc, count, s)
  end.

(** [int(s)] for a decimal literal: surrounding whitespace and one sign
    are accepted; anything else is a [ValueError]. *)
Definition int (s : string) : res Z :=
  let s := strip s in
  let '(neg, body) :=
    match s with
    | String "-" s' => (true, s')
    | String "+" s' => (false, s')
    | _ => (false, s)
    end in
  match span_digits 0 0 body with
  | (n, S _, EmptyString) => Ok (if neg then (- Z.of_N n)%Z else Z.of_N n)
  | _ => Raise ValueError
  end.

End Str.

(** ** Element trees (the fragment of [lxml.etree] the graders read) *)

Module Xml.

Inductive element : Type :=
| Element (tag : string) (attrib : list (string * string))
          (text : option string) (children : list element).

Definition tag (e : element) : string :=
  match e with Element t _ _ _ => t end.
Definition attrib (e : element) : list (string * string) :=
  match e with Element _ a _ _ => a end.
Definition text (e : element) : option string :=
  match e with Element _ _ t _ => t end.
Definition children (e : element) : list element :=
  match e with Element _ _ _ c => c end.

(** [e.get(name)]: the attribute value, or [None]. *)
Definition get (e : element) (name : string) : option string :=
  snd <$> List.find (fun p => String.eqb (fst p) name) (attrib e).

(** [e.get(name, default)] *)
Definition get_default (e : element) (name dflt : string) : string :=
  default dflt (get e name).

(** [e.findall(tag)]: the direct children with that tag, in document
    order; [e.find(tag)]: the first of them, or [None]. *)
Definition findall (e : element) (t : string) : list element :=
  List.filter (fun c => String.eqb (tag c) t) (children e).

Definition find (e : element) (t : string) : option element :=
  head (findall e t).

(** [e.set(name, value)]: the value of an attribute is replaced, a new
    attribute is added. *)
Fixpoint set_attrib (a : list (string * string)) (name value : string)
    : list (string * string) :=
  match a with
  | [] => [(name, value)]
  | (k, v) :: a' =>
      if String.eqb k name then (k, value) :: a'
      else (k, v) :: set_attrib a' name value
  end.

Definition set (e : element) (name value : string) : element :=
  Element (tag e) (set_attrib (attrib e) name value) (text e) (children e).

(** The element with its children replaced: how a change made to a child
    in place shows in the parent. *)
Definition with_children (e : element) (c : list element) : element :=
  Element (tag e) (attrib e) (text e) c.

End Xml.

(** ** The correctness map *)

Module CorrectMap.

(** Modelled from the spec: the class [CorrectMap] of [correctmap.py] is
    imported by the source but is not part of it.  The spec describes it
    as a mapping from answer id to a record of correctness, partial
    credit, message, hint and hint display mode, every field but the
    first being optional.  The verdicts are the Python strings the source
    passes (['correct'], ['incorrect'], ['unknown']); Python's [None] is
    [None]. *)
Record entry : Type := Entry {
  correctness : option string;
  partial_credit : option Q;
  msg : option string;
  hint : option string;
  hintmode : option string;
}.

Abbreviation t := (gmap string entry).

Definition blank : entry := Entry None None None None None.

(** Modelled from the spec: [cmap.set(answer_id, correctness, msg=msg)]
    stores a fresh record for the answer id. *)
Definition set (cm : t) (answer_id correctness : string)
    (msg : option string) : t :=
  <[answer_id := Entry (Some correctness) None msg None None]> cm.

(** Modelled from the spec: [CorrectMap()] is the empty map and
    [CorrectMap(answer_id, correctness, msg=msg)] the map with that one
    record. *)
Definition new : t := ∅.

Definition init (answer_id correctness : string) (msg : option string) : t :=
  set new answer_id correctness msg.

(** Modelled from the spec: [cmap.set_dict(d)] stores the verdict [d[k]]
    for every key [k] of the dict [d]. *)
Definition set_dict (cm : t) (d : gmap string string) : t :=
  ((fun c => Entry (Some c) None None None None) <$> d) ∪ cm.

(** Modelled from the spec: [cmap.set_property(answer_id, 'msg', m)]
    changes the message of the record of [answer_id] (a blank record when
    there is none yet). *)
Definition set_msg (cm : t) (answer_id : string) (m : string) : t :=
  let e := default blank (cm !! answer_id) in
  <[answer_id := Entry (correctness e) (partial_credit e) (Some m)
                       (hint e) (hintmode e)]> cm.

(** Modelled from the spec: [cmap.set_hint_and_mode(answer_id, hint,
    hintmode)] attaches the hint text and the display mode to the record
    of [answer_id] and leaves its other fields alone. *)
Definition set_hint_and_mode (cm : t) (answer_id : string)
    (h : option string) (mode : string) : t :=
  let e := default blank (cm !! answer_id) in
  <[answer_id := Entry (correctness e) (partial_credit e) (msg e)
                       h (Some mode)]> cm.

(** The verdict and the hint recorded for an answer id. *)
Definition get_correctness (cm : t) (answer_id : string) : option string :=
  cm !! answer_id ≫= correctness.

Definition get_msg (cm : t) (answer_id : string) : option string :=
  cm !! answer_id ≫= msg.

Definition get_hint (cm : t) (answer_id : string) : option string :=
  cm !! answer_id ≫= hint.

Definition get_hintmode (cm : t) (answer_id : string) : option string :=
  cm !! answer_id ≫= hintmode.

(** An answer id carries a hint when a non-empty text is attached. *)
Definition carries_hint (cm : t) (answer_id : string) : Prop :=
  exists h, get_hint cm answer_id = Some h /\ h <> EmptyString.

End CorrectMap.

(** ** Python values held by the script context *)

Inductive pyval (num : Type) : Type :=
| VNone
| VBool (b : bool)
| VInt (z : Z)
| VNum (x : num)                       (* float or complex *)
| VStr (s : string)
| VList (l : list (pyval num))
| VDict (d : list (string * pyval num))
| VAnswers (d : gmap string answer)    (* the dict of student answers *)
| VXml (e : Xml.element)
| VFun (name : string).                (* a callable, known by its name *)
Arguments VNone {num}.
Arguments VBool {num} b.
Arguments VInt {num} z.
Arguments VNum {num} x.
Arguments VStr {num} s.
Arguments VList {num} l.
Arguments VDict {num} d.
Arguments VAnswers {num} d.
Arguments VXml {num} e.
Arguments VFun {num} name.

(** A submitted answer as a Python value. *)
Definition of_answer {num} (a : answer) : pyval num :=
  match a with
  | AStr s => VStr s
  | AList l => VList (VStr <$> l)
  end.

Definition of_option {num} (o : option string) : pyval num :=
  match o with Some s => VStr s | None => VNone end.

(** Truth value of a Python value in a condition. *)
Definition is_true {num} (zero : num -> bool) (v : pyval num) : bool :=
  match v with
  | VNone => false
  | VBool b => b
  | VInt z => negb (z =? 0)%Z
  | VNum x => negb (zero x)
  | VStr s => negb (String.eqb s EmptyString)
  | VList l => match l with [] => false | _ => true end
  | VDict d => match d with [] => false | _ => true end
  | VAnswers d => negb (bool_decide (d = ∅))
  | VXml e => match Xml.children e with [] => false | _ => true end
  | VFun _ => true
  end.

(** The external effects a grading call performs, in order. *)
Inductive event (num : Type) : Type :=
| EvExec (code : string)                                (* exec of checker code *)
| EvCall (fn : pyval num) (args : list (pyval num))     (* call of a checker or hint function *)
| EvPost (url : string) (cmd : string).                 (* HTTP request *)
Arguments EvExec {num} code.
Arguments EvCall {num} fn args.
Arguments EvPost {num} url cmd.

(** The mutable state a response instance works on: the script context
    (a dict shared by all grading calls of the problem instance), the state
    of the [random] module, and the trace of external effects. *)
Record world (num rng : Type) : Type := World {
  context : gmap string (pyval num);
  random_state : rng;
  trace : list (event num);
}.
Arguments World {num rng} context random_state trace.
Arguments context {num rng} w.
Arguments random_state {num rng} w.
Arguments trace {num rng} w.

(** ** External collaborators

    The expression evaluator ([calc.evaluator]), the tolerance comparison
    ([util.compare_with_tolerance]), [numpy] and [random] are used by the
    source and not defined in it: they are the fields of a class, and every
    result below holds for all their implementations. *)

(** The tolerance attribute of a response: a string taken from the problem
    markup, or the integer default of a numerical response. *)
Inductive tolerance_spec : Type :=
| TolStr (s : string)
| TolInt (z : Z).

Class Calc (num rng : Type) : Type := {
  (** [evaluator(variables, functions, expr, cs=...)]; the source always
      passes an empty dict of functions, and as expression whatever the
      student submitted. *)
  evaluator : gmap string num -> gmap string string -> answer -> option bool -> res num;
  (** [compare_with_tolerance(v1, v2, tol)] *)
  compare_with_tolerance : num -> num -> tolerance_spec -> res bool;
  (** [numpy.isnan], [numpy.isinf] *)
  isnan : num -> bool;
  isinf : num -> bool;
  (** [float(s)], [complex(s)], [numpy.complex(n)] for an integer *)
  float : string -> res num;
  complex : string -> res num;
  complex_of_Z : Z -> num;
  (** [random.uniform(a, b)] *)
  uniform : num -> num -> rng -> num * rng;
}.

(** Payload of a request to the external grader. *)
Record payload : Type := Payload {
  p_xml : string;
  p_cmd : string;
  p_tests : option string;
  p_processor : option string;
  p_extra : list (string * string);
}.

(** What running author code does to the two result lists it shares with
    the grader, and to the script context. *)
Record exec_result (num : Type) : Type := ExecResult {
  x_context : gmap string (pyval num);
  x_correct : list string;
  x_messages : list string;
  x_raised : option exn;
}.
Arguments ExecResult {num} x_context x_correct x_messages x_raised.
Arguments x_context {num} e.
Arguments x_correct {num} e.
Arguments x_messages {num} e.
Arguments x_raised {num} e.

(** The host: the interpreter of author-supplied code, the HTML and XML
    libraries and the network. *)
Class Host (num : Type) : Type := {
  (** [x == 0] for a float or complex number (its truth value is the
      negation) *)
  is_zero : num -> bool;
  (** [contextualize_text(text, context)] of [util] *)
  contextualize_text : option string -> gmap string (pyval num) -> res string;
  (** [exec code in globals, context], with the lists bound to [correct]
      and [messages] *)
  exec_code : string -> pyval num -> gmap string (pyval num) ->
              list string -> list string -> exec_result num;
  (** [inspect.getargspec(fn)]: the argument names and the number of
      defaults *)
  getargspec : pyval num -> res (list string * nat);
  (** a call [fn(args, kwargs)] of a function of the script context, which
      may change that context *)
  call_fn : pyval num -> list (pyval num) -> list (string * pyval num) ->
            gmap string (pyval num) -> res (pyval num) * gmap string (pyval num);
  (** a call [hintfn(answer_ids, student_answers, new_cmap, old_cmap)],
      returning the new state of [new_cmap] *)
  call_hintfn : pyval num -> list string -> gmap string answer ->
                CorrectMap.t -> CorrectMap.t -> gmap string (pyval num) ->
                res CorrectMap.t * gmap string (pyval num);
  (** [etree.tostring(fromstring_bs(msg, convertEntities=None),
      pretty_print=True)] *)
  soup_tostring : string -> res string;
  (** the [re.sub] call that removes the outermost [<html>] and [</html>]
      tags again *)
  re_sub_html : string -> string;
  (** [etree.fromstring], [etree.tostring(xml, pretty_print=True)] *)
  etree_fromstring : string -> res Xml.element;
  etree_tostring : Xml.element -> string;
  (** [json.dumps] of the list of submitted values *)
  json_dumps : list answer -> string;
  (** [requests.post(url, data=payload)]: the text of the response *)
  requests_post : string -> payload -> res string;
  (** [str(err)] *)
  str_of_exn : exn -> string;
}.

(** ** Stateful computations

    A grading call runs in a world and either returns or raises; the world
    it leaves behind is kept in both cases. *)

Module St.
Section Monad.
Context {num rng : Type}.

Definition M (A : Type) : Type := world num rng -> res A * world num rng.

Definition ret {A} (a : A) : M A := fun w => (Ok a, w).

Definition raise {A} (e : exn) : M A := fun w => (Raise e, w).

Definition lift {A} (r : res A) : M A := fun w => (r, w).

Definition bind {A B} (m : M A) (k : A -> M B) : M B := fun w =>
  match m w with
  | (Ok a, w') => k a w'
  | (Raise e, w') => (Raise e, w')
  end.

(** [try: m  except Exception as err: h err] *)
Definition try_catch {A} (m : M A) (h : exn -> M A) : M A := fun w =>
  match m w with
  | (Ok a, w') => (Ok a, w')
  | (Raise e, w') => h e w'
  end.

Definition get_context : M (gmap string (pyval num)) :=
  fun w => (Ok (context w), w).

Definition put_context (c : gmap string (pyval num)) : M unit :=
  fun w => (Ok tt, World c (random_state w) (trace w)).

(** [self.context.update(d)]: the keys of [d] override. *)
Definition update_context (d : list (string * pyval num)) : M unit :=
  fun w => (Ok tt, World (foldl (fun m p => <[p.1 := p.2]> m) (context w) d)
                         (random_state w) (trace w)).

Definition emit (e : event num) : M unit :=
  fun w => (Ok tt, World (context w) (random_state w) (trace w ++ [e])%list).

(** One draw of the random generator. *)
Definition draw (f : rng -> num * rng) : M num :=
  fun w => let '(x, g) := f (random_state w) in
           (Ok x, World (context w) g (trace w)).

(** A loop body run over the elements of a list, threading an
    accumulator; an exception leaves the loop. *)
Fixpoint for_each {A B} (l : list A) (acc : B) (body : B -> A -> M B) : M B :=
  match l with
  | [] => ret acc
  | x :: l' => bind (body acc x) (fun acc' => for_each l' acc' body)
  end.

End Monad.
Arguments M num rng A : clear implicits.
End St.

Declare Scope st_scope.
Delimit Scope st_scope with st.
Notation "'do' x <- m ; k" := (St.bind m (fun x => k))
  (at level 10, x name, m at level 100, k at level 200) : st_scope.
Notation "'do' ' p <- m ; k" := (St.bind m (fun x => match x with p => k end))
  (at level 10, p pattern, m at level 100, k at level 200) : st_scope.
Notation "'run' m ; k" := (St.bind m (fun _ => k))
  (at level 10, m at level 100, k at level 200) : st_scope.

(** ** [MultipleChoiceResponse] and [TrueFalseResponse] *)

Module MultipleChoiceResponse.

(** The attributes [__init__] and [setup_response] leave on the
    instance. *)
Record t : Type := {
  answer_id : string;
  correct_choices : list string;
}.

(** [get_score]: the key is looked up only when the membership test
    succeeded ([and] does not evaluate its right operand otherwise). *)
Definition get_score (self : t) (student_answers : gmap string answer)
    : res CorrectMap.t :=
  cond ← (if contains student_answers (answer_id self)
          then v ← getitem student_answers (answer_id self);
               mret (answer_in v (correct_choices self))
          else mret false);
  if cond : bool
  then mret (CorrectMap.init (answer_id self) "correct" None)
  else mret (CorrectMap.init (answer_id self) "incorrect" None).

Definition get_answers (self : t) : gmap string (list string) :=
  {[ answer_id self := correct_choices self ]}.

End MultipleChoiceResponse.

Module TrueFalseResponse.

(** A subclass of [MultipleChoiceResponse] with the same attributes. *)
Definition t : Type := MultipleChoiceResponse.t.
Definition answer_id : t -> string := MultipleChoiceResponse.answer_id.
Definition correct_choices : t -> list string :=
  MultipleChoiceResponse.correct_choices.

Definition get_score (self : t) (student_answers : gmap string answer)
    : res CorrectMap.t :=
  let correct : gset string := list_to_set (correct_choices self) in
  let answers : gset string :=
    set_of (default (AList []) (student_answers !! answer_id self)) in
  if bool_decide (correct = answers)
  then mret (CorrectMap.init (answer_id self) "correct" None)
  else mret (CorrectMap.init (answer_id self) "incorrect" None).

(** The two sets [get_score] compares: the declared correct choices, and
    the set Python builds from the submission (empty when the answer id
    is absent). *)
Definition declared (self : t) : gset string :=
  list_to_set (correct_choices self).

Definition submitted (self : t) (student_answers : gmap string answer)
    : gset string :=
  set_of (default (AList []) (student_answers !! answer_id self)).

End TrueFalseResponse.

(** ** [ImageResponse] *)

Module ImageResponse.

Record t : Type := {
  ielements : list Xml.element;
}.

(** [setup_response]: the ids of the [imageinput] fields ([None] for a
    field without id). *)
Definition answer_ids (self : t) : list (option string) :=
  (fun ie => Xml.get ie "id") <$> ielements self.

Definition get_answers (self : t) : gmap (option string) (option string) :=
  dict ((fun ie => (Xml.get ie "id", Xml.get ie "rectangle")) <$> ielements self).

(** The pieces of the two regular expressions: one character out of a
    class, and a non-empty run of digits converted by [int]. *)
Definition one_of (cs : list ascii) (s : string) : option string :=
  match s with
  | String c s' => if existsb (Ascii.eqb c) cs then Some s' else None
  | EmptyString => None
  end.

Definition number (s : string) : option (Z * string) :=
  match Str.span_digits 0 0 s with
  | (n, S _, rest) => Some (Z.of_N n, rest)
  | _ => None
  end.

(** [re.match] of the rectangle pattern: an opening parenthesis or
    bracket, two numbers separated by a comma, a closing one, a dash and
    the same again.  [re.match] anchors at the start only, what follows
    the match is ignored. *)
Definition match_rectangle (s : string) : option (Z * Z * Z * Z) :=
  s ← one_of ["("; "["]%char s;
  '(llx, s) ← number s;
  s ← one_of [","]%char s;
  '(lly, s) ← number s;
  s ← one_of [")"; "]"]%char s;
  s ← one_of ["-"]%char s;
  s ← one_of ["("; "["]%char s;
  '(urx, s) ← number s;
  s ← one_of [","]%char s;
  '(ury, s) ← number s;
  _ ← one_of [")"; "]"]%char s;
  Some (llx, lly, urx, ury).

(** [re.match] of the pattern of a click, [[x,y]]. *)
Definition match_point (s : string) : option (Z * Z) :=
  s ← one_of ["["]%char s;
  '(gx, s) ← number s;
  s ← one_of [","]%char s;
  '(gy, s) ← number s;
  _ ← one_of ["]"]%char s;
  Some (gx, gy).

(** [s.strip().replace(' ','')]; the receiver has to be a string. *)
Definition normalise (s : string) : string :=
  Str.replace " " EmptyString (Str.strip s).

(** [(llx <= gx <= urx) and (lly <= gy <= ury)] *)
Definition inside (llx lly urx ury gx gy : Z) : bool :=
  ((llx <=? gx)%Z && (gx <=? urx)%Z) && ((lly <=? gy)%Z && (gy <=? ury)%Z).

(** The body of the loop of [get_score] for one answer id. *)
Definition grade (self : t) (student_answers : gmap string answer)
    (expectedset : gmap (option string) (option string))
    (correct_map : CorrectMap.t) (aid : option string) : res CorrectMap.t :=
  (* given = student_answers[aid] *)
  k ← match aid with Some k => Ok k | None => Raise (KeyError "None") end;
  given ← getitem student_answers k;
  (* parse expected answer *)
  rect ← match expectedset !! aid with
         | Some (Some r) => Ok r
         | Some None => Raise AttributeError       (* None.strip() *)
         | None => Raise (KeyError k)
         end;
  '(llx, lly, urx, ury) ←
    match match_rectangle (normalise rect) with
    | Some r => Ok r
    | None => Raise TypeError      (* self.ielements[aid], a list indexed by a string *)
    end;
  (* parse given answer *)
  g ← match given with
      | AStr g => Ok g
      | AList _ => Raise AttributeError            (* a list has no strip() *)
      end;
  '(gx, gy) ←
    match match_point (normalise g) with
    | Some p => Ok p
    | None => Raise Exception_
    end;
  (* answer is correct if (x,y) is within the specified rectangle *)
  if inside llx lly urx ury gx gy
  then mret (CorrectMap.set correct_map k "correct" None)
  else mret (CorrectMap.set correct_map k "incorrect" None).

Fixpoint loop (self : t) (student_answers : gmap string answer)
    (expectedset : gmap (option string) (option string))
    (correct_map : CorrectMap.t) (aids : list (option string))
    : res CorrectMap.t :=
  match aids with
  | [] => mret correct_map
  | aid :: rest =>
      correct_map ← grade self student_answers expectedset correct_map aid;
      loop self student_answers expectedset correct_map rest
  end.

Definition get_score (self : t) (student_answers : gmap string answer)
    : res CorrectMap.t :=
  let correct_map := CorrectMap.new in
  let expectedset := get_answers self in
  loop self student_answers expectedset correct_map (answer_ids self).

(** What [get_score] reads for the field [k] when nothing is malformed: the
    declared rectangle and the submitted point. *)
Definition reading (self : t) (student_answers : gmap string answer)
    (k : string) : option ((Z * Z * Z * Z) * (Z * Z)) :=
  rect ← get_answers self !! Some k;
  rect ← rect;
  rectangle ← match_rectangle (normalise rect);
  given ← student_answers !! k;
  match given with
  | AStr g => point ← match_point (normalise g); Some (rectangle, point)
  | AList _ => None
  end.

Definition verdict (r : (Z * Z * Z * Z) * (Z * Z)) : string :=
  let '((llx, lly, urx, ury), (gx, gy)) := r in
  if inside llx lly urx ury gx gy then "correct" else "incorrect".

End ImageResponse.

(** ** [LoncapaResponse]: the base class and its hint engine *)

Module LoncapaResponse.

Section Base.
Context {num rng : Type} `{!Host num}.
Local Open Scope st_scope.

(** What the hint engine reads of a response instance.  The method
    [check_hint_condition] of the variant is a field; it returns a list
    of names, or [None] where a variant inherits the empty method of
    the base class. *)
Record t : Type := {
  xml : Xml.element;
  answer_ids : list string;
  hint_tag : option string;
  check_hint_condition :
    list Xml.element -> gmap string answer ->
    St.M num rng (option (list (option string)));
}.

(** [name in hints_to_show] *)
Definition name_in (name : option string)
    (hints_to_show : option (list (option string))) : res bool :=
  match hints_to_show with
  | Some l => Ok (bool_decide (name ∈ l))
  | None => Raise TypeError              (* None is not iterable *)
  end.

(** The body of the loop over the [hintpart] elements. *)
Definition attach (self : t) (hints_to_show : option (list (option string)))
    (hintmode : string) (new_cmap : CorrectMap.t) (hintpart : Xml.element)
    : St.M num rng CorrectMap.t :=
  do shown <- St.lift (name_in (Xml.get hintpart "on") hints_to_show);
  if shown : bool then
    do hint_text <-
      match Xml.find hintpart "text" with
      | Some t => St.ret (Xml.text t)
      | None => St.raise AttributeError
      end;
    (* make the hint appear after the last answer box in this response *)
    do aid <- St.lift (list_last (answer_ids self));
    St.ret (CorrectMap.set_hint_and_mode new_cmap aid hint_text hintmode)
  else St.ret new_cmap.

(** The call of a hint function of the script context. *)
Definition run_hintfn (fn : pyval num) (self : t)
    (student_answers : gmap string answer)
    (new_cmap old_cmap : CorrectMap.t) : St.M num rng CorrectMap.t :=
  run St.emit (EvCall fn [VList (VStr <$> answer_ids self);
                          VAnswers student_answers]);
  fun w =>
    let '(r, c) := call_hintfn fn (answer_ids self) student_answers
                               new_cmap old_cmap (context w) in
    (r, World c (random_state w) (trace w)).

(** [get_hints]; the result is the state of [new_cmap] afterwards. *)
Definition get_hints (self : t) (student_answers : gmap string answer)
    (new_cmap old_cmap : CorrectMap.t) : St.M num rng CorrectMap.t :=
  match Xml.find (xml self) "hintgroup" with
  | None => St.ret new_cmap
  | Some hintgroup =>
      (* hint specified by function? *)
      match Xml.get hintgroup "hintfn" with
      | Some (String c name' as hintfn) =>
          do ctx <- St.get_context;
          match ctx !! hintfn with
          | None => St.raise LoncapaProblemError
          | Some fn =>
              St.try_catch
                (run_hintfn fn self student_answers new_cmap old_cmap)
                (fun _ => St.raise ResponseError)
          end
      | _ =>
          (* hint specified by conditions and text dependent on conditions *)
          match hint_tag self with
          | Some tag =>
              match Xml.find hintgroup tag with
              | Some _ =>
                  let rephints := Xml.findall hintgroup tag in
                  do hints_to_show <- check_hint_condition self rephints student_answers;
                  let hintmode := Xml.get_default hintgroup "mode" "always" in
                  St.for_each (Xml.findall hintgroup "hintpart") new_cmap
                              (attach self hints_to_show hintmode)
              | None => St.ret new_cmap
              end
          | None => St.ret new_cmap
          end
      end
  end.

(** The loop over the [hintpart] elements when nothing raises: every part
    whose condition is among [shown] overwrites the hint of [aid]. *)
Definition matches (shown : list (option string)) (hintpart : Xml.element) : bool :=
  bool_decide (Xml.get hintpart "on" ∈ shown).

Definition hint_text (hintpart : Xml.element) : option string :=
  Xml.find hintpart "text" ≫= Xml.text.

Definition attach_all (aid hintmode : string) (shown : list (option string))
    (hintparts : list Xml.element) (new_cmap : CorrectMap.t) : CorrectMap.t :=
  foldl (fun cm hintpart =>
           if matches shown hintpart
           then CorrectMap.set_hint_and_mode cm aid (hint_text hintpart) hintmode
           else cm)
        new_cmap hintparts.

(** The method [check_hint_condition] of the base class: its body is
    [pass], so it returns [None]. *)
Definition base_check_hint_condition (hxml_set : list Xml.element)
    (student_answers : gmap string answer)
    : St.M num rng (option (list (option string))) :=
  St.ret None.

(** [evaluate_answers], given the [get_score] of the variant. *)
Definition evaluate_answers (self : t)
    (get_score : gmap string answer -> St.M num rng CorrectMap.t)
    (student_answers : gmap string answer) (old_cmap : CorrectMap.t)
    : St.M num rng CorrectMap.t :=
  do new_cmap <- get_score student_answers;
  get_hints self student_answers new_cmap old_cmap.

End Base.
Arguments t num rng : clear implicits.
End LoncapaResponse.

(** ** [NumericalResponse] *)

Module NumericalResponse.

Record t : Type := {
  answer_id : string;
  correct_answer : string;
  tolerance : tolerance_spec;
}.

Section Numerical.
Context {num rng : Type} `{!Calc num rng}.

(** [get_score]: the submission is the first argument of the
    comparison, the declared answer the second; whatever goes wrong
    inside the [try] becomes a [StudentInputError]. *)
Definition get_score (self : t) (student_answers : gmap string answer)
    : res CorrectMap.t :=
  student_answer ← getitem student_answers (answer_id self);
  correct ← try_except
    (given ← evaluator ∅ ∅ student_answer None;
     expected ← complex (correct_answer self);
     compare_with_tolerance given expected (tolerance self))
    (fun _ => Raise (StudentInputError "Invalid input -- please use a number only"));
  if correct : bool
  then mret (CorrectMap.init (answer_id self) "correct" None)
  else mret (CorrectMap.init (answer_id self) "incorrect" None).

End Numerical.
End NumericalResponse.

(** ** [FormulaResponse] *)

Module FormulaResponse.

Record t : Type := {
  answer_id : string;
  correct_answer : string;
  samples : string;
  tolerance : string;
  case_sensitive : bool;
}.

Section Formula.
Context {num rng : Type} `{!Calc num rng} `{!Host num}.
Local Open Scope st_scope.

(** [strip_dict]: the entries with an alphanumeric key and a numeric
    value, converted by [numpy.complex]. *)
Definition as_number (v : pyval num) : option num :=
  match v with
  | VBool b => Some (complex_of_Z (if b then 1 else 0))
  | VInt z => Some (complex_of_Z z)
  | VNum x => Some x
  | _ => None
  end.

Definition strip_dict (d : gmap string (pyval num)) : gmap string num :=
  map_imap (fun k v => if Str.isalnum k then as_number v else None) d.

(** The first four statements of [check_formula]: the variables, the
    number of samples and the range of every variable, read from a
    string such as [m,c@1,2:3,4#10]. *)
Definition parse_samples (samples : string)
    : res (nat * gmap string (list num)) :=
  let at_parts := Str.split "@" samples in
  let variables := Str.split "," (default EmptyString (head at_parts)) in
  tail1 ← list_getitem at_parts 1;
  count ← list_getitem (Str.split "#" tail1) 1;
  numsamples ← Str.int count;
  tail2 ← list_getitem at_parts 1;
  columns ← mapM (fun x => mapM float (Str.split "," x))
                 (Str.split ":" (default EmptyString (head (Str.split "#" tail2))));
  let sranges := zip_star columns in
  let ranges := dict (zip variables sranges) in
  mret (Z.to_nat numsamples, ranges).

(** The inner loop: one uniform value per variable, in the iteration
    order of the dict. *)
Definition sample (ranges : gmap string (list num))
    : St.M num rng (list (string * num)) :=
  St.for_each (map_to_list ranges) []
    (fun acc '(var, range) =>
       match range with
       | [a; b] => do value <- St.draw (uniform a b);
                   St.ret (acc ++ [(var, value)])%list
       | _ => St.raise TypeError      (* uniform() takes two bounds *)
       end).

Definition assign (d : gmap string num) (draws : list (string * num))
    : gmap string num :=
  foldl (fun m p => <[p.1 := p.2]> m) d draws.

(** One iteration of the loop over the samples; [true] when the loop
    goes on, [false] when it returns ["incorrect"]. *)
Definition trial (self : t) (expected : string) (given : answer)
    (ranges : gmap string (list num)) : St.M num rng bool :=
  do ctx <- St.get_context;
  do draws <- sample ranges;
  let instructor_variables := assign (strip_dict ctx) draws in
  let student_variables := assign ∅ draws in
  do instructor_result <-
    St.lift (evaluator instructor_variables ∅ (AStr expected)
                       (Some (case_sensitive self)));
  do student_result <-
    St.try_catch
      (St.lift (evaluator student_variables ∅ given
                          (Some (case_sensitive self))))
      (fun err =>
         match err with
         | UndefinedVariable message =>
             St.raise (StudentInputError (message +:+ " not permitted in answer"))
         | _ => St.raise (StudentInputError "Error in formula")
         end);
  if isnan student_result || isinf student_result then St.ret false
  else St.lift (compare_with_tolerance student_result instructor_result
                                       (TolStr (tolerance self))).

Fixpoint trials (self : t) (expected : string) (given : answer)
    (ranges : gmap string (list num)) (numsamples : nat)
    : St.M num rng string :=
  match numsamples with
  | O => St.ret "correct"
  | S n => do passed <- trial self expected given ranges;
           if passed : bool then trials self expected given ranges n
           else St.ret "incorrect"
  end.

Definition check_formula (self : t) (expected : string) (given : answer)
    (samples : string) : St.M num rng string :=
  do '(numsamples, ranges) <- St.lift (parse_samples samples);
  trials self expected given ranges numsamples.

(** *** The trials of a run

    The world in which trial [i] starts, the earlier trials having been
    run one after the other from [w]. *)
Fixpoint world_at (self : t) (expected : string) (given : answer)
    (ranges : gmap string (list num)) (i : nat) (w : world num rng)
    : world num rng :=
  match i with
  | O => w
  | S j => world_at self expected given ranges j
                    (snd (trial self expected given ranges w))
  end.

(** What happens in a trial started in [w], up to the two evaluations: the
    values drawn, then the result of the instructor's expression, then that
    of the student's expression under the same drawn values. *)
Inductive trial_view : Type :=
| SamplingFailed (e : exn)
| InstructorFailed (draws : list (string * num)) (e : exn)
| StudentFailed (draws : list (string * num)) (instructor_result : num) (e : exn)
| Evaluated (draws : list (string * num)) (instructor_result student_result : num).

Definition view (self : t) (expected : string) (given : answer)
    (ranges : gmap string (list num)) (w : world num rng) : trial_view :=
  match sample ranges w with
  | (Raise e, _) => SamplingFailed e
  | (Ok draws, _) =>
      match evaluator (assign (strip_dict (context w)) draws) ∅ (AStr expected)
                      (Some (case_sensitive self)) with
      | Raise e => InstructorFailed draws e
      | Ok instructor_result =>
          match evaluator (assign ∅ draws) ∅ given (Some (case_sensitive self)) with
          | Raise e => StudentFailed draws instructor_result e
          | Ok student_result => Evaluated draws instructor_result student_result
          end
      end
  end.

(** A trial passes when both expressions evaluate, the student's result is
    finite and it is within tolerance of the instructor's. *)
Definition passes (self : t) (expected : string) (given : answer)
    (ranges : gmap string (list num)) (w : world num rng) : Prop :=
  exists draws instructor_result student_result,
    view self expected given ranges w
      = Evaluated draws instructor_result student_result
    /\ isnan student_result = false
    /\ isinf student_result = false
    /\ compare_with_tolerance student_result instructor_result
                              (TolStr (tolerance self)) = Ok true.

(** A trial fails when both expressions evaluate and the student's result
    is not finite or is outside the tolerance. *)
Definition fails (self : t) (expected : string) (given : answer)
    (ranges : gmap string (list num)) (w : world num rng) : Prop :=
  exists draws instructor_result student_result,
    view self expected given ranges w
      = Evaluated draws instructor_result student_result
    /\ (isnan student_result = true
        \/ isinf student_result = true
        \/ compare_with_tolerance student_result instructor_result
                                  (TolStr (tolerance self)) = Ok false).

(** The verdict a trial hands to the loop, read off its view. *)
Definition outcome_of (self : t) (v : trial_view) : res bool :=
  match v with
  | SamplingFailed e => Raise e
  | InstructorFailed _ e => Raise e
  | StudentFailed _ _ (UndefinedVariable message) =>
      Raise (StudentInputError (message +:+ " not permitted in answer"))
  | StudentFailed _ _ _ => Raise (StudentInputError "Error in formula")
  | Evaluated _ instructor_result student_result =>
      if isnan student_result || isinf student_result then Ok false
      else compare_with_tolerance student_result instructor_result
                                  (TolStr (tolerance self))
  end.

Definition get_score (self : t) (student_answers : gmap string answer)
    : St.M num rng CorrectMap.t :=
  do given <- St.lift (getitem student_answers (answer_id self));
  do correctness <- check_formula self (correct_answer self) given (samples self);
  St.ret (CorrectMap.init (answer_id self) correctness None).

(** [check_hint_condition]: the names of the hint conditions whose
    formula the submission matches; any failure of a check counts as a
    mismatch. *)
Definition check_hint_condition (self : t) (hxml_set : list Xml.element)
    (student_answers : gmap string answer)
    : St.M num rng (list (option string)) :=
  do given <- St.lift (getitem student_answers (answer_id self));
  St.for_each hxml_set []
    (fun hints_to_show hxml =>
       let samples := Xml.get hxml "samples" in
       let name := Xml.get hxml "name" in
       do ctx <- St.get_context;
       do correct_answer <- St.lift (contextualize_text (Xml.get hxml "answer") ctx);
       do correctness <-
         St.try_catch
           (match samples with
            | Some s => check_formula self correct_answer given s
            | None => St.raise AttributeError     (* None.split *)
            end)
           (fun _ => St.ret "incorrect");
       if String.eqb correctness "correct"
       then St.ret (hints_to_show ++ [name])%list
       else St.ret hints_to_show).

(** The instance as the hint engine sees it. *)
Definition as_response (self : t) (xml : Xml.element)
    : LoncapaResponse.t num rng :=
  {| LoncapaResponse.xml := xml;
     LoncapaResponse.answer_ids := [answer_id self];
     LoncapaResponse.hint_tag := Some "formulahint";
     LoncapaResponse.check_hint_condition := fun hxml_set student_answers =>
       do names <- check_hint_condition self hxml_set student_answers;
       St.ret (Some names) |}.

End Formula.
End FormulaResponse.

(** ** [CustomResponse] *)

Module CustomResponse.

Section Custom.
Context {num rng : Type} `{!Host num}.
Local Open Scope st_scope.

(** The attributes left by [__init__] and [setup_response]; [code] is a
    string of checker code or a value of the script context, [debug] is
    [system.DEBUG]. *)
Record t : Type := {
  xml : Xml.element;
  answer_ids : list string;
  expect : option string;
  myid : option string;
  code : pyval num;
  debug : bool;
}.

Definition font_red (s : string) : string :=
  "<font color=" +:+ dquote +:+ "red" +:+ dquote +:+ ">" +:+ s +:+ "</font>".

(** [d[k]] on the dict a checker returned. *)
Definition dict_getitem (d : list (string * pyval num)) (k : string)
    : res (pyval num) :=
  match List.find (fun p => String.eqb (fst p) k) d with
  | Some p => Ok (snd p)
  | None => Raise (KeyError k)
  end.

(** [type(ret)==dict]: the entries of a value that is a dict.  The dict of
    student answers, which a checker receives as an argument, is one. *)
Definition dict_entries (ret : pyval num) : option (list (string * pyval num)) :=
  match ret with
  | VDict d => Some d
  | VAnswers answers => Some (map_to_list (of_answer <$> answers))
  | _ => None
  end.

(** The clean-up of the message of a structured result. *)
Definition clean_message (m : pyval num) : res string :=
  match m with
  | VStr msg =>
      let msg := "<html>" +:+ msg +:+ "</html>" in
      let msg := Str.replace "&#60;" "&lt;" msg in
      msg ← soup_tostring msg;
      let msg := Str.replace "&#13;" EmptyString msg in
      mret (re_sub_html msg)
  | _ => Raise TypeError            (* '<html>' + msg *)
  end.

(** The dict handed to [self.context.update]. *)
Definition bindings (self : t) (student_answers : gmap string answer)
    (idset : list string) (submission : list answer)
    (dynamath : list (option answer)) (correct messages : list string)
    : list (string * pyval num) :=
  [ ("xml", VXml (xml self));
    ("response_id", of_option (myid self));
    ("expect", of_option (expect self));
    ("submission", VList (of_answer <$> submission));
    ("idset", VList (VStr <$> idset));
    ("dynamath", VList ((fun o => match o with
                                  | Some a => of_answer a
                                  | None => VNone
                                  end) <$> dynamath));
    ("answers", VAnswers student_answers);
    ("correct", VList (VStr <$> correct));
    ("messages", VList (VStr <$> messages));
    ("options", of_option (Xml.get (xml self) "options"));
    ("testdat", VStr "hello world") ].

(** The branch for checker code given as a string: the code runs on
    the script context, any exception is printed and dropped. *)
Definition run_code (code : string) (correct messages : list string)
    : St.M num rng (list string * list string) :=
  do ctx <- St.get_context;
  match ctx !! "global_context" with
  | None => St.ret (correct, messages)     (* KeyError, caught *)
  | Some globals =>
      run St.emit (EvExec code);
      let r := exec_code code globals ctx correct messages in
      run St.put_context (x_context r);
      St.ret (x_correct r, x_messages r)
  end.

(** The call of a checker function, inside the [try]. *)
Definition call_checker (self : t) (fn : pyval num)
    (student_answers : gmap string answer) (idset : list string)
    (submission : list answer) : St.M num rng (pyval num) :=
  let answer_given : pyval num :=
    match idset, submission with
    | [_], a :: _ => of_answer a
    | _, _ => VList (of_answer <$> submission)
    end in
  do first_id <- St.lift (list_getitem (answer_ids self) 0);
  let args := [of_option (expect self); answer_given;
               VAnswers student_answers; VStr first_id] in
  do '(argnames, ndefaults) <- St.lift (getargspec fn);
  let nargs := (length argnames - ndefaults)%nat in
  do ctx <- St.get_context;
  let kwargs := (fun argname => (argname, default VNone (ctx !! argname)))
                  <$> drop nargs argnames in
  run St.emit (EvCall fn (take nargs args));
  fun w =>
    let '(r, c) := call_fn fn (take nargs args) kwargs (context w) in
    (r, World c (random_state w) (trace w)).

(** The branch for a checker function: the verdicts and messages it
    leads to. *)
Definition run_function (self : t) (fn : pyval num)
    (student_answers : gmap string answer) (idset : list string)
    (submission : list answer) (messages : list string)
    : St.M num rng (list string * list string) :=
  do ret <- St.try_catch
              (call_checker self fn student_answers idset submission)
              (fun _ => St.raise Exception_);
  match dict_entries ret with
  | Some d =>
      do ok <- St.lift (dict_getitem d "ok");
      let correct := if is_true is_zero ok
                     then replicate (length idset) "correct"
                     else replicate (length idset) "incorrect" in
      do m <- St.lift (dict_getitem d "msg");
      do msg <- St.lift (clean_message m);
      match messages with
      | [] => St.raise IndexError
      | _ :: rest => St.ret (correct, msg :: rest)
      end
  | None =>
      let correct := if is_true is_zero ret
                     then replicate (length idset) "correct"
                     else replicate (length idset) "incorrect" in
      St.ret (correct, messages)
  end.
(* The entry ['messages'] of the script context is the list object that
   [messages[0] = msg] changes; the context of the model keeps the value
   the list had at the update.  No statement below reads it. *)

(** The final loop: [correct_map.set(idset[k], correct[k],
    msg=messages[k])]. *)
Fixpoint build_map (idset : list string) (k : nat) (correct messages : list string)
    (correct_map : CorrectMap.t) : res CorrectMap.t :=
  match idset with
  | [] => Ok correct_map
  | aid :: rest =>
      c ← list_getitem correct k;
      m ← list_getitem messages k;
      build_map rest (S k) correct messages
                (CorrectMap.set correct_map aid c (Some m))
  end.

(** Everything after the early return of [get_score]. *)
Definition evaluate (self : t) (student_answers : gmap string answer)
    (idset : list string) (submission : list answer)
    (dynamath : list (option answer)) : St.M num rng CorrectMap.t :=
  let correct := replicate (length idset) "unknown" in
  let messages := replicate (length idset) EmptyString in
  (* put these in the context of the check function evaluator *)
  run St.update_context
        (bindings self student_answers idset submission dynamath correct messages);
  (* pass self.system.debug to cfn *)
  run St.update_context [("debug", VBool (debug self))];
  (* exec the check function *)
  do '(correct, messages) <-
    match code self with
    | VStr code => run_code code correct messages
    | fn => run_function self fn student_answers idset submission messages
    end;
  (* build map giving "correct"ness of the answer(s) *)
  St.lift (build_map idset 0 correct messages CorrectMap.new).

(** The world in which the checker starts: the script context after the two
    updates of [evaluate]. *)
Definition checker_world (self : t) (student_answers : gmap string answer)
    (idset : list string) (submission : list answer) (w : world num rng)
    : world num rng :=
  let dynamath := (fun k => student_answers !! (k +:+ "_dynamath")) <$> idset in
  let correct := replicate (length idset) "unknown" in
  let messages := replicate (length idset) EmptyString in
  World (<["debug" := VBool (debug self)]>
           (foldl (fun m p => <[p.1 := p.2]> m) (context w)
                  (bindings self student_answers idset submission dynamath
                            correct messages)))
        (random_state w) (trace w).

Definition get_score (self : t) (student_answers : gmap string answer)
    : St.M num rng CorrectMap.t :=
  let idset := sorted (answer_ids self) in
  do submission <-
    St.try_catch (St.lift (mapM (getitem student_answers) idset))
                 (fun _ => St.raise Exception_);
  let dynamath := (fun k => student_answers !! (k +:+ "_dynamath")) <$> idset in
  (* if there is only one box, and it's empty, then don't evaluate *)
  match idset, submission with
  | [aid], a :: _ =>
      if negb (truthy a)
      then St.ret (CorrectMap.init aid "incorrect"
                     (Some (font_red "No answer entered!")))
      else evaluate self student_answers idset submission dynamath
  | _, _ => evaluate self student_answers idset submission dynamath
  end.

End Custom.
Arguments t num : clear implicits.
End CustomResponse.

(** ** [CodeResponse] and [ExternalResponse] *)

(** The award-detail vocabulary, [admap]. *)
Definition admap : gmap string string :=
  dict [("EXACT_ANS", "correct"); ("WRONG_FORMAT", "incorrect")].

Module ExternalGrading.

Section Grading.
Context {num rng : Type} `{!Host num}.
Local Open Scope st_scope.

(** [rxml.find(tag).text]: an absent element has no [text]. *)
Definition find_text (rxml : Xml.element) (tag : string) : res (option string) :=
  match Xml.find rxml tag with
  | Some e => Ok (Xml.text e)
  | None => Raise AttributeError
  end.

(** The statements that [CodeResponse.update_score] and
    [ExternalResponse.get_score] share (the former says they are
    "lifted directly" from the latter): the verdict list of the script
    context is reset to [['correct']], its first element is overwritten
    when the award detail is a key of [admap], and every answer id gets
    the element at its own position. *)
Definition set_verdict (ad : option string) : St.M num rng (list string) :=
  let correct := ["correct"] in
  run St.update_context [("correct", VList (VStr <$> correct))];
  match ad ≫= (fun ad => admap !! ad) with
  | Some verdict =>
      let correct := <[0%nat := verdict]> correct in
      run St.update_context [("correct", VList (VStr <$> correct))];
      St.ret correct
  | None => St.ret correct
  end.

Definition record (rxml : Xml.element) (idset correct : list string)
    (cmap : CorrectMap.t) (key : string) : res CorrectMap.t :=
  idx ← index key idset;
  msg ← (if (idx =? 0)%nat
         then text ← find_text rxml "message";
              match text with
              | Some m => Ok (Some (Str.replace "&nbsp;" "&#160;" m))
              | None => Raise AttributeError
              end
         else Ok None);
  verdict ← list_getitem correct idx;
  mret (CorrectMap.set cmap key verdict msg).

Fixpoint create_map (rxml : Xml.element) (idset correct : list string)
    (cmap : CorrectMap.t) (keys : list string) : res CorrectMap.t :=
  match keys with
  | [] => Ok cmap
  | key :: rest =>
      cmap ← record rxml idset correct cmap key;
      create_map rxml idset correct cmap rest
  end.

(** The verdict [set_verdict] computes for an award detail: the entry of
    [admap], or the initial ['correct']. *)
Definition award (ad : option string) : string :=
  default "correct" (ad ≫= (fun ad => admap !! ad)).

Definition ingest (rxml : Xml.element) (idset : list string)
    (cmap : CorrectMap.t) : St.M num rng CorrectMap.t :=
  do ad <- St.lift (find_text rxml "awarddetail");
  do correct <- set_verdict ad;
  (* create CorrectMap *)
  St.lift (create_map rxml idset correct cmap idset).

End Grading.
End ExternalGrading.

Module CodeResponse.

Record t : Type := {
  answer_ids : list string;
}.

Section Code.
Context {num rng : Type} `{!Host num}.
Local Open Scope st_scope.

Definition update_score (self : t) (score_msg : string)
    : St.M num rng CorrectMap.t :=
  (* Parse 'score_msg' as XML *)
  do rxml <- St.try_catch (St.lift (etree_fromstring score_msg))
                          (fun _ => St.raise Exception_);
  let idset := sorted (answer_ids self) in
  let cmap := CorrectMap.new in
  ExternalGrading.ingest rxml idset cmap.

End Code.
End CodeResponse.

Module ExternalResponse.

Record t : Type := {
  xml : Xml.element;
  answer_ids : list string;
  url : string;
  code : option string;
  tests : option string;
  debug : bool;
}.

Section External.
Context {num rng : Type} `{!Host num}.
Local Open Scope st_scope.

(** [do_external_request]: post the payload, refuse an empty or blank
    reply, parse the reply. *)
Definition do_external_request (self : t) (cmd : string)
    (extra_payload : list (string * string)) : St.M num rng Xml.element :=
  let xmlstr := etree_tostring (xml self) in
  let payload := Payload xmlstr cmd (tests self) (code self) extra_payload in
  run St.emit (EvPost (url self) cmd);
  do text <- St.try_catch (St.lift (requests_post (url self) payload))
                          (fun _ => St.raise Exception_);
  if String.eqb text EmptyString || String.eqb (Str.strip text) EmptyString
  then St.raise Exception_
  else St.try_catch (St.lift (etree_fromstring text))
                    (fun _ => St.raise Exception_).

Definition font_error (s : string) : string :=
  "<font color=" +:+ dquote +:+ "red" +:+ dquote +:+ " size=" +:+ dquote
  +:+ "+2" +:+ dquote +:+ ">" +:+ s +:+ "</font>".

Definition get_score (self : t) (student_answers : gmap string answer)
    : St.M num rng CorrectMap.t :=
  let idset := sorted (answer_ids self) in
  let cmap := CorrectMap.new in
  do submission <-
    St.try_catch (St.lift (mapM (getitem student_answers) idset))
                 (fun _ => St.raise Exception_);
  run St.update_context [("submission", VList (of_answer <$> submission))];
  let extra_payload := [("edX_student_response", json_dumps submission)] in
  do outcome <-
    St.try_catch
      (do rxml <- do_external_request self "get_score" extra_payload;
       St.ret (inl rxml))
      (fun err =>
         if debug self then
           let cmap :=
             CorrectMap.set_dict cmap
               (dict (zip (sorted (answer_ids self))
                          (replicate (length idset) "incorrect"))) in
           do first_id <- St.lift (list_getitem (answer_ids self) 0);
           St.ret (inr (CorrectMap.set_msg cmap first_id
                          (font_error (Str.replace "<" "&lt;" (str_of_exn err)))))
         else
           (* the handler ends and [rxml.find] meets an unbound name *)
           St.raise NameError);
  match outcome with
  | inl rxml => ExternalGrading.ingest rxml idset cmap
  | inr cmap => St.ret cmap
  end.

End External.
End ExternalResponse.

(** ** [LoncapaResponse.__init__]: the checks on a new response *)

Module ResponseInit.

(** The class attributes [__init__] reads.  [max_inputfields] is [None]
    or a number. *)
Record kind : Type := {
  max_inputfields : option nat;
  allowed_inputfields : list string;
  required_attributes : list string;
}.

(** The attributes [__init__] has set when it calls [setup_response]:
    the ids of the input fields ([None] for a field without id),
    [answer_id] when the type has [max_inputfields == 1], and the default
    answers. *)
Record fields : Type := Fields {
  answer_ids : list (option string);
  answer_id : option (option string);
  default_answer_map : gmap (option string) string;
}.

Section Init.
Context {num : Type} `{!Host num}.

(** A loop that raises [LoncapaProblemError] at the first element that
    fails its test. *)
Fixpoint each {A} (ok : A -> bool) (l : list A) : res unit :=
  match l with
  | [] => Ok tt
  | x :: l' => if ok x then each ok l' else Raise LoncapaProblemError
  end.

(** Truth value of [e.get(name)]: [None] and the empty string are false. *)
Definition nonempty (o : option string) : bool :=
  match o with
  | Some s => negb (String.eqb s EmptyString)
  | None => false
  end.

(** [self.max_inputfields and len(inputfields) > self.max_inputfields] *)
Definition too_many (k : kind) (inputfields : list Xml.element) : bool :=
  match max_inputfields k with
  | Some n => negb (n =? 0)%nat && (n <? length inputfields)%nat
  | None => false
  end.

(** The loop that fills [default_answer_map]. *)
Fixpoint default_answers (context : gmap string (pyval num))
    (inputfields : list Xml.element) (m : gmap (option string) string)
    : res (gmap (option string) string) :=
  match inputfields with
  | [] => Ok m
  | entry :: rest =>
      let answer := Xml.get entry "correct_answer" in
      if nonempty answer
      then text ← contextualize_text answer context;
           default_answers context rest (<[Xml.get entry "id" := text]> m)
      else default_answers context rest m
  end.

(** [__init__], with the [setup_response] of the response type. *)
Definition init (k : kind) (setup_response : fields -> res fields)
    (xml : Xml.element) (inputfields : list Xml.element)
    (context : gmap string (pyval num)) : res fields :=
  _ ← each (fun abox => str_in (Xml.tag abox) (allowed_inputfields k)) inputfields;
  _ ← (if too_many k inputfields then Raise LoncapaProblemError else Ok tt);
  _ ← each (fun prop => nonempty (Xml.get xml prop)) (required_attributes k);
  (* ordered list of answer_id values for this response *)
  let answer_ids := (fun x => Xml.get x "id") <$> inputfields in
  answer_id ← (if bool_decide (max_inputfields k = Some 1%nat)
               then first ← list_getitem answer_ids 0; mret (Some first)
               else Ok None);
  default_answer_map ← default_answers context inputfields ∅;
  setup_response (Fields answer_ids answer_id default_answer_map).

End Init.

(** The class attributes of the response types. *)
Definition base : kind := Build_kind None [] [].
Definition multiplechoiceresponse : kind := Build_kind (Some 1%nat) ["choicegroup"] [].
Definition optionresponse : kind := Build_kind None ["optioninput"] [].
Definition numericalresponse : kind := Build_kind (Some 1%nat) ["textline"] ["answer"].
Definition stringresponse : kind := Build_kind (Some 1%nat) ["textline"] ["answer"].
Definition customresponse : kind := Build_kind None ["textline"; "textbox"] [].
Definition coderesponse : kind := Build_kind None ["textline"; "textbox"] [].
Definition externalresponse : kind := Build_kind None ["textline"; "textbox"] [].
Definition formularesponse : kind := Build_kind (Some 1%nat) ["textline"] ["answer"].
Definition schematicresponse : kind := Build_kind None ["schematic"] [].
Definition imageresponse : kind := Build_kind None ["imageinput"] [].

End ResponseInit.

(** ** [StringResponse] *)

Module StringResponse.

Record t : Type := {
  xml : Xml.element;
  answer_id : string;
  correct_answer : string;
}.

Section String.
Context {num : Type} `{!Host num}.

(** [setup_response]: the declared answer, contextualized and stripped. *)
Definition setup_response (xml : Xml.element)
    (context : gmap string (pyval num)) : res string :=
  text ← contextualize_text (Xml.get xml "answer") context;
  mret (Str.strip text).

Definition check_string (self : t) (expected given : string) : bool :=
  if bool_decide (Xml.get (xml self) "type" = Some "ci")
  then String.eqb (Str.lower given) (Str.lower expected)
  else String.eqb given expected.

(** [student_answers[self.answer_id].strip()]; a list has no [strip]. *)
Definition given_text (self : t) (student_answers : gmap string answer)
    : res string :=
  a ← getitem student_answers (answer_id self);
  match a with
  | AStr s => Ok (Str.strip s)
  | AList _ => Raise AttributeError
  end.

(** Grade a string response *)
Definition get_score (self : t) (student_answers : gmap string answer)
    : res CorrectMap.t :=
  student_answer ← given_text self student_answers;
  let correct := check_string self (correct_answer self) student_answer in
  mret (CorrectMap.init (answer_id self)
          (if correct then "correct" else "incorrect") None).

(** The loop of [check_hint_condition] over the hint stanzas. *)
Fixpoint hints (self : t) (context : gmap string (pyval num)) (given : string)
    (hxml_set : list Xml.element) (hints_to_show : list (option string))
    : res (list (option string)) :=
  match hxml_set with
  | [] => Ok hints_to_show
  | hxml :: rest =>
      let name := Xml.get hxml "name" in
      text ← contextualize_text (Xml.get hxml "answer") context;
      let correct_answer := Str.strip text in
      if check_string self correct_answer given
      then hints self context given rest (hints_to_show ++ [name])%list
      else hints self context given rest hints_to_show
  end.

Definition check_hint_condition (self : t) (hxml_set : list Xml.element)
    (student_answers : gmap string answer) (context : gmap string (pyval num))
    : res (list (option string)) :=
  given ← given_text self student_answers;
  hints self context given hxml_set [].

End String.
End StringResponse.

(** ** [mc_setup_response]: the names of the choices *)

Module ChoiceSetup.

(** [str(i)] for a counter. *)
Definition str (i : nat) : string := pretty i.

(** The inner loop over [list(response)]: a choice without name gets the
    next number, a choice with a name keeps it; both are prefixed. *)
Fixpoint name_choices (i : nat) (choices : list Xml.element)
    : list Xml.element * nat :=
  match choices with
  | [] => ([], i)
  | choice :: rest =>
      match Xml.get choice "name" with
      | None =>
          let '(rest', j) := name_choices (S i) rest in
          (Xml.set choice "name" ("choice_" +:+ str i) :: rest', j)
      | Some name =>
          let '(rest', j) := name_choices i rest in
          (Xml.set choice "name" ("choice_" +:+ name) :: rest', j)
      end
  end.

(** The outer loop over the [choicegroup] children of the response, the
    counter running on from one group to the next.  [retype] is what the
    loop does to the [type] attribute of the group. *)
Fixpoint setup_groups (retype : Xml.element -> Xml.element) (i : nat)
    (children : list Xml.element) : list Xml.element :=
  match children with
  | [] => []
  | response :: rest =>
      if String.eqb (Xml.tag response) "choicegroup"
      then let response := retype response in
           let '(choices, j) := name_choices i (Xml.children response) in
           Xml.with_children response choices :: setup_groups retype j rest
      else response :: setup_groups retype i rest
  end.

(** [MultipleChoiceResponse.mc_setup_response]: a group whose type is
    not [MultipleChoice] is forced to it. *)
Definition mc_setup_response (xml : Xml.element) : Xml.element :=
  Xml.with_children xml
    (setup_groups
       (fun response =>
          if bool_decide (Xml.get response "type" = Some "MultipleChoice")
          then response
          else Xml.set response "type" "MultipleChoice")
       0 (Xml.children xml)).

(** [TrueFalseResponse.mc_setup_response] *)
Definition tf_setup_response (xml : Xml.element) : Xml.element :=
  Xml.with_children xml
    (setup_groups (fun response => Xml.set response "type" "TrueFalse")
       0 (Xml.children xml)).

(** The choices of a response, group after group, and the number of
    choices without name among the first [n] of a list. *)
Definition choices (xml : Xml.element) : list Xml.element :=
  concat (Xml.children <$> Xml.findall xml "choicegroup").

Definition unnamed (cs : list Xml.element) (n : nat) : nat :=
  length (filter (fun c => Xml.get c "name" = None) (take n cs)).

End ChoiceSetup.

(** ** Test doubles for the collaborators

    Small implementations of the two classes, used to run the graders on
    concrete problems. *)

Module Fixtures.

(** Integers with the two kinds of non-finite value. *)
Inductive tnum : Type :=
| Fin (z : Z)
| Inf
| NaN.

(** An evaluator for expressions that are a decimal literal, the word
    [inf], the quotient [1/0] or a single variable name. *)
Definition t_evaluator (variables : gmap string tnum) (functions : gmap string string)
    (expr : answer) (cs : option bool) : res tnum :=
  match expr with
  | AList _ => Raise TypeError
  | AStr s =>
      match Str.int s with
      | Ok z => Ok (Fin z)
      | Raise _ =>
          if String.eqb s "inf" then Ok Inf
          else if String.eqb s "1/0" then Raise (LibraryError "ZeroDivisionError")
          else match variables !! s with
               | Some x => Ok x
               | None => Raise (UndefinedVariable s)
               end
      end
  end.

Definition t_compare (v1 v2 : tnum) (tol : tolerance_spec) : res bool :=
  match tol with
  | TolInt _ => Raise TypeError
  | TolStr s =>
      t ← Str.int s;
      match v1, v2 with
      | Fin a, Fin b => Ok (Z.abs (a - b) <=? t)%Z
      | _, _ => Ok false
      end
  end.

(** The generator hands out the values of a list, then the lower bound. *)
Definition t_uniform (a b : tnum) (g : list Z) : tnum * list Z :=
  match g with
  | x :: g' => (Fin x, g')
  | [] => (a, [])
  end.

#[global] Instance t_calc : Calc tnum (list Z) := {|
  evaluator := t_evaluator;
  compare_with_tolerance := t_compare;
  isnan := fun x => match x with NaN => true | _ => false end;
  isinf := fun x => match x with Inf => true | _ => false end;
  float := fun s => z ← Str.int s; mret (Fin z);
  complex := fun s => z ← Str.int s; mret (Fin z);
  complex_of_Z := Fin;
  uniform := t_uniform;
|}.

(** A host whose script context offers three checker functions of two
    positional arguments: ['echo'] returns the answer it is given,
    ['nothing'] returns [None] and ['verdict'] a dict with the flag and a
    message.  Checker code given as a string marks every answer correct.
    The grader behind every url but [down] replies [EXACT_ANS], and the XML
    parser reads a reply that consists of the award detail alone. *)
Definition t_call (fn : pyval tnum) (args : list (pyval tnum))
    (kwargs : list (string * pyval tnum)) (ctx : gmap string (pyval tnum))
    : res (pyval tnum) * gmap string (pyval tnum) :=
  match fn, args with
  | VFun "echo", [_; given] => (Ok given, ctx)
  | VFun "nothing", [_; _] => (Ok VNone, ctx)
  | VFun "verdict", [_; _] => (Ok (VDict [("ok", VBool true); ("msg", VStr "fine")]), ctx)
  | _, _ => (Raise TypeError, ctx)
  end.

#[global] Instance t_host : Host tnum := {|
  is_zero := fun x => match x with Fin 0 => true | _ => false end;
  contextualize_text := fun o _ => match o with Some s => Ok s | None => Raise TypeError end;
  exec_code := fun code globals ctx correct messages =>
    ExecResult (<["ran" := VBool true]> ctx)
               ((fun _ => "correct") <$> correct) messages None;
  getargspec := fun fn => match fn with
                          | VFun _ => Ok (["expect"; "ans"], 0%nat)
                          | _ => Raise TypeError
                          end;
  call_fn := t_call;
  call_hintfn := fun fn ids answers new_cmap old_cmap ctx => (Ok new_cmap, ctx);
  soup_tostring := fun s => Ok s;
  re_sub_html := fun s => s;
  etree_fromstring := fun s =>
    if String.eqb s EmptyString then Raise (LibraryError "XMLSyntaxError")
    else Ok (Xml.Element "edxgrade" []
               None
               [Xml.Element "awarddetail" [] (Some s) [];
                Xml.Element "message" [] (Some "graded") []]);
  etree_tostring := fun e => Xml.tag e;
  json_dumps := fun l => "[]";
  requests_post := fun url p => if String.eqb url "down" then Raise (LibraryError "ConnectionError")
                                else Ok "EXACT_ANS";
  str_of_exn := fun e => "error";
|}.

Definition w0 : world tnum (list Z) := World ∅ [] [].

End Fixtures.

(** ** Sample problems

    Response instances on which the properties of Part II are exercised. *)

Definition mc_example : MultipleChoiceResponse.t :=
  {| MultipleChoiceResponse.answer_id := "q1";
     MultipleChoiceResponse.correct_choices := ["choice_1"] |}.

(** Scenario 5 of the spec: rectangle [(10,10)-(20,30)]. *)
Definition image_example : ImageResponse.t :=
  {| ImageResponse.ielements :=
       [Xml.Element "imageinput"
          [("id", "i1"); ("src", "image1.jpg"); ("rectangle", "(10,10)-(20,30)")]
          None []] |}.

(** A custom response with one text line, graded by the value [code] of the
    script context. *)
Definition custom_example (code : pyval Fixtures.tnum)
    : CustomResponse.t Fixtures.tnum :=
  {| CustomResponse.xml := Xml.Element "customresponse" [("cfn", "check")] None [];
     CustomResponse.answer_ids := ["a1"];
     CustomResponse.expect := None;
     CustomResponse.myid := Some "r1";
     CustomResponse.code := code;
     CustomResponse.debug := false |}.

(** An externally graded response with two text boxes, and one with a
    single box. *)
Definition code_example (ids : list string) : CodeResponse.t :=
  {| CodeResponse.answer_ids := ids |}.

Definition external_example (ids : list string) : ExternalResponse.t :=
  {| ExternalResponse.xml := Xml.Element "externalresponse" [] None [];
     ExternalResponse.answer_ids := ids;
     ExternalResponse.url := "http://grader/";
     ExternalResponse.code := Some "answer = 1";
     ExternalResponse.tests := None;
     ExternalResponse.debug := false |}.

(** A hint group with three hint parts, two of them on the condition
    [same], for a response with two answer fields whose variant reports the
    condition [same] as satisfied. *)
Definition hinted_xml : Xml.element :=
  Xml.Element "stringresponse" [("answer", "Paris")] None
    [Xml.Element "textline" [("id", "a1")] None [];
     Xml.Element "textline" [("id", "a2")] None [];
     Xml.Element "hintgroup" [("mode", "on_request")] None
       [Xml.Element "stringhint" [("answer", "paris"); ("name", "same")] None [];
        Xml.Element "hintpart" [("on", "same")] None
          [Xml.Element "text" [] (Some "Mind the capital letter.") []];
        Xml.Element "hintpart" [("on", "other")] None
          [Xml.Element "text" [] (Some "Not a city.") []];
        Xml.Element "hintpart" [("on", "same")] None
          [Xml.Element "text" [] (Some "Names start with a capital.") []]]].

Definition hinted_example : LoncapaResponse.t Fixtures.tnum (list Z) :=
  {| LoncapaResponse.xml := hinted_xml;
     LoncapaResponse.answer_ids := ["a1"; "a2"];
     LoncapaResponse.hint_tag := Some "stringhint";
     LoncapaResponse.check_hint_condition := fun hxml_set student_answers =>
       St.ret (Some [Some "same"]) |}.

(** The formula response of the spec's scenario 4 (with integer bounds),
    and a hint group for it. *)
Definition formula_example : FormulaResponse.t :=
  {| FormulaResponse.answer_id := "f1";
     FormulaResponse.correct_answer := "m";
     FormulaResponse.samples := "m,c@1,2:3,4#3";
     FormulaResponse.tolerance := "0";
     FormulaResponse.case_sensitive := true |}.

Definition formula_xml : Xml.element :=
  Xml.Element "formularesponse" [("answer", "m"); ("samples", "m,c@1,2:3,4#3")] None
    [Xml.Element "textline" [("id", "f1")] None [];
     Xml.Element "hintgroup" [] None
       [Xml.Element "formulahint"
          [("samples", "m,c@1,2:3,4#2"); ("answer", "c"); ("name", "swapped")] None [];
        Xml.Element "hintpart" [("on", "swapped")] None
          [Xml.Element "text" [] (Some "You took c for m.") []]]].

(** The ranges that [formula_example] declares, and a world whose random
    generator will hand out 1, 2, 3, 4, 5, 6. *)
Definition formula_ranges : gmap string (list Fixtures.tnum) :=
  dict [("m", [Fixtures.Fin 1; Fixtures.Fin 3]); ("c", [Fixtures.Fin 2; Fixtures.Fin 4])].

Definition formula_world : world Fixtures.tnum (list Z) :=
  World ∅ [1; 2; 3; 4; 5; 6]%Z [].

(** A numerical response with a hint group: the class sets
    [hint_tag = 'numericalhint'] and inherits [check_hint_condition]. *)
Definition numerical_hinted_example : LoncapaResponse.t Fixtures.tnum (list Z) :=
  {| LoncapaResponse.xml :=
       Xml.Element "numericalresponse" [("answer", "4")] None
         [Xml.Element "textline" [("id", "n1")] None [];
          Xml.Element "hintgroup" [] None
            [Xml.Element "numericalhint" [("answer", "5"); ("name", "off")] None [];
             Xml.Element "hintpart" [("on", "off")] None
               [Xml.Element "text" [] (Some "Off by one.") []]]];
     LoncapaResponse.answer_ids := ["n1"];
     LoncapaResponse.hint_tag := Some "numericalhint";
     LoncapaResponse.check_hint_condition :=
       LoncapaResponse.base_check_hint_condition |}.

(** A response whose hint group names a hint function. *)
Definition hintfn_example (name : string) : LoncapaResponse.t Fixtures.tnum (list Z) :=
  {| LoncapaResponse.xml :=
       Xml.Element "customresponse" [] None
         [Xml.Element "textline" [("id", "a1")] None [];
          Xml.Element "hintgroup" [("hintfn", name)] None []];
     LoncapaResponse.answer_ids := ["a1"];
     LoncapaResponse.hint_tag := None;
     LoncapaResponse.check_hint_condition :=
       LoncapaResponse.base_check_hint_condition |}.

(** A host like [Fixtures.t_host] whose hint functions all fail. *)
Definition failing_hint_host : Host Fixtures.tnum := {|
  is_zero := @is_zero _ Fixtures.t_host;
  contextualize_text := @contextualize_text _ Fixtures.t_host;
  exec_code := @exec_code _ Fixtures.t_host;
  getargspec := @getargspec _ Fixtures.t_host;
  call_fn := @call_fn _ Fixtures.t_host;
  call_hintfn := fun fn ids answers new_cmap old_cmap ctx =>
    (Raise (LibraryError "ZeroDivisionError"), ctx);
  soup_tostring := @soup_tostring _ Fixtures.t_host;
  re_sub_html := @re_sub_html _ Fixtures.t_host;
  etree_fromstring := @etree_fromstring _ Fixtures.t_host;
  etree_tostring := @etree_tostring _ Fixtures.t_host;
  json_dumps := @json_dumps _ Fixtures.t_host;
  requests_post := @requests_post _ Fixtures.t_host;
  str_of_exn := @str_of_exn _ Fixtures.t_host;
|}.

(** The multiple-choice problem [mc_example] as the hint engine sees it:
    no hint group. *)
Definition mc_response : LoncapaResponse.t Fixtures.tnum (list Z) :=
  {| LoncapaResponse.xml :=
       Xml.Element "multiplechoiceresponse" [] None
         [Xml.Element "choicegroup" [("id", "q1")] None []];
     LoncapaResponse.answer_ids := ["q1"];
     LoncapaResponse.hint_tag := None;
     LoncapaResponse.check_hint_condition :=
       LoncapaResponse.base_check_hint_condition |}.

(** Scenario 2 of the spec, with integers: declared answer 4, tolerance 0;
    and the same problem with a declared answer that is no number. *)
Definition numerical_example (answer : string) : NumericalResponse.t :=
  {| NumericalResponse.answer_id := "n1";
     NumericalResponse.correct_answer := answer;
     NumericalResponse.tolerance := TolStr "0" |}.

(** Hint stanzas for [formula_example]: one that is in order, one without
    samples and one whose sample specification has no count. *)
Definition formula_hint_stanzas : list Xml.element :=
  [Xml.Element "formulahint"
     [("samples", "m,c@1,2:3,4#2"); ("answer", "c"); ("name", "swapped")] None [];
   Xml.Element "formulahint" [("answer", "c"); ("name", "nosamples")] None [];
   Xml.Element "formulahint"
     [("samples", "m,c@1,2:3,4"); ("answer", "c"); ("name", "nocount")] None []].

(** A custom response with two text lines. *)
Definition custom_pair (code : pyval Fixtures.tnum) : CustomResponse.t Fixtures.tnum :=
  {| CustomResponse.xml := Xml.Element "customresponse" [] None [];
     CustomResponse.answer_ids := ["b2"; "b1"];
     CustomResponse.expect := None;
     CustomResponse.myid := Some "r2";
     CustomResponse.code := code;
     CustomResponse.debug := false |}.


(** The externally graded problem behind an unreachable url, in debug mode
    or not. *)
Definition external_down (debug : bool) : ExternalResponse.t :=
  {| ExternalResponse.xml := Xml.Element "externalresponse" [] None [];
     ExternalResponse.answer_ids := ["e2"; "e1"];
     ExternalResponse.url := "down";
     ExternalResponse.code := Some "answer = 1";
     ExternalResponse.tests := None;
     ExternalResponse.debug := debug |}.

(** A host like [Fixtures.t_host] whose XML parser reads [<edxgrade/>] as
    an element without children and any other text as a reply with an award
    detail and no message. *)
Definition terse_grader_host : Host Fixtures.tnum := {|
  is_zero := @is_zero _ Fixtures.t_host;
  contextualize_text := @contextualize_text _ Fixtures.t_host;
  exec_code := @exec_code _ Fixtures.t_host;
  getargspec := @getargspec _ Fixtures.t_host;
  call_fn := @call_fn _ Fixtures.t_host;
  call_hintfn := @call_hintfn _ Fixtures.t_host;
  soup_tostring := @soup_tostring _ Fixtures.t_host;
  re_sub_html := @re_sub_html _ Fixtures.t_host;
  etree_fromstring := fun s =>
    if String.eqb s EmptyString then Raise (LibraryError "XMLSyntaxError")
    else if String.eqb s "<edxgrade/>" then Ok (Xml.Element "edxgrade" [] None [])
    else Ok (Xml.Element "edxgrade" [] None
               [Xml.Element "awarddetail" [] (Some s) []]);
  etree_tostring := @etree_tostring _ Fixtures.t_host;
  json_dumps := @json_dumps _ Fixtures.t_host;
  requests_post := @requests_post _ Fixtures.t_host;
  str_of_exn := @str_of_exn _ Fixtures.t_host;
|}.

(** An image problem whose rectangle lacks its parentheses. *)
Definition image_unparsable : ImageResponse.t :=
  {| ImageResponse.ielements :=
       [Xml.Element "imageinput"
          [("id", "i1"); ("src", "image1.jpg"); ("rectangle", "10,10-20,30")]
          None []] |}.

(** A string response of type [ci] with a hint on the answer [paris]. *)
Definition string_example : StringResponse.t :=
  {| StringResponse.xml :=
       Xml.Element "stringresponse" [("answer", "Paris"); ("type", "ci")] None [];
     StringResponse.answer_id := "s1";
     StringResponse.correct_answer := "Paris" |}.

Definition string_hint_stanzas : list Xml.element :=
  [Xml.Element "stringhint" [("answer", " paris "); ("name", "capital")] None [];
   Xml.Element "stringhint" [("answer", "Lyon"); ("name", "second")] None []].

(** A multiple-choice response whose second choice has a name. *)
Definition choice_xml : Xml.element :=
  Xml.Element "multiplechoiceresponse" [] None
    [Xml.Element "choicegroup" [("type", "MultipleChoice")] None
       [Xml.Element "choice" [("correct", "false")] None [];
        Xml.Element "choice" [("correct", "true"); ("name", "foil")] None [];
        Xml.Element "choice" [("correct", "false")] None []]].


(** A string response of type [ci] whose answer starts with a capital
    letter outside the ASCII range (code point 201). *)
Definition string_accent_example : StringResponse.t :=
  {| StringResponse.xml :=
       Xml.Element "stringresponse"
         [("answer", String (ascii_of_nat 201) "tat"); ("type", "ci")] None [];
     StringResponse.answer_id := "s1";
     StringResponse.correct_answer := String (ascii_of_nat 201) "tat" |}.

Definition tf_example : TrueFalseResponse.t :=
  {| MultipleChoiceResponse.answer_id := "q1";
     MultipleChoiceResponse.correct_choices := ["choice_0"; "choice_2"] |}.

(* ===================================================================== *)
(** * Part II.  Properties                                                *)
(* ===================================================================== *)

(** ** The correctness map *)

Section CorrectMapFacts.
Import CorrectMap.

Lemma get_correctness_set (cm : t) (k c : string) (m : option string) :
  get_correctness (set cm k c m) k = Some c.
Proof. unfold get_correctness, set. by rewrite lookup_insert_eq. Qed.

Lemma get_correctness_set_ne (cm : t) (k k' c : string) (m : option string) :
  k <> k' -> get_correctness (set cm k c m) k' = get_correctness cm k'.
Proof. intros Hne. unfold get_correctness, set. by rewrite lookup_insert_ne. Qed.


Lemma init_verdict_inj (k c1 c2 : string) (m1 m2 : option string) :
  init k c1 m1 = init k c2 m2 -> c1 = c2.
Proof.
  intros Heq. apply (f_equal (fun cm => get_correctness cm k)) in Heq.
  unfold init in Heq. rewrite !get_correctness_set in Heq. congruence.
Qed.

Lemma Ok_inj {A} (a b : A) : Ok a = Ok b -> a = b.
Proof. congruence. Qed.

Lemma Ok_init_inj (k c1 c2 : string) (m1 m2 : option string) :
  Ok (init k c1 m1) = Ok (init k c2 m2) -> c1 = c2.
Proof. intros Heq. apply Ok_inj in Heq. by apply init_verdict_inj in Heq. Qed.

End CorrectMapFacts.

(** ** Multiple choice *)

Section MultipleChoiceFacts.
Import MultipleChoiceResponse.

Lemma str_in_false (x : string) (l : list string) :
  x ∉ l -> str_in x l = false.
Proof. intros Hx. unfold str_in. by rewrite bool_decide_eq_false. Qed.

(** [get_score] never raises: the lookup is guarded by the membership
    test. *)
Lemma multiple_choice_total (self : t) (student_answers : gmap string answer) :
  exists cm, get_score self student_answers = Ok cm.
Proof.
  unfold get_score, contains, getitem.
  destruct (student_answers !! answer_id self) as [v|] eqn:Hv.
  - rewrite bool_decide_eq_true_2; [|by eexists]. simpl.
    destruct (answer_in v (correct_choices self)); eauto.
  - rewrite bool_decide_eq_false_2; [|by intros [? ?]]. simpl. eauto.
Qed.

(** C9.  When the answer id of a multiple-choice response is absent from
    the student answers, or bound to a value that is not one of the
    declared correct choices, [get_score] returns (without raising) the
    map that marks the answer id ["incorrect"]. *)
Theorem multiple_choice_missing_or_wrong
    (self : t) (student_answers : gmap string answer) :
  (forall s, student_answers !! answer_id self = Some (AStr s) ->
             s ∉ correct_choices self) ->
  get_score self student_answers
    = Ok (CorrectMap.init (answer_id self) "incorrect" None)
  /\ CorrectMap.get_correctness
       (CorrectMap.init (answer_id self) "incorrect" None) (answer_id self)
     = Some "incorrect".
Proof.
  intros Hwrong. split.
  - unfold get_score, contains, getitem.
    destruct (student_answers !! answer_id self) as [v|] eqn:Hv.
    + rewrite bool_decide_eq_true_2; [|by eexists]. simpl.
      destruct v as [s|l]; simpl; [|done].
      by rewrite (str_in_false s _ (Hwrong s eq_refl)).
    + rewrite bool_decide_eq_false_2; [|by intros [? ?]]. done.
  - unfold CorrectMap.get_correctness, CorrectMap.init, CorrectMap.set.
    by rewrite lookup_insert_eq.
Qed.

(** The verdict is ["correct"] exactly for a present string that is one
    of the correct choices. *)
Lemma multiple_choice_correct_iff (self : t) (student_answers : gmap string answer) :
  get_score self student_answers
    = Ok (CorrectMap.init (answer_id self) "correct" None)
  <-> exists s, student_answers !! answer_id self = Some (AStr s)
                /\ s ∈ correct_choices self.
Proof.
  unfold get_score, contains, getitem.
  destruct (student_answers !! answer_id self) as [v|] eqn:Hv.
  - rewrite bool_decide_eq_true_2; [|by eexists]. simpl.
    destruct v as [s|l]; simpl.
    + unfold str_in. case_bool_decide as Hin; simpl.
      * split; [intros _; eauto|done].
      * split.
        -- intros Heq. by apply Ok_init_inj in Heq.
        -- intros (s' & Heq & Hs'). congruence.
    + split.
      * intros Heq. by apply Ok_init_inj in Heq.
      * intros (s' & Heq & _). discriminate.
  - rewrite bool_decide_eq_false_2; [|by intros [? ?]]. simpl. split.
    + intros Heq. by apply Ok_init_inj in Heq.
    + intros (s' & Heq & _). discriminate.
Qed.

End MultipleChoiceFacts.

(** The theorem at work: a wrong choice, and no submission at all. *)
Lemma multiple_choice_missing_or_wrong_witness :
  MultipleChoiceResponse.get_score mc_example {[ "q1" := AStr "choice_0" ]}
    = Ok (CorrectMap.init "q1" "incorrect" None)
  /\ MultipleChoiceResponse.get_score mc_example ∅
    = Ok (CorrectMap.init "q1" "incorrect" None).
Proof.
  split.
  - apply (multiple_choice_missing_or_wrong mc_example {[ "q1" := AStr "choice_0" ]}).
    intros s Hs. vm_compute in Hs. injection Hs as <-.
    intros Hin. apply list_elem_of_singleton in Hin. discriminate.
  - apply (multiple_choice_missing_or_wrong mc_example ∅).
    intros s Hs. vm_compute in Hs. discriminate.
Defined.

(** Scenario 1 of the spec: correct ids [{choice_1}], submission
    [choice_1]. *)
Example multiple_choice_scenario :
  MultipleChoiceResponse.get_score mc_example {[ "q1" := AStr "choice_1" ]}
    = Ok (CorrectMap.init "q1" "correct" None).
Proof. vm_compute. reflexivity. Qed.

(** ** True/False *)

Section TrueFalseFacts.
Import TrueFalseResponse.

Lemma true_false_verdict (self : t) (student_answers : gmap string answer) :
  get_score self student_answers
    = Ok (CorrectMap.init (answer_id self)
            (if bool_decide (declared self = submitted self student_answers)
             then "correct" else "incorrect") None).
Proof.
  unfold get_score, declared, submitted. by case_bool_decide.
Qed.

(** C5.  [TrueFalseResponse.get_score] returns ["correct"] exactly when
    the set of submitted choice ids equals the declared set of correct
    choices; the order of a submitted list does not matter; every strict
    subset and every strict superset of the declared set is
    ["incorrect"]. *)
Theorem true_false_set_equality
    (self : t) (student_answers : gmap string answer) :
  (get_score self student_answers
     = Ok (CorrectMap.init (answer_id self) "correct" None)
   <-> submitted self student_answers = declared self)
  /\ (forall l, student_answers !! answer_id self = Some (AList l) ->
                l ≡ₚ correct_choices self ->
                get_score self student_answers
                  = Ok (CorrectMap.init (answer_id self) "correct" None))
  /\ (submitted self student_answers ⊂ declared self ->
      get_score self student_answers
        = Ok (CorrectMap.init (answer_id self) "incorrect" None))
  /\ (declared self ⊂ submitted self student_answers ->
      get_score self student_answers
        = Ok (CorrectMap.init (answer_id self) "incorrect" None)).
Proof.
  rewrite true_false_verdict. repeat split.
  - case_bool_decide as Heq; [done|].
    intros Hbad. by apply Ok_init_inj in Hbad.
  - intros Heq. by rewrite bool_decide_eq_true_2.
  - intros l Hl Hperm. rewrite bool_decide_eq_true_2; [done|].
    unfold submitted, declared. rewrite Hl. simpl.
    apply set_eq. intros x. rewrite !elem_of_list_to_set. by rewrite Hperm.
  - intros Hsub. rewrite bool_decide_eq_false_2; [done|].
    intros Heq. rewrite Heq in Hsub. by apply (irreflexivity (⊂) _ Hsub).
  - intros Hsub. rewrite bool_decide_eq_false_2; [done|].
    intros Heq. rewrite Heq in Hsub. by apply (irreflexivity (⊂) _ Hsub).
Qed.

End TrueFalseFacts.

(** The theorem at work: the declared set in another order is correct, a
    strict subset and a strict superset are not. *)
Lemma true_false_set_equality_witness :
  TrueFalseResponse.get_score tf_example {[ "q1" := AList ["choice_2"; "choice_0"] ]}
    = Ok (CorrectMap.init "q1" "correct" None)
  /\ TrueFalseResponse.get_score tf_example {[ "q1" := AList ["choice_2"] ]}
    = Ok (CorrectMap.init "q1" "incorrect" None)
  /\ TrueFalseResponse.get_score tf_example
       {[ "q1" := AList ["choice_0"; "choice_1"; "choice_2"] ]}
    = Ok (CorrectMap.init "q1" "incorrect" None).
Proof.
  split; [|split].
  - destruct (true_false_set_equality tf_example
                {[ "q1" := AList ["choice_2"; "choice_0"] ]}) as (_ & Hperm & _).
    apply (Hperm ["choice_2"; "choice_0"]).
    + vm_compute. reflexivity.
    + apply perm_swap.
  - destruct (true_false_set_equality tf_example
                {[ "q1" := AList ["choice_2"] ]}) as (_ & _ & Hsub & _).
    apply Hsub. unfold TrueFalseResponse.submitted, TrueFalseResponse.declared.
    replace (default _ _) with (AList ["choice_2"]) by (vm_compute; reflexivity).
    apply (bool_decide_unpack _). vm_compute. exact I.
  - destruct (true_false_set_equality tf_example
                {[ "q1" := AList ["choice_0"; "choice_1"; "choice_2"] ]})
      as (_ & _ & _ & Hsup).
    apply Hsup. unfold TrueFalseResponse.submitted, TrueFalseResponse.declared.
    replace (default _ _) with (AList ["choice_0"; "choice_1"; "choice_2"])
      by (vm_compute; reflexivity).
    apply (bool_decide_unpack _). vm_compute. exact I.
Defined.

(** ** Image regions *)

Section ImageFacts.
Import ImageResponse.

Lemma inside_spec (llx lly urx ury gx gy : Z) :
  inside llx lly urx ury gx gy = true
  <-> (llx <= gx <= urx)%Z /\ (lly <= gy <= ury)%Z.
Proof.
  unfold inside. rewrite !andb_true_iff, !Z.leb_le. tauto.
Qed.

Lemma verdict_correct (llx lly urx ury gx gy : Z) :
  verdict ((llx, lly, urx, ury), (gx, gy)) = "correct"
  <-> (llx <= gx <= urx)%Z /\ (lly <= gy <= ury)%Z.
Proof.
  rewrite <- inside_spec. unfold verdict.
  destruct (inside llx lly urx ury gx gy); split; intros H; done.
Qed.

Lemma verdict_incorrect (llx lly urx ury gx gy : Z) :
  verdict ((llx, lly, urx, ury), (gx, gy)) = "incorrect"
  <-> ~ ((llx <= gx <= urx)%Z /\ (lly <= gy <= ury)%Z).
Proof.
  rewrite <- inside_spec. unfold verdict.
  destruct (inside llx lly urx ury gx gy); split; intros H; done.
Qed.

(** The patterns accept runs of digits only: the coordinates of a click
    are natural numbers. *)
Lemma number_nonneg (s rest : string) (n : Z) :
  number s = Some (n, rest) -> (0 <= n)%Z.
Proof.
  unfold number. destruct (Str.span_digits 0 0 s) as [[m [|c]] r]; [done|].
  intros [= <- _]. apply N2Z.is_nonneg.
Qed.

Lemma match_point_nonneg (s : string) (gx gy : Z) :
  match_point s = Some (gx, gy) -> (0 <= gx)%Z /\ (0 <= gy)%Z.
Proof.
  unfold match_point. intros Hm.
  destruct (one_of ["["]%char s) as [s1|]; simpl in Hm; [|done].
  destruct (number s1) as [[x s2]|] eqn:Hx; simpl in Hm; [|done].
  destruct (one_of [","]%char s2) as [s3|]; simpl in Hm; [|done].
  destruct (number s3) as [[y s4]|] eqn:Hy; simpl in Hm; [|done].
  destruct (one_of ["]"]%char s4) as [s5|]; simpl in Hm; [|done].
  injection Hm as <- <-.
  split; [by eapply number_nonneg|by eapply number_nonneg].
Qed.

(** One pass through the loop body, for a field that is well formed. *)
Lemma grade_reading (self : t) (student_answers : gmap string answer)
    (cm : CorrectMap.t) (k : string) r :
  reading self student_answers k = Some r ->
  grade self student_answers (get_answers self) cm (Some k)
    = Ok (CorrectMap.set cm k (verdict r) None).
Proof.
  unfold reading, grade, getitem. intros Hr.
  destruct (get_answers self !! Some k) as [[rect|]|]; simpl in *; try done.
  destruct (match_rectangle (normalise rect)) as [[[[llx lly] urx] ury]|];
    simpl in *; try done.
  destruct (student_answers !! k) as [[g|l]|]; simpl in *; try done.
  destruct (match_point (normalise g)) as [[gx gy]|]; simpl in *; try done.
  injection Hr as <-. simpl.
  by destruct (inside llx lly urx ury gx gy).
Qed.

(** The loop over the answer ids: it ends, touches the ids of the list
    only, and leaves for each of them the verdict of its reading. *)
Lemma loop_readings (self : t) (student_answers : gmap string answer)
    (aids : list (option string)) :
  (forall aid, aid ∈ aids ->
     exists k, aid = Some k /\ is_Some (reading self student_answers k)) ->
  forall cm, exists m,
    loop self student_answers (get_answers self) cm aids = Ok m
    /\ (forall k r, Some k ∈ aids -> reading self student_answers k = Some r ->
                    CorrectMap.get_correctness m k = Some (verdict r))
    /\ (forall k, Some k ∉ aids -> m !! k = cm !! k).
Proof.
  induction aids as [|aid rest IH]; intros Hgood cm.
  - exists cm. split; [done|]. split; [|done].
    intros k r Hin. by apply elem_of_nil in Hin.
  - destruct (Hgood aid) as (k0 & -> & [r0 Hr0]); [by left|].
    destruct (IH (fun a Ha => Hgood a (list_elem_of_further _ _ _ Ha))
                 (CorrectMap.set cm k0 (verdict r0) None))
      as (m & Hloop & Hin & Hout).
    exists m. simpl. rewrite (grade_reading _ _ _ _ _ Hr0). simpl.
    split; [exact Hloop|]. split.
    + intros k r Hk Hr.
      destruct (decide (Some k ∈ rest)) as [Hrest|Hrest]; [by apply Hin|].
      apply elem_of_cons in Hk as [[= ->]|Hk]; [|done].
      unfold CorrectMap.get_correctness. rewrite (Hout _ Hrest).
      fold (CorrectMap.get_correctness
              (CorrectMap.set cm k0 (verdict r0) None) k0).
      rewrite get_correctness_set. congruence.
    + intros k Hk. apply not_elem_of_cons in Hk as [Hne Hk].
      rewrite (Hout _ Hk). unfold CorrectMap.set.
      rewrite lookup_insert_ne; [done|congruence].
Qed.

(** C7.  [ImageResponse.get_score] marks a submitted point [[gx,gy]]
    ["correct"] exactly when [llx <= gx <= urx] and [lly <= gy <= ury] for
    the declared rectangle, and ["incorrect"] otherwise.  So every corner
    and edge point of a rectangle is correct, and every point one unit
    outside an edge is incorrect.  (Coordinates are the numbers the two
    patterns accept, runs of decimal digits.) *)
Theorem image_region_inclusive
    (self : t) (student_answers : gmap string answer) :
  (forall aid, aid ∈ answer_ids self ->
     exists k, aid = Some k /\ is_Some (reading self student_answers k)) ->
  exists m,
    get_score self student_answers = Ok m
    /\ forall k llx lly urx ury gx gy,
         Some k ∈ answer_ids self ->
         reading self student_answers k = Some ((llx, lly, urx, ury), (gx, gy)) ->
         (CorrectMap.get_correctness m k = Some "correct"
            <-> (llx <= gx <= urx)%Z /\ (lly <= gy <= ury)%Z)
         /\ (CorrectMap.get_correctness m k = Some "incorrect"
            <-> ~ ((llx <= gx <= urx)%Z /\ (lly <= gy <= ury)%Z))
         /\ ((llx <= urx)%Z -> (lly <= ury)%Z ->
               ((gx = llx \/ gx = urx) /\ (lly <= gy <= ury)%Z)
               \/ ((gy = lly \/ gy = ury) /\ (llx <= gx <= urx)%Z) ->
               CorrectMap.get_correctness m k = Some "correct")
         /\ ((gx = llx - 1 \/ gx = urx + 1 \/ gy = lly - 1 \/ gy = ury + 1)%Z ->
               CorrectMap.get_correctness m k = Some "incorrect").
Proof.
  intros Hgood. unfold get_score.
  destruct (loop_readings self student_answers (answer_ids self) Hgood CorrectMap.new)
    as (m & Hloop & Hin & _).
  exists m. split; [exact Hloop|].
  intros k llx lly urx ury gx gy Hk Hr.
  rewrite (Hin _ _ Hk Hr).
  assert (Hc : Some (verdict (llx, lly, urx, ury, (gx, gy))) = Some "correct"
               <-> (llx <= gx <= urx)%Z /\ (lly <= gy <= ury)%Z).
  { rewrite <- verdict_correct. split; congruence. }
  assert (Hi : Some (verdict (llx, lly, urx, ury, (gx, gy))) = Some "incorrect"
               <-> ~ ((llx <= gx <= urx)%Z /\ (lly <= gy <= ury)%Z)).
  { rewrite <- verdict_incorrect. split; congruence. }
  split; [exact Hc|]. split; [exact Hi|]. split.
  - intros Hx Hy Hedge. apply Hc. lia.
  - intros Hout. apply Hi. lia.
Qed.

End ImageFacts.

(** Scenario 5 of the spec: in the rectangle [(10,10)-(20,30)] the click
    [[15,20]] is correct, the corner [[20,30]] too, and [[5,20]] and
    [[21,30]] are not. *)
Lemma image_region_inclusive_witness :
  (exists m, ImageResponse.get_score image_example {[ "i1" := AStr "[15,20]" ]} = Ok m
             /\ CorrectMap.get_correctness m "i1" = Some "correct")
  /\ (exists m, ImageResponse.get_score image_example {[ "i1" := AStr "[20,30]" ]} = Ok m
             /\ CorrectMap.get_correctness m "i1" = Some "correct")
  /\ (exists m, ImageResponse.get_score image_example {[ "i1" := AStr "[5,20]" ]} = Ok m
             /\ CorrectMap.get_correctness m "i1" = Some "incorrect")
  /\ (exists m, ImageResponse.get_score image_example {[ "i1" := AStr "[21,30]" ]} = Ok m
             /\ CorrectMap.get_correctness m "i1" = Some "incorrect").
Proof.
  assert (Hgood : forall g gx gy,
            ImageResponse.reading image_example {[ "i1" := AStr g ]} "i1"
              = Some ((10, 10, 20, 30)%Z, (gx, gy)) ->
            forall aid, aid ∈ ImageResponse.answer_ids image_example ->
            exists k, aid = Some k
                      /\ is_Some (ImageResponse.reading image_example
                                                        {[ "i1" := AStr g ]} k)).
  { intros g gx gy Hr aid Haid. apply list_elem_of_singleton in Haid as ->.
    exists "i1". split; [reflexivity|]. rewrite Hr. by eexists. }
  assert (Hid : Some "i1" ∈ ImageResponse.answer_ids image_example).
  { apply list_elem_of_singleton. reflexivity. }
  repeat split.
  - assert (Hr : ImageResponse.reading image_example {[ "i1" := AStr "[15,20]" ]} "i1"
                 = Some ((10, 10, 20, 30)%Z, (15, 20)%Z)) by (vm_compute; reflexivity).
    destruct (image_region_inclusive image_example _ (Hgood _ _ _ Hr)) as (m & Hm & Hv).
    exists m. split; [exact Hm|].
    destruct (Hv _ _ _ _ _ _ _ Hid Hr) as (Hc & _). apply Hc. lia.
  - assert (Hr : ImageResponse.reading image_example {[ "i1" := AStr "[20,30]" ]} "i1"
                 = Some ((10, 10, 20, 30)%Z, (20, 30)%Z)) by (vm_compute; reflexivity).
    destruct (image_region_inclusive image_example _ (Hgood _ _ _ Hr)) as (m & Hm & Hv).
    exists m. split; [exact Hm|].
    destruct (Hv _ _ _ _ _ _ _ Hid Hr) as (_ & _ & Hedge & _). apply Hedge; lia.
  - assert (Hr : ImageResponse.reading image_example {[ "i1" := AStr "[5,20]" ]} "i1"
                 = Some ((10, 10, 20, 30)%Z, (5, 20)%Z)) by (vm_compute; reflexivity).
    destruct (image_region_inclusive image_example _ (Hgood _ _ _ Hr)) as (m & Hm & Hv).
    exists m. split; [exact Hm|].
    destruct (Hv _ _ _ _ _ _ _ Hid Hr) as (_ & Hi & _). apply Hi. lia.
  - assert (Hr : ImageResponse.reading image_example {[ "i1" := AStr "[21,30]" ]} "i1"
                 = Some ((10, 10, 20, 30)%Z, (21, 30)%Z)) by (vm_compute; reflexivity).
    destruct (image_region_inclusive image_example _ (Hgood _ _ _ Hr)) as (m & Hm & Hv).
    exists m. split; [exact Hm|].
    destruct (Hv _ _ _ _ _ _ _ Hid Hr) as (_ & _ & _ & Hout). apply Hout. lia.
Defined.

(** A click with a sign does not match the pattern of a point and is an
    error, not a verdict. *)
Example image_malformed_click :
  ImageResponse.get_score image_example {[ "i1" := AStr "[-1,20]" ]} = Raise Exception_.
Proof. vm_compute. reflexivity. Qed.

(** ** Custom responses *)

Section CustomFacts.
Context {num rng : Type} `{!Host num}.
Import CustomResponse.

(** C10.  For a custom response with exactly one answer field whose
    submitted value is empty (falsy), [get_score] marks the field
    ["incorrect"] with the message "No answer entered!" (wrapped in a red
    [font] element) and returns at once: the world is the one it started
    in, so the script context has not been updated and no checker code has
    run. *)
Theorem custom_empty_answer
    (self : t num) (student_answers : gmap string answer)
    (w : world num rng) (k : string) (a : answer) :
  answer_ids self = [k] ->
  student_answers !! k = Some a ->
  truthy a = false ->
  get_score self student_answers w
    = (Ok (CorrectMap.init k "incorrect" (Some (font_red "No answer entered!"))), w)
  /\ context (snd (get_score self student_answers w)) = context w
  /\ trace (snd (get_score self student_answers w)) = trace w.
Proof.
  intros Hids Hk Ha.
  assert (Hrun : get_score self student_answers w
                 = (Ok (CorrectMap.init k "incorrect"
                          (Some (font_red "No answer entered!"))), w)).
  { unfold get_score. rewrite Hids. simpl.
    unfold St.bind, St.try_catch, St.lift, getitem. rewrite Hk. simpl.
    rewrite Ha. reflexivity. }
  rewrite Hrun. auto.
Qed.


Lemma elem_of_insert_sorted (x y : string) (l : list string) :
  x ∈ insert_sorted y l <-> x = y \/ x ∈ l.
Proof.
  induction l as [|z l IH]; simpl.
  - rewrite list_elem_of_singleton. split; [by left|]. intros [?|Hx]; [done|].
    by apply elem_of_nil in Hx.
  - destruct (String.leb y z).
    + by rewrite elem_of_cons.
    + rewrite !elem_of_cons, IH. tauto.
Qed.

Lemma elem_of_sorted (x : string) (l : list string) : x ∈ sorted l <-> x ∈ l.
Proof.
  unfold sorted. induction l as [|y l IH]; simpl; [done|].
  by rewrite elem_of_insert_sorted, IH, elem_of_cons.
Qed.

(** Past the early return, [get_score] is [evaluate]. *)
Lemma get_score_evaluate
    (self : t num) (student_answers : gmap string answer)
    (w : world num rng) (submission : list answer) :
  mapM (getitem student_answers) (sorted (answer_ids self)) = Ok submission ->
  (forall aid a rest, sorted (answer_ids self) = [aid] ->
                      submission = a :: rest -> truthy a = true) ->
  get_score self student_answers w
    = evaluate self student_answers (sorted (answer_ids self)) submission
        ((fun k => student_answers !! (k +:+ "_dynamath"))
           <$> sorted (answer_ids self)) w.
Proof.
  intros Hsub Hfull. unfold get_score.
  unfold St.bind at 1. unfold St.try_catch, St.lift. rewrite Hsub.
  destruct (sorted (answer_ids self)) as [|aid [|aid' ids]] eqn:Hids; try done.
  destruct submission as [|a rest]; [done|].
  by rewrite (Hfull aid a rest eq_refl eq_refl).
Qed.


End CustomFacts.

(** The early return at work: one empty text line. *)
Lemma custom_empty_answer_witness :
  CustomResponse.get_score (custom_example (VFun "echo"))
    {[ "a1" := AStr EmptyString ]} Fixtures.w0
  = (Ok (CorrectMap.init "a1" "incorrect"
           (Some (CustomResponse.font_red "No answer entered!"))), Fixtures.w0).
Proof.
  destruct (custom_empty_answer (custom_example (VFun "echo"))
              {[ "a1" := AStr EmptyString ]} Fixtures.w0 "a1" (AStr EmptyString))
    as (Hrun & _); [reflexivity|reflexivity|reflexivity|exact Hrun].
Defined.

(** With a non-empty line the context is updated and the checker is
    called. *)
Example custom_nonempty_runs_checker :
  trace (snd (CustomResponse.get_score (custom_example (VFun "echo"))
                {[ "a1" := AStr "x" ]} Fixtures.w0))
    = [EvCall (VFun "echo") [VNone; VStr "x"]]
  /\ context (snd (CustomResponse.get_score (custom_example (VFun "echo"))
                     {[ "a1" := AStr "x" ]} Fixtures.w0)) !! "testdat"
    = Some (VStr "hello world").
Proof. split; vm_compute; reflexivity. Qed.



(** ** External grading *)

Section ExternalFacts.
Context {num rng : Type} `{!Host num}.
Import ExternalGrading.

Lemma admap_lookup (ad : string) :
  admap !! ad = if String.eqb ad "EXACT_ANS" then Some "correct"
                else if String.eqb ad "WRONG_FORMAT" then Some "incorrect"
                else None.
Proof.
  unfold admap, dict. simpl.
  destruct (String.eqb ad "EXACT_ANS") eqn:He.
  - apply String.eqb_eq in He as ->. by rewrite lookup_insert_ne, lookup_insert_eq.
  - apply String.eqb_neq in He.
    destruct (String.eqb ad "WRONG_FORMAT") eqn:Hw.
    + apply String.eqb_eq in Hw as ->. by rewrite lookup_insert_eq.
    + apply String.eqb_neq in Hw.
      by rewrite !lookup_insert_ne, lookup_empty by congruence.
Qed.

(** The award-detail vocabulary: two recognised codes, every other code
    (and an empty element) keeps the initial ['correct']. *)
Lemma award_vocabulary :
  award (Some "EXACT_ANS") = "correct"
  /\ award (Some "WRONG_FORMAT") = "incorrect"
  /\ award None = "correct"
  /\ forall ad, ad <> "EXACT_ANS" -> ad <> "WRONG_FORMAT" -> award (Some ad) = "correct".
Proof.
  repeat split; try reflexivity.
  intros ad He Hw. unfold award. simpl. rewrite admap_lookup.
  apply String.eqb_neq in He, Hw. by rewrite He, Hw.
Qed.

(** [set_verdict] returns a list of exactly one verdict. *)
Lemma set_verdict_singleton (ad : option string) (w : world num rng) :
  fst (set_verdict ad w) = Ok [award ad].
Proof.
  unfold set_verdict, award.
  destruct (ad ≫= (fun ad0 => admap !! ad0)) as [v|]; reflexivity.
Qed.

(** With one answer id the callback is ingested as the spec says. *)
Lemma ingest_single_field
    (rxml : Xml.element) (ad : option string) (m k : string)
    (cmap : CorrectMap.t) (w : world num rng) :
  find_text rxml "awarddetail" = Ok ad ->
  find_text rxml "message" = Ok (Some m) ->
  fst (ingest rxml [k] cmap w)
    = Ok (CorrectMap.set cmap k (award ad)
            (Some (Str.replace "&nbsp;" "&#160;" m))).
Proof.
  intros Had Hm. unfold ingest, St.bind, St.lift. rewrite Had.
  pose proof (set_verdict_singleton ad w) as Hv.
  destruct (set_verdict ad w) as [[correct|e] w1]; simpl in Hv; [|done].
  injection Hv as ->. simpl. unfold record. simpl.
  rewrite String.eqb_refl. simpl. by rewrite Hm.
Qed.

(** With two distinct answer ids the second one finds no verdict: the list
    has one element and [correct[1]] raises [IndexError]. *)
Lemma ingest_two_fields
    (rxml : Xml.element) (ad : option string) (m a b : string)
    (rest : list string) (cmap : CorrectMap.t) (w : world num rng) :
  find_text rxml "awarddetail" = Ok ad ->
  find_text rxml "message" = Ok (Some m) ->
  a <> b ->
  fst (ingest rxml (a :: b :: rest) cmap w) = Raise IndexError.
Proof.
  intros Had Hm Hab. unfold ingest, St.bind, St.lift. rewrite Had.
  pose proof (set_verdict_singleton ad w) as Hv.
  destruct (set_verdict ad w) as [[correct|e] w1]; simpl in Hv; [|done].
  injection Hv as ->. simpl. unfold record. simpl.
  rewrite String.eqb_refl. simpl. rewrite Hm. simpl.
  assert (Hba : String.eqb b a = false) by (apply String.eqb_neq; congruence).
  rewrite Hba, String.eqb_refl. reflexivity.
Qed.

(** C2, on a response with two answer fields.  Whatever award detail the
    callback carries, neither [CodeResponse.update_score] nor
    [ExternalResponse.get_score] produces a verdict: both raise
    [IndexError] at the second answer id, because the verdict list
    [context['correct']] has a single element. *)
Theorem external_grading_two_fields
    (ids : list string) (a b : string) (rest : list string)
    (rxml : Xml.element) (ad : option string) (m : string)
    (w : world num rng) :
  sorted ids = a :: b :: rest ->
  a <> b ->
  find_text rxml "awarddetail" = Ok ad ->
  find_text rxml "message" = Ok (Some m) ->
  (forall score_msg,
     etree_fromstring score_msg = Ok rxml ->
     fst (CodeResponse.update_score {| CodeResponse.answer_ids := ids |} score_msg w)
       = Raise IndexError)
  /\ (forall (self : ExternalResponse.t) student_answers submission reply,
       ExternalResponse.answer_ids self = ids ->
       mapM (getitem student_answers) (sorted ids) = Ok submission ->
       requests_post (ExternalResponse.url self)
         (Payload (etree_tostring (ExternalResponse.xml self)) "get_score"
                  (ExternalResponse.tests self) (ExternalResponse.code self)
                  [("edX_student_response", json_dumps submission)]) = Ok reply ->
       String.eqb reply EmptyString || String.eqb (Str.strip reply) EmptyString = false ->
       etree_fromstring reply = Ok rxml ->
       fst (ExternalResponse.get_score self student_answers w) = Raise IndexError).
Proof.
  intros Hids Hab Had Hm. split.
  - intros score_msg Hparse.
    unfold CodeResponse.update_score. unfold St.bind at 1.
    unfold St.try_catch, St.lift. rewrite Hparse. simpl. rewrite Hids.
    by apply ingest_two_fields with (ad := ad) (m := m).
  - intros self student_answers submission reply Hself Hsub Hpost Hblank Hparse.
    unfold ExternalResponse.get_score. rewrite Hself.
    unfold St.bind at 1. unfold St.try_catch at 1. unfold St.lift at 1.
    rewrite Hsub.
    unfold St.bind at 1. unfold St.update_context at 1.
    unfold St.bind at 1. unfold St.try_catch at 1.
    unfold St.bind at 1. unfold ExternalResponse.do_external_request.
    unfold St.bind at 1. unfold St.emit at 1.
    unfold St.bind at 1. unfold St.try_catch at 1. unfold St.lift at 1.
    rewrite Hpost, Hblank.
    unfold St.try_catch at 1. unfold St.lift at 1. rewrite Hparse.
    unfold St.ret at 1. rewrite Hids.
    by apply ingest_two_fields with (ad := ad) (m := m).
Qed.

(** With a single answer field both paths follow the vocabulary: the
    verdict is [award ad]. *)
Lemma external_grading_single_field
    (k : string) (rxml : Xml.element) (ad : option string) (m : string)
    (w : world num rng) :
  find_text rxml "awarddetail" = Ok ad ->
  find_text rxml "message" = Ok (Some m) ->
  forall score_msg,
    etree_fromstring score_msg = Ok rxml ->
    exists cm,
      fst (CodeResponse.update_score {| CodeResponse.answer_ids := [k] |} score_msg w)
        = Ok cm
      /\ CorrectMap.get_correctness cm k = Some (award ad).
Proof.
  intros Had Hm score_msg Hparse.
  unfold CodeResponse.update_score. unfold St.bind at 1.
  unfold St.try_catch, St.lift. rewrite Hparse. simpl.
  rewrite (ingest_single_field _ _ _ _ _ _ Had Hm).
  eexists. split; [reflexivity|]. apply get_correctness_set.
Qed.

End ExternalFacts.

(** The failing input: two text boxes [a1] and [a2], and a callback with
    the award detail [EXACT_ANS]. *)
Lemma external_grading_two_fields_witness :
  fst (CodeResponse.update_score (code_example ["a1"; "a2"]) "EXACT_ANS" Fixtures.w0)
    = Raise IndexError
  /\ fst (ExternalResponse.get_score (external_example ["a1"; "a2"])
            {[ "a1" := AStr "x = 1"; "a2" := AStr "y = 2" ]} Fixtures.w0)
    = Raise IndexError.
Proof.
  set (rxml := Xml.Element "edxgrade" [] None
                 [Xml.Element "awarddetail" [] (Some "EXACT_ANS") [];
                  Xml.Element "message" [] (Some "graded") []]).
  destruct (external_grading_two_fields (num := Fixtures.tnum) (rng := list Z)
              ["a1"; "a2"] "a1" "a2" [] rxml (Some "EXACT_ANS") "graded" Fixtures.w0)
    as (Hcode & Hext); [reflexivity|discriminate|reflexivity|reflexivity|].
  split.
  - apply Hcode. reflexivity.
  - apply (Hext (external_example ["a1"; "a2"]) _ [AStr "x = 1"; AStr "y = 2"] "EXACT_ANS");
      reflexivity.
Defined.

(** One text box: the three kinds of award detail. *)
Example external_grading_single_field_cases :
  (exists cm, fst (CodeResponse.update_score (code_example ["a1"]) "EXACT_ANS" Fixtures.w0) = Ok cm
              /\ CorrectMap.get_correctness cm "a1" = Some "correct")
  /\ (exists cm, fst (CodeResponse.update_score (code_example ["a1"]) "WRONG_FORMAT" Fixtures.w0) = Ok cm
              /\ CorrectMap.get_correctness cm "a1" = Some "incorrect")
  /\ (exists cm, fst (CodeResponse.update_score (code_example ["a1"]) "ANS_CMP" Fixtures.w0) = Ok cm
              /\ CorrectMap.get_correctness cm "a1" = Some "correct").
Proof.
  repeat split; eexists; split; vm_compute; reflexivity.
Qed.

(** ** The hint engine *)

Section HintFacts.
Context {num rng : Type} `{!Host num}.
Import LoncapaResponse.

(** One hint part: a matching part with a [text] child overwrites the hint
    of the last answer id, any other part changes nothing. *)
Lemma attach_step (self : t num rng) (shown : list (option string))
    (hintmode aid : string) (cm : CorrectMap.t) (hintpart : Xml.element)
    (w : world num rng) :
  last (answer_ids self) = Some aid ->
  (matches shown hintpart = true -> is_Some (Xml.find hintpart "text")) ->
  attach self (Some shown) hintmode cm hintpart w
    = (Ok (if matches shown hintpart
           then CorrectMap.set_hint_and_mode cm aid (hint_text hintpart) hintmode
           else cm), w).
Proof.
  intros Hlast Htext. unfold attach, St.bind, St.lift, name_in.
  fold (matches shown hintpart).
  destruct (matches shown hintpart); [|reflexivity].
  destruct (Htext eq_refl) as [t Ht]. unfold hint_text. rewrite Ht. simpl.
  unfold list_last. by rewrite Hlast.
Qed.

Lemma for_each_attach (self : t num rng) (shown : list (option string))
    (hintmode aid : string) (hintparts : list Xml.element) :
  last (answer_ids self) = Some aid ->
  Forall (fun hp => is_Some (Xml.find hp "text"))
         (List.filter (matches shown) hintparts) ->
  forall (cm : CorrectMap.t) (w : world num rng),
    St.for_each hintparts cm (attach self (Some shown) hintmode) w
      = (Ok (attach_all aid hintmode shown hintparts cm), w).
Proof.
  intros Hlast. induction hintparts as [|hp rest IH]; intros Htext cm w.
  - reflexivity.
  - simpl in Htext. simpl. unfold St.bind.
    rewrite (attach_step self shown hintmode aid cm hp w Hlast).
    + apply IH. destruct (matches shown hp); [|done].
      by apply Forall_cons in Htext as [_ ?].
    + intros Hm. rewrite Hm in Htext. by apply Forall_cons in Htext as [? _].
Qed.

Lemma attach_all_app (aid hintmode : string) (shown : list (option string))
    (l1 l2 : list Xml.element) (cm : CorrectMap.t) :
  attach_all aid hintmode shown (l1 ++ l2) cm
    = attach_all aid hintmode shown l2 (attach_all aid hintmode shown l1 cm).
Proof. unfold attach_all. by rewrite foldl_app. Qed.

(** Only the record of [aid] is ever written. *)
Lemma attach_all_other (aid hintmode : string) (shown : list (option string))
    (hintparts : list Xml.element) (cm : CorrectMap.t) (k : string) :
  k <> aid -> attach_all aid hintmode shown hintparts cm !! k = cm !! k.
Proof.
  intros Hk. revert cm. induction hintparts as [|hp rest IH]; intros cm; [done|].
  change (attach_all aid hintmode shown (hp :: rest) cm)
    with (attach_all aid hintmode shown rest
            (if matches shown hp
             then CorrectMap.set_hint_and_mode cm aid (hint_text hp) hintmode
             else cm)).
  rewrite IH. destruct (matches shown hp); [|done].
  unfold CorrectMap.set_hint_and_mode. by rewrite lookup_insert_ne.
Qed.

Lemma attach_all_none (aid hintmode : string) (shown : list (option string))
    (hintparts : list Xml.element) (cm : CorrectMap.t) :
  List.filter (matches shown) hintparts = [] ->
  attach_all aid hintmode shown hintparts cm = cm.
Proof.
  revert cm. induction hintparts as [|hp rest IH]; intros cm Hnone; [done|].
  simpl in Hnone.
  change (attach_all aid hintmode shown (hp :: rest) cm)
    with (attach_all aid hintmode shown rest
            (if matches shown hp
             then CorrectMap.set_hint_and_mode cm aid (hint_text hp) hintmode
             else cm)).
  destruct (matches shown hp); [done|]. by apply IH.
Qed.

(** Last write wins: the hint left on [aid] is that of the last matching
    part. *)
Lemma attach_all_last (aid hintmode : string) (shown : list (option string))
    (hintparts : list Xml.element) (cm : CorrectMap.t) (hp : Xml.element) :
  last (List.filter (matches shown) hintparts) = Some hp ->
  CorrectMap.get_hint (attach_all aid hintmode shown hintparts cm) aid = hint_text hp
  /\ CorrectMap.get_hintmode (attach_all aid hintmode shown hintparts cm) aid
     = Some hintmode.
Proof.
  induction hintparts as [|x rest IH] using rev_ind; [done|].
  rewrite List.filter_app, attach_all_app. simpl.
  unfold attach_all at 1 3. simpl.
  destruct (matches shown x).
  - rewrite last_snoc. intros [= ->].
    unfold CorrectMap.get_hint, CorrectMap.get_hintmode, CorrectMap.set_hint_and_mode.
    by rewrite !lookup_insert_eq.
  - rewrite app_nil_r. exact IH.
Qed.

(** C8.  Without a hint function, [get_hints] attaches hint text to the
    last answer id of the response and to no other: every other record of
    the map is unchanged; so when the map that comes from scoring carries
    no hint, at most one answer id carries one afterwards.  When several
    hint parts have a satisfied condition, the hint stored is that of the
    last of them in document order, with the display mode of the group. *)
Theorem get_hints_last_answer_id
    (self : t num rng) (student_answers : gmap string answer)
    (new_cmap old_cmap : CorrectMap.t) (w w1 : world num rng)
    (hintgroup : Xml.element) (tag aid : string) (shown : list (option string)) :
  Xml.find (xml self) "hintgroup" = Some hintgroup ->
  Xml.get hintgroup "hintfn" = None \/ Xml.get hintgroup "hintfn" = Some EmptyString ->
  hint_tag self = Some tag ->
  is_Some (Xml.find hintgroup tag) ->
  check_hint_condition self (Xml.findall hintgroup tag) student_answers w
    = (Ok (Some shown), w1) ->
  last (answer_ids self) = Some aid ->
  Forall (fun hp => is_Some (Xml.find hp "text"))
         (List.filter (matches shown) (Xml.findall hintgroup "hintpart")) ->
  exists m,
    get_hints self student_answers new_cmap old_cmap w = (Ok m, w1)
    /\ (forall k, k <> aid -> m !! k = new_cmap !! k)
    /\ (forall hp,
          last (List.filter (matches shown) (Xml.findall hintgroup "hintpart")) = Some hp ->
          CorrectMap.get_hint m aid = hint_text hp
          /\ CorrectMap.get_hintmode m aid
             = Some (Xml.get_default hintgroup "mode" "always"))
    /\ (List.filter (matches shown) (Xml.findall hintgroup "hintpart") = [] ->
         m = new_cmap)
    /\ ((forall k, ~ CorrectMap.carries_hint new_cmap k) ->
         forall k1 k2, CorrectMap.carries_hint m k1 -> CorrectMap.carries_hint m k2 ->
                       k1 = k2).
Proof.
  intros Hgroup Hfn Htag [h Hh] Hcond Hlast Htext.
  set (mode := Xml.get_default hintgroup "mode" "always").
  set (parts := Xml.findall hintgroup "hintpart") in *.
  exists (attach_all aid mode shown parts new_cmap).
  assert (Hother : forall k, k <> aid ->
            attach_all aid mode shown parts new_cmap !! k = new_cmap !! k).
  { intros k Hk. by apply attach_all_other. }
  split; [|split; [exact Hother|split; [|split]]].
  - unfold get_hints. rewrite Hgroup.
    assert (Hrun : (match hint_tag self with
                    | Some tag0 =>
                        match Xml.find hintgroup tag0 with
                        | Some _ =>
                            St.bind (check_hint_condition self
                                       (Xml.findall hintgroup tag0) student_answers)
                              (fun hints_to_show =>
                                 St.for_each (Xml.findall hintgroup "hintpart") new_cmap
                                   (attach self hints_to_show
                                      (Xml.get_default hintgroup "mode" "always")))
                        | None => St.ret new_cmap
                        end
                    | None => St.ret new_cmap
                    end) w = (Ok (attach_all aid mode shown parts new_cmap), w1)).
    { rewrite Htag, Hh. unfold St.bind. rewrite Hcond.
      by apply for_each_attach. }
    destruct Hfn as [-> | ->]; exact Hrun.
  - intros hp Hhp. by apply attach_all_last.
  - intros Hnone. by apply attach_all_none.
  - intros Hfresh k1 k2 H1 H2.
    assert (Honly : forall k, CorrectMap.carries_hint
                                (attach_all aid mode shown parts new_cmap) k -> k = aid).
    { intros k Hk. destruct (decide (k = aid)) as [|Hne]; [done|].
      exfalso. apply (Hfresh k).
      unfold CorrectMap.carries_hint, CorrectMap.get_hint in *.
      by rewrite <- (Hother k Hne). }
    by rewrite (Honly k1 H1), (Honly k2 H2).
Qed.

End HintFacts.

(** The hint group of [hinted_xml]: the parts on [same] are the first and
    the third, and the hint shown, on the last answer id [a2] only, is the
    text of the third. *)
Lemma get_hints_last_answer_id_witness :
  exists m,
    LoncapaResponse.get_hints hinted_example {[ "a1" := AStr "paris"; "a2" := AStr "x" ]}
      (CorrectMap.set (CorrectMap.init "a1" "incorrect" None) "a2" "incorrect" None)
      ∅ Fixtures.w0 = (Ok m, Fixtures.w0)
    /\ CorrectMap.get_hint m "a2" = Some "Names start with a capital."
    /\ CorrectMap.get_hintmode m "a2" = Some "on_request"
    /\ CorrectMap.get_hint m "a1" = None.
Proof.
  set (hg := Xml.Element "hintgroup" [("mode", "on_request")] None
       [Xml.Element "stringhint" [("answer", "paris"); ("name", "same")] None [];
        Xml.Element "hintpart" [("on", "same")] None
          [Xml.Element "text" [] (Some "Mind the capital letter.") []];
        Xml.Element "hintpart" [("on", "other")] None
          [Xml.Element "text" [] (Some "Not a city.") []];
        Xml.Element "hintpart" [("on", "same")] None
          [Xml.Element "text" [] (Some "Names start with a capital.") []]]).
  destruct (get_hints_last_answer_id hinted_example
              {[ "a1" := AStr "paris"; "a2" := AStr "x" ]}
              (CorrectMap.set (CorrectMap.init "a1" "incorrect" None) "a2" "incorrect" None)
              ∅ Fixtures.w0 Fixtures.w0 hg "stringhint" "a2" [Some "same"])
    as (m & Hm & Hother & Hlast & _).
  - reflexivity.
  - left. reflexivity.
  - reflexivity.
  - by eexists.
  - reflexivity.
  - reflexivity.
  - vm_compute. repeat constructor; by eexists.
  - exists m. split; [exact Hm|].
    destruct (Hlast (Xml.Element "hintpart" [("on", "same")] None
                       [Xml.Element "text" [] (Some "Names start with a capital.") []]))
      as (Hhint & Hmode); [vm_compute; reflexivity|].
    split; [exact Hhint|]. split; [exact Hmode|].
    unfold CorrectMap.get_hint. rewrite (Hother "a1") by discriminate.
    vm_compute. reflexivity.
Defined.

(** The hint engine on a formula response: the submission [c] matches the
    hint formula on both samples, so its hint part is shown. *)
Example formula_hint_shown :
  exists m w,
    LoncapaResponse.get_hints
      (FormulaResponse.as_response formula_example formula_xml)
      {[ "f1" := AStr "c" ]} (CorrectMap.init "f1" "incorrect" None) ∅
      (World ∅ [5; 7; 6; 8]%Z []) = (Ok m, w)
    /\ CorrectMap.get_hint m "f1" = Some "You took c for m."
    /\ CorrectMap.get_hintmode m "f1" = Some "always".
Proof.
  do 2 eexists. split; [vm_compute; reflexivity|]. split; vm_compute; reflexivity.
Qed.

(** ** Formula equivalence *)

Section FormulaFacts.
Context {num rng : Type} `{!Calc num rng} `{!Host num}.
Import FormulaResponse.

Variables (self : t) (expected : string) (given : answer).
Variable ranges : gmap string (list num).

Lemma trial_outcome (w : world num rng) :
  fst (trial self expected given ranges w)
    = outcome_of self (view self expected given ranges w).
Proof.
  unfold trial, view, St.bind, St.get_context, St.lift, St.try_catch.
  destruct (sample ranges w) as [[draws|e] w1]; simpl; [|done].
  destruct (evaluator (assign (strip_dict (context w)) draws) ∅ (AStr expected)
                      (Some (case_sensitive self))) as [r|e]; simpl; [|done].
  destruct (evaluator (assign ∅ draws) ∅ given (Some (case_sensitive self)))
    as [s|e]; simpl.
  - by destruct (isnan s || isinf s).
  - by destruct e.
Qed.

Lemma passes_outcome (w : world num rng) :
  passes self expected given ranges w
  <-> fst (trial self expected given ranges w) = Ok true.
Proof.
  rewrite trial_outcome. unfold passes. split.
  - intros (draws & r & s & -> & Hnan & Hinf & Hcmp). simpl.
    by rewrite Hnan, Hinf.
  - destruct (view self expected given ranges w) as [e|d e|d r e|d r s]; simpl;
      try done.
    + by destruct e.
    + destruct (isnan s) eqn:Hnan; [done|].
      destruct (isinf s) eqn:Hinf; [done|]. simpl.
      intros Hcmp. by exists d, r, s.
Qed.

Lemma fails_outcome (w : world num rng) :
  fails self expected given ranges w ->
  fst (trial self expected given ranges w) = Ok false.
Proof.
  rewrite trial_outcome. intros (draws & r & s & -> & Hbad). simpl.
  destruct (isnan s); [done|]. destruct (isinf s); [done|]. simpl.
  by destruct Hbad as [?|[?|?]].
Qed.

(** The loop returns ["correct"] exactly when every trial hands it
    [True]. *)
Lemma trials_correct_iff (n : nat) :
  forall w : world num rng,
    fst (trials self expected given ranges n w) = Ok "correct"
    <-> forall i, (i < n)%nat ->
          fst (trial self expected given ranges
                     (world_at self expected given ranges i w)) = Ok true.
Proof.
  induction n as [|n IH]; intros w.
  - split; [intros _ i Hi; lia|done].
  - cbn [trials]. unfold St.bind.
    destruct (trial self expected given ranges w) as [[[]|e] w1] eqn:Ht.
    + rewrite IH. split.
      * intros Hall [|i] Hi; cbn [world_at]; rewrite Ht; [done|].
        cbn [snd]. apply Hall. lia.
      * intros Hall i Hi. specialize (Hall (S i) ltac:(lia)).
        cbn [world_at] in Hall. by rewrite Ht in Hall.
    + split; [done|]. intros Hall. specialize (Hall 0%nat ltac:(lia)).
      cbn [world_at] in Hall. by rewrite Ht in Hall.
    + split; [done|]. intros Hall. specialize (Hall 0%nat ltac:(lia)).
      cbn [world_at] in Hall. by rewrite Ht in Hall.
Qed.

(** The loop ends at the first trial that does not hand it [True]: with
    ["incorrect"] when the trial returned, with its exception when it
    raised. *)
Lemma trials_first_stop (i : nat) :
  forall (n : nat) (w : world num rng),
    (i < n)%nat ->
    (forall j, (j < i)%nat ->
       fst (trial self expected given ranges
                  (world_at self expected given ranges j w)) = Ok true) ->
    fst (trial self expected given ranges
               (world_at self expected given ranges i w)) <> Ok true ->
    fst (trials self expected given ranges n w)
      = match fst (trial self expected given ranges
                         (world_at self expected given ranges i w)) with
        | Ok _ => Ok "incorrect"
        | Raise e => Raise e
        end.
Proof.
  induction i as [|i IH]; intros n w Hi Hbefore Hstop.
  - destruct n as [|n]; [lia|]. cbn [trials world_at] in *. unfold St.bind.
    destruct (trial self expected given ranges w) as [[[]|e] w1]; cbn [fst] in *; done.
  - destruct n as [|n]; [lia|]. cbn [trials]. unfold St.bind.
    pose proof (Hbefore 0%nat ltac:(lia)) as H0. cbn [world_at] in H0.
    destruct (trial self expected given ranges w) as [[[]|e] w1] eqn:Ht;
      cbn [fst] in H0; try done.
    cbn [world_at] in Hstop. rewrite Ht in Hstop. cbn [snd] in Hstop.
    rewrite (IH n w1); [cbn [world_at]; by rewrite Ht|lia| |exact Hstop].
    intros j Hj. specialize (Hbefore (S j) ltac:(lia)). cbn [world_at] in Hbefore.
    by rewrite Ht in Hbefore.
Qed.

(** C1.  [check_formula] returns ["correct"] if and only if in every one
    of the N sampled trials the student's expression evaluates, under the
    values drawn for that trial, to a finite result within tolerance of the
    result of the instructor's expression under the same values.  If in a
    trial of the run (all earlier trials have passed) the student's result
    is not finite or is outside the tolerance, the verdict is
    ["incorrect"]. *)
Theorem check_formula_verdict
    (samples : string) (n : nat) (w : world num rng) :
  parse_samples samples = Ok (n, ranges) ->
  (fst (check_formula self expected given samples w) = Ok "correct"
   <-> forall i, (i < n)%nat ->
         passes self expected given ranges
                (world_at self expected given ranges i w))
  /\ (forall i, (i < n)%nat ->
        (forall j, (j < i)%nat ->
           passes self expected given ranges
                  (world_at self expected given ranges j w)) ->
        fails self expected given ranges
              (world_at self expected given ranges i w) ->
        fst (check_formula self expected given samples w) = Ok "incorrect").
Proof.
  intros Hparse.
  assert (Hrun : check_formula self expected given samples w
                 = trials self expected given ranges n w).
  { unfold check_formula, St.bind, St.lift. by rewrite Hparse. }
  rewrite Hrun. split.
  - rewrite trials_correct_iff. split; intros Hall i Hi.
    + apply passes_outcome. by apply Hall.
    + apply passes_outcome. by apply Hall.
  - intros i Hi Hbefore Hfail. apply fails_outcome in Hfail.
    rewrite (trials_first_stop i n w Hi).
    + by rewrite Hfail.
    + intros j Hj. apply passes_outcome. by apply Hbefore.
    + by rewrite Hfail.
Qed.

(** C4, as the code has it.  In a trial of the run, an undefined-variable
    error of the student's expression becomes a [StudentInputError] that
    names the variable; an error of the instructor's expression, of this or
    any other kind, leaves [check_formula] unchanged. *)
Theorem check_formula_undefined_variable
    (samples : string) (n i : nat) (w : world num rng) :
  parse_samples samples = Ok (n, ranges) ->
  (i < n)%nat ->
  (forall j, (j < i)%nat ->
     passes self expected given ranges
            (world_at self expected given ranges j w)) ->
  (forall draws instructor_result message,
     view self expected given ranges (world_at self expected given ranges i w)
       = StudentFailed draws instructor_result (UndefinedVariable message) ->
     fst (check_formula self expected given samples w)
       = Raise (StudentInputError (message +:+ " not permitted in answer")))
  /\ (forall draws e,
       view self expected given ranges (world_at self expected given ranges i w)
         = InstructorFailed draws e ->
       fst (check_formula self expected given samples w) = Raise e).
Proof.
  intros Hparse Hi Hbefore.
  assert (Hrun : check_formula self expected given samples w
                 = trials self expected given ranges n w).
  { unfold check_formula, St.bind, St.lift. by rewrite Hparse. }
  rewrite Hrun.
  assert (Hpass : forall j, (j < i)%nat ->
            fst (trial self expected given ranges
                       (world_at self expected given ranges j w)) = Ok true).
  { intros j Hj. apply passes_outcome. by apply Hbefore. }
  split.
  - intros draws r message Hview.
    rewrite (trials_first_stop i n w Hi Hpass); rewrite trial_outcome, Hview; done.
  - intros draws e Hview.
    rewrite (trials_first_stop i n w Hi Hpass); rewrite trial_outcome, Hview; done.
Qed.

End FormulaFacts.

(** The declared answer [m] against itself is correct on all three
    samples; the submission [c] differs on the first sample and is
    incorrect. *)
Lemma check_formula_verdict_witness :
  fst (FormulaResponse.check_formula formula_example "m" (AStr "m")
         "m,c@1,2:3,4#3" formula_world) = Ok "correct"
  /\ fst (FormulaResponse.check_formula formula_example "m" (AStr "c")
            "m,c@1,2:3,4#3" formula_world) = Ok "incorrect".
Proof.
  assert (Hparse : FormulaResponse.parse_samples (num := Fixtures.tnum) "m,c@1,2:3,4#3"
                   = Ok (3%nat, formula_ranges)) by (vm_compute; reflexivity).
  split.
  - destruct (check_formula_verdict formula_example "m" (AStr "m") formula_ranges
                "m,c@1,2:3,4#3" 3 formula_world Hparse) as (Hiff & _).
    apply Hiff. intros i Hi.
    destruct i as [|[|[|i]]]; [| | |lia];
      do 3 eexists; (split; [vm_compute; reflexivity|]); repeat split;
      vm_compute; reflexivity.
  - destruct (check_formula_verdict formula_example "m" (AStr "c") formula_ranges
                "m,c@1,2:3,4#3" 3 formula_world Hparse) as (_ & Hfail).
    apply (Hfail 0%nat); [lia|intros j Hj; lia|].
    do 3 eexists. split; [vm_compute; reflexivity|].
    right. right. vm_compute. reflexivity.
Defined.

(** A submission that evaluates to infinity is incorrect as well. *)
Example check_formula_not_finite :
  fst (FormulaResponse.check_formula formula_example "m" (AStr "inf")
         "m,c@1,2:3,4#3" formula_world) = Ok "incorrect".
Proof. vm_compute. reflexivity. Qed.

(** The instructor's expression [y] uses a name that is neither sampled nor
    in the script context: the first trial fails on the instructor's side
    with an undefined-variable error, and [check_formula] raises that
    error, not a [StudentInputError]. *)
Lemma check_formula_instructor_undefined_counterexample :
  FormulaResponse.view formula_example "y" (AStr "m") formula_ranges formula_world
    = FormulaResponse.InstructorFailed [("c", Fixtures.Fin 1); ("m", Fixtures.Fin 2)]
                                       (UndefinedVariable "y")
  /\ fst (FormulaResponse.check_formula formula_example "y" (AStr "m")
            "m,c@1,2:3,4#3" formula_world) = Raise (UndefinedVariable "y")
  /\ ~ (exists message,
          fst (FormulaResponse.check_formula formula_example "y" (AStr "m")
                 "m,c@1,2:3,4#3" formula_world)
            = Raise (StudentInputError message)).
Proof.
  assert (Hrun : fst (FormulaResponse.check_formula formula_example "y" (AStr "m")
                        "m,c@1,2:3,4#3" formula_world) = Raise (UndefinedVariable "y"))
    by (vm_compute; reflexivity).
  split; [vm_compute; reflexivity|]. split; [exact Hrun|].
  intros [message Hm]. rewrite Hrun in Hm. discriminate.
Qed.

(** The amended statement at work: the name [y] in the submission, and in
    the instructor's expression. *)
Lemma check_formula_undefined_variable_witness :
  fst (FormulaResponse.check_formula formula_example "m" (AStr "y")
         "m,c@1,2:3,4#3" formula_world)
    = Raise (StudentInputError "y not permitted in answer")
  /\ fst (FormulaResponse.check_formula formula_example "y" (AStr "m")
            "m,c@1,2:3,4#3" formula_world) = Raise (UndefinedVariable "y").
Proof.
  assert (Hparse : FormulaResponse.parse_samples (num := Fixtures.tnum) "m,c@1,2:3,4#3"
                   = Ok (3%nat, formula_ranges)) by (vm_compute; reflexivity).
  split.
  - destruct (check_formula_undefined_variable formula_example "m" (AStr "y")
                formula_ranges "m,c@1,2:3,4#3" 3 0 formula_world Hparse)
      as (Hstudent & _); [lia|intros j Hj; lia|].
    apply (Hstudent [("c", Fixtures.Fin 1); ("m", Fixtures.Fin 2)] (Fixtures.Fin 2) "y").
    vm_compute. reflexivity.
  - destruct (check_formula_undefined_variable formula_example "y" (AStr "m")
                formula_ranges "m,c@1,2:3,4#3" 3 0 formula_world Hparse)
      as (_ & Hinstructor); [lia|intros j Hj; lia|].
    apply (Hinstructor [("c", Fixtures.Fin 1); ("m", Fixtures.Fin 2)]).
    vm_compute. reflexivity.
Defined.

(* ===================================================================== *)
(** * Part III.  Further properties of the code                           *)
(* ===================================================================== *)

(** ** The hint engine: what it keeps and how it fails *)

Section HintEngineFacts.
Context {num rng : Type} `{!Host num}.
Import LoncapaResponse.

Lemma set_hint_and_mode_keeps (cm : CorrectMap.t) (aid : string)
    (h : option string) (mode : string) (k : string) :
  CorrectMap.get_correctness (CorrectMap.set_hint_and_mode cm aid h mode) k
    = CorrectMap.get_correctness cm k
  /\ CorrectMap.get_msg (CorrectMap.set_hint_and_mode cm aid h mode) k
     = CorrectMap.get_msg cm k.
Proof.
  unfold CorrectMap.get_correctness, CorrectMap.get_msg, CorrectMap.set_hint_and_mode.
  destruct (decide (aid = k)) as [->|Hne].
  - rewrite lookup_insert_eq. by destruct (cm !! k).
  - by rewrite lookup_insert_ne.
Qed.

(** One hint part never touches a verdict or a message, nor the world. *)
Lemma attach_keeps (self : t num rng) (hints_to_show : option (list (option string)))
    (hintmode : string) (cm cm' : CorrectMap.t) (hintpart : Xml.element)
    (w w' : world num rng) :
  attach self hints_to_show hintmode cm hintpart w = (Ok cm', w') ->
  w' = w
  /\ forall k, CorrectMap.get_correctness cm' k = CorrectMap.get_correctness cm k
               /\ CorrectMap.get_msg cm' k = CorrectMap.get_msg cm k.
Proof.
  unfold attach, St.bind, St.lift, St.ret, St.raise.
  destruct (name_in (Xml.get hintpart "on") hints_to_show) as [[]|e]; try done.
  - destruct (Xml.find hintpart "text") as [t|]; [|done].
    destruct (list_last (answer_ids self)) as [aid|e]; [|done].
    intros [= <- <-]. split; [done|]. intros k. apply set_hint_and_mode_keeps.
  - by intros [= <- <-].
Qed.

Lemma for_each_attach_keeps (self : t num rng)
    (hints_to_show : option (list (option string))) (hintmode : string)
    (hintparts : list Xml.element) :
  forall (cm cm' : CorrectMap.t) (w w' : world num rng),
    St.for_each hintparts cm (attach self hints_to_show hintmode) w = (Ok cm', w') ->
    w' = w
    /\ forall k, CorrectMap.get_correctness cm' k = CorrectMap.get_correctness cm k
                 /\ CorrectMap.get_msg cm' k = CorrectMap.get_msg cm k.
Proof.
  induction hintparts as [|hp rest IH]; intros cm cm' w w'; simpl.
  - by intros [= <- <-].
  - unfold St.bind at 1.
    destruct (attach self hints_to_show hintmode cm hp w) as [[cm1|e] w1] eqn:Hstep;
      [|done].
    intros Hrest. apply attach_keeps in Hstep as [-> Hk1].
    apply IH in Hrest as [-> Hk2]. split; [done|].
    intros k. destruct (Hk1 k) as [<- <-]. apply Hk2.
Qed.

(** X1.  When hints are given by conditions (no hint function is
    declared), [get_hints] never changes the verdict or the message of any
    answer id: whatever map it leaves differs from the scored map in hints
    and hint modes only. *)
Theorem get_hints_keeps_verdicts
    (self : t num rng) (student_answers : gmap string answer)
    (new_cmap old_cmap m : CorrectMap.t) (w w' : world num rng) :
  (forall hintgroup, Xml.find (xml self) "hintgroup" = Some hintgroup ->
     Xml.get hintgroup "hintfn" = None
     \/ Xml.get hintgroup "hintfn" = Some EmptyString) ->
  get_hints self student_answers new_cmap old_cmap w = (Ok m, w') ->
  forall k, CorrectMap.get_correctness m k = CorrectMap.get_correctness new_cmap k
            /\ CorrectMap.get_msg m k = CorrectMap.get_msg new_cmap k.
Proof.
  intros Hnofn. unfold get_hints.
  destruct (Xml.find (xml self) "hintgroup") as [hintgroup|]; [|by intros [= <- <-]].
  assert (Hcond :
    (match hint_tag self with
     | Some tag =>
         match Xml.find hintgroup tag with
         | Some _ =>
             St.bind (check_hint_condition self (Xml.findall hintgroup tag) student_answers)
               (fun hints_to_show =>
                  St.for_each (Xml.findall hintgroup "hintpart") new_cmap
                    (attach self hints_to_show
                       (Xml.get_default hintgroup "mode" "always")))
         | None => St.ret new_cmap
         end
     | None => St.ret new_cmap
     end) w = (Ok m, w') ->
    forall k, CorrectMap.get_correctness m k = CorrectMap.get_correctness new_cmap k
              /\ CorrectMap.get_msg m k = CorrectMap.get_msg new_cmap k).
  { destruct (hint_tag self) as [tag|]; [|by intros [= <- <-]].
    destruct (Xml.find hintgroup tag); [|by intros [= <- <-]].
    unfold St.bind.
    destruct (check_hint_condition self (Xml.findall hintgroup tag) student_answers w)
      as [[shown|err] w1]; [|done].
    intros Hloop. by apply for_each_attach_keeps in Hloop as [_ ?]. }
  destruct (Hnofn hintgroup eq_refl) as [-> | ->]; exact Hcond.
Qed.

(** X2.  A hint group that names a hint function missing from the script
    context is a specification error: [get_hints] raises
    [LoncapaProblemError] and calls nothing. *)
Theorem get_hints_missing_hintfn
    (self : t num rng) (student_answers : gmap string answer)
    (new_cmap old_cmap : CorrectMap.t) (w : world num rng)
    (hintgroup : Xml.element) (hintfn : string) :
  Xml.find (xml self) "hintgroup" = Some hintgroup ->
  Xml.get hintgroup "hintfn" = Some hintfn ->
  hintfn <> EmptyString ->
  context w !! hintfn = None ->
  get_hints self student_answers new_cmap old_cmap w = (Raise LoncapaProblemError, w).
Proof.
  intros Hgroup Hfn Hne Hctx. unfold get_hints. rewrite Hgroup, Hfn.
  destruct hintfn as [|c name]; [done|].
  unfold St.bind, St.get_context. by rewrite Hctx.
Qed.

(** X3.  Whatever exception a hint function raises, [get_hints] turns it
    into a [ResponseError]; the call is on the trace and the script context
    is as the function left it. *)
Theorem get_hints_hintfn_raises
    (self : t num rng) (student_answers : gmap string answer)
    (new_cmap old_cmap : CorrectMap.t) (w : world num rng)
    (hintgroup : Xml.element) (hintfn : string) (fn : pyval num)
    (e : exn) (c : gmap string (pyval num)) :
  Xml.find (xml self) "hintgroup" = Some hintgroup ->
  Xml.get hintgroup "hintfn" = Some hintfn ->
  hintfn <> EmptyString ->
  context w !! hintfn = Some fn ->
  call_hintfn fn (answer_ids self) student_answers new_cmap old_cmap (context w)
    = (Raise e, c) ->
  get_hints self student_answers new_cmap old_cmap w
    = (Raise ResponseError,
       World c (random_state w)
             (trace w ++ [EvCall fn [VList (VStr <$> answer_ids self);
                                     VAnswers student_answers]])).
Proof.
  intros Hgroup Hfn Hne Hctx Hcall. unfold get_hints. rewrite Hgroup, Hfn.
  destruct hintfn as [|ch name]; [done|].
  unfold St.bind at 1. unfold St.get_context. rewrite Hctx.
  unfold St.try_catch, run_hintfn, St.bind, St.emit. simpl.
  by rewrite Hcall.
Qed.

(** X4.  A variant that declares a hint tag but inherits
    [check_hint_condition] from the base class (its result is [None])
    cannot show conditional hints: as soon as the hint group has a stanza
    with that tag and one hint part, [get_hints] raises [TypeError]. *)
Theorem get_hints_inherited_condition
    (self : t num rng) (student_answers : gmap string answer)
    (new_cmap old_cmap : CorrectMap.t) (w : world num rng)
    (hintgroup : Xml.element) (tag : string)
    (hintpart : Xml.element) (rest : list Xml.element) :
  check_hint_condition self = base_check_hint_condition ->
  Xml.find (xml self) "hintgroup" = Some hintgroup ->
  Xml.get hintgroup "hintfn" = None ->
  hint_tag self = Some tag ->
  is_Some (Xml.find hintgroup tag) ->
  Xml.findall hintgroup "hintpart" = hintpart :: rest ->
  get_hints self student_answers new_cmap old_cmap w = (Raise TypeError, w).
Proof.
  intros Hbase Hgroup Hfn Htag [h Hh] Hparts. unfold get_hints.
  rewrite Hgroup, Hfn, Htag, Hh, Hbase, Hparts. reflexivity.
Qed.

(** X5.  For a response without a hint group, [evaluate_answers] is
    [get_score]: same map, same world. *)
Theorem evaluate_answers_without_hintgroup
    (self : t num rng)
    (get_score : gmap string answer -> St.M num rng CorrectMap.t)
    (student_answers : gmap string answer) (old_cmap : CorrectMap.t)
    (w : world num rng) :
  Xml.find (xml self) "hintgroup" = None ->
  evaluate_answers self get_score student_answers old_cmap w
    = get_score student_answers w.
Proof.
  intros Hnone. unfold evaluate_answers, St.bind, get_hints. rewrite Hnone.
  by destruct (get_score student_answers w) as [[cm|e] w1].
Qed.

End HintEngineFacts.

(** X1 at work on [hinted_example]: the hint lands on [a2], both verdicts
    stay. *)
Lemma get_hints_keeps_verdicts_witness :
  exists m w',
    LoncapaResponse.get_hints hinted_example {[ "a1" := AStr "paris"; "a2" := AStr "x" ]}
      (CorrectMap.set (CorrectMap.init "a1" "incorrect" None) "a2" "correct" None)
      ∅ Fixtures.w0 = (Ok m, w')
    /\ CorrectMap.get_correctness m "a1" = Some "incorrect"
    /\ CorrectMap.get_correctness m "a2" = Some "correct"
    /\ CorrectMap.get_hint m "a2" = Some "Names start with a capital.".
Proof.
  destruct (LoncapaResponse.get_hints hinted_example
              {[ "a1" := AStr "paris"; "a2" := AStr "x" ]}
              (CorrectMap.set (CorrectMap.init "a1" "incorrect" None) "a2" "correct" None)
              ∅ Fixtures.w0) as [[m|e] w'] eqn:Hrun.
  - exists m, w'. split; [reflexivity|].
    assert (Hnofn : forall hintgroup,
              Xml.find (LoncapaResponse.xml hinted_example) "hintgroup" = Some hintgroup ->
              Xml.get hintgroup "hintfn" = None
              \/ Xml.get hintgroup "hintfn" = Some EmptyString).
    { intros hg Hhg. vm_compute in Hhg. injection Hhg as <-. left. reflexivity. }
    pose proof (get_hints_keeps_verdicts hinted_example _ _ _ m Fixtures.w0 w' Hnofn Hrun)
      as Hkeep.
    split; [|split].
    + destruct (Hkeep "a1") as [-> _]. vm_compute. reflexivity.
    + destruct (Hkeep "a2") as [-> _]. vm_compute. reflexivity.
    + vm_compute in Hrun. injection Hrun as <- _. vm_compute. reflexivity.
  - vm_compute in Hrun. discriminate.
Defined.

(** X2 at work: the hint group names [myhint], the context is empty. *)
Lemma get_hints_missing_hintfn_witness :
  LoncapaResponse.get_hints (hintfn_example "myhint") {[ "a1" := AStr "x" ]}
    (CorrectMap.init "a1" "incorrect" None) ∅ Fixtures.w0
  = (Raise LoncapaProblemError, Fixtures.w0).
Proof.
  apply (get_hints_missing_hintfn (hintfn_example "myhint") _ _ _ Fixtures.w0
           (Xml.Element "hintgroup" [("hintfn", "myhint")] None []) "myhint");
    [reflexivity|reflexivity|discriminate|reflexivity].
Defined.

(** X3 at work: the hint function divides by zero. *)
Lemma get_hints_hintfn_raises_witness :
  fst (LoncapaResponse.get_hints (Host0 := failing_hint_host)
         (hintfn_example "myhint") {[ "a1" := AStr "x" ]}
         (CorrectMap.init "a1" "incorrect" None) ∅
         (World {[ "myhint" := VFun "myhint" ]} [] []))
  = Raise ResponseError.
Proof.
  rewrite (get_hints_hintfn_raises (Host0 := failing_hint_host)
             (hintfn_example "myhint") {[ "a1" := AStr "x" ]}
             (CorrectMap.init "a1" "incorrect" None) ∅
             (World {[ "myhint" := VFun "myhint" ]} [] [])
             (Xml.Element "hintgroup" [("hintfn", "myhint")] None []) "myhint"
             (VFun "myhint") (LibraryError "ZeroDivisionError")
             {[ "myhint" := VFun "myhint" ]});
    [reflexivity|reflexivity|reflexivity|discriminate|reflexivity|reflexivity].
Defined.

(** X4 at work: a numerical response with a [numericalhint]. *)
Lemma get_hints_inherited_condition_witness :
  LoncapaResponse.get_hints numerical_hinted_example {[ "n1" := AStr "5" ]}
    (CorrectMap.init "n1" "incorrect" None) ∅ Fixtures.w0
  = (Raise TypeError, Fixtures.w0).
Proof.
  apply (get_hints_inherited_condition numerical_hinted_example _ _ _ Fixtures.w0
           (Xml.Element "hintgroup" [] None
              [Xml.Element "numericalhint" [("answer", "5"); ("name", "off")] None [];
               Xml.Element "hintpart" [("on", "off")] None
                 [Xml.Element "text" [] (Some "Off by one.") []]])
           "numericalhint"
           (Xml.Element "hintpart" [("on", "off")] None
              [Xml.Element "text" [] (Some "Off by one.") []]) []);
    try reflexivity.
  by eexists.
Defined.

(** X5 at work on the multiple-choice problem. *)
Lemma evaluate_answers_without_hintgroup_witness :
  LoncapaResponse.evaluate_answers mc_response
    (fun sa => St.lift (MultipleChoiceResponse.get_score mc_example sa))
    {[ "q1" := AStr "choice_1" ]} ∅ Fixtures.w0
  = (Ok (CorrectMap.init "q1" "correct" None), Fixtures.w0).
Proof.
  rewrite (evaluate_answers_without_hintgroup mc_response); [|reflexivity].
  vm_compute. reflexivity.
Defined.

(** ** Numerical responses: how they fail *)

Section NumericalFacts.
Context {num rng : Type} `{!Calc num rng}.
Import NumericalResponse.

(** X6.  [NumericalResponse.get_score] lets no error of the evaluator, of
    [complex] or of the comparison escape: it raises [KeyError] when the
    answer id is missing from the student answers and nothing but the
    [StudentInputError] with the text "Invalid input -- please use a number
    only" otherwise. *)
Theorem numerical_get_score_errors
    (self : t) (student_answers : gmap string answer) (e : exn) :
  get_score self student_answers = Raise e ->
  (student_answers !! answer_id self = None /\ e = KeyError (answer_id self))
  \/ (is_Some (student_answers !! answer_id self)
      /\ e = StudentInputError "Invalid input -- please use a number only").
Proof.
  unfold get_score, getitem.
  destruct (student_answers !! answer_id self) as [a|]; simpl.
  - intros Hraise. right. split; [by eexists|].
    unfold try_except in Hraise.
    destruct (evaluator ∅ ∅ a None ≫= _) as [[]|e0]; simpl in Hraise;
      try discriminate. by injection Hraise as <-.
  - intros [= <-]. by left.
Qed.

(** X7.  When the declared answer of the problem is not a number that
    [complex] can read, every submission, right or wrong, is answered with
    the [StudentInputError] "Invalid input": the author's mistake is
    reported to the learner as an input error. *)
Theorem numerical_unreadable_declared_answer
    (self : t) (student_answers : gmap string answer) (a : answer) (e : exn) :
  complex (correct_answer self) = Raise e ->
  student_answers !! answer_id self = Some a ->
  get_score self student_answers
    = Raise (StudentInputError "Invalid input -- please use a number only").
Proof.
  intros Hdecl Ha. unfold get_score, getitem. rewrite Ha. simpl.
  destruct (evaluator ∅ ∅ a None) as [given|e0]; simpl; [|done].
  by rewrite Hdecl.
Qed.

End NumericalFacts.

(** X6 at work: no answer for [n1], and an answer that is no expression. *)
Lemma numerical_get_score_errors_witness :
  NumericalResponse.get_score (rng := list Z) (numerical_example "4") ∅
    = Raise (KeyError "n1")
  /\ NumericalResponse.get_score (rng := list Z) (numerical_example "4")
       {[ "n1" := AStr "1/0" ]}
     = Raise (StudentInputError "Invalid input -- please use a number only").
Proof.
  split.
  - destruct (NumericalResponse.get_score (rng := list Z) (numerical_example "4") ∅)
      as [cm|e] eqn:Hrun; [vm_compute in Hrun; discriminate|].
    destruct (numerical_get_score_errors (numerical_example "4") ∅ e Hrun)
      as [[_ ->]|[[a Ha] _]]; [reflexivity|].
    vm_compute in Ha. discriminate.
  - destruct (NumericalResponse.get_score (rng := list Z) (numerical_example "4")
                {[ "n1" := AStr "1/0" ]}) as [cm|e] eqn:Hrun;
      [vm_compute in Hrun; discriminate|].
    destruct (numerical_get_score_errors (numerical_example "4") _ e Hrun)
      as [[Ha _]|[_ ->]]; [|reflexivity].
    vm_compute in Ha. discriminate.
Defined.

(** X7 at work: the declared answer is [four], the submission is [4]. *)
Lemma numerical_unreadable_declared_answer_witness :
  NumericalResponse.get_score (rng := list Z) (numerical_example "four")
    {[ "n1" := AStr "4" ]}
  = Raise (StudentInputError "Invalid input -- please use a number only").
Proof.
  apply (numerical_unreadable_declared_answer (rng := list Z)
           (numerical_example "four") _ (AStr "4") ValueError); reflexivity.
Defined.

(** ** Formula responses: sample counts and hint conditions *)

Section FormulaMoreFacts.
Context {num rng : Type} `{!Calc num rng} `{!Host num}.
Import FormulaResponse.

(** X8.  With a sample count of zero (or below) [check_formula] runs no
    trial: every submission, whatever it is, is ["correct"], nothing is
    drawn and nothing is evaluated. *)
Theorem check_formula_no_samples
    (self : t) (expected samples : string) (given : answer)
    (ranges : gmap string (list num)) (w : world num rng) :
  parse_samples samples = Ok (0%nat, ranges) ->
  check_formula self expected given samples w = (Ok "correct", w).
Proof.
  intros Hparse. unfold check_formula, St.bind, St.lift. by rewrite Hparse.
Qed.

(** Inside [check_hint_condition] a check that fails counts as a
    mismatch. *)
Lemma hint_check_total (self : t) (correct_answer : string) (given : answer)
    (samples : option string) (w : world num rng) :
  exists correctness w',
    St.try_catch
      (match samples with
       | Some s => check_formula self correct_answer given s
       | None => St.raise AttributeError
       end)
      (fun _ => St.ret "incorrect") w = (Ok correctness, w').
Proof.
  unfold St.try_catch.
  destruct (match samples with
            | Some s => check_formula self correct_answer given s
            | None => St.raise AttributeError
            end w) as [[v|e] w']; eauto.
Qed.

(** X9.  Once the submission is there and the answers of the hint stanzas
    can be contextualized, [FormulaResponse.check_hint_condition] cannot
    fail: a stanza whose samples are missing or malformed, or whose check
    raises for any reason, is skipped.  The names it returns are names of
    the stanzas it was given. *)
Theorem formula_check_hint_condition_total
    (self : t) (hxml_set : list Xml.element)
    (student_answers : gmap string answer) (given : answer) (w : world num rng) :
  student_answers !! answer_id self = Some given ->
  (forall hxml ctx, hxml ∈ hxml_set ->
     exists text, contextualize_text (Xml.get hxml "answer") ctx = Ok text) ->
  exists names w',
    check_hint_condition self hxml_set student_answers w = (Ok names, w')
    /\ forall name, name ∈ names ->
         exists hxml, hxml ∈ hxml_set /\ Xml.get hxml "name" = name.
Proof.
  intros Hgiven Htext. unfold check_hint_condition, St.bind at 1, St.lift, getitem.
  rewrite Hgiven.
  assert (Hloop : forall (l : list Xml.element) (acc : list (option string))
                         (w0 : world num rng),
            (forall hxml, hxml ∈ l -> hxml ∈ hxml_set) ->
            exists names w',
              St.for_each l acc
                (fun hints_to_show hxml =>
                   St.bind St.get_context (fun ctx =>
                   St.bind (fun w1 => (contextualize_text (Xml.get hxml "answer") ctx, w1))
                     (fun correct_answer =>
                   St.bind
                     (St.try_catch
                        (match Xml.get hxml "samples" with
                         | Some s => check_formula self correct_answer given s
                         | None => St.raise AttributeError
                         end)
                        (fun _ => St.ret "incorrect"))
                     (fun correctness =>
                        if String.eqb correctness "correct"
                        then St.ret (hints_to_show ++ [Xml.get hxml "name"])%list
                        else St.ret hints_to_show)))) w0 = (Ok names, w')
              /\ forall name, name ∈ names ->
                   name ∈ acc \/ exists hxml, hxml ∈ l /\ Xml.get hxml "name" = name).
  { induction l as [|hxml rest IH]; intros acc w0 Hsub.
    - exists acc, w0. split; [reflexivity|]. intros name Hin. by left.
    - cbn [St.for_each]. unfold St.bind at 1. unfold St.bind at 1.
      unfold St.get_context at 1. unfold St.bind at 1.
      destruct (Htext hxml (context w0) (Hsub hxml ltac:(by left))) as [text Ht].
      rewrite Ht. unfold St.bind at 1.
      destruct (hint_check_total self text given (Xml.get hxml "samples") w0)
        as (correctness & w1 & Hcheck).
      rewrite Hcheck.
      destruct (String.eqb correctness "correct").
      + destruct (IH (acc ++ [Xml.get hxml "name"])%list w1
                     (fun h Hh => Hsub h (list_elem_of_further _ _ _ Hh)))
          as (names & w' & Hrun & Hnames).
        exists names, w'. split; [exact Hrun|].
        intros name Hin. destruct (Hnames name Hin) as [Hacc|(h & Hh & Hn)].
        * apply elem_of_app in Hacc as [Hacc|Hacc]; [by left|].
          apply list_elem_of_singleton in Hacc as ->.
          right. exists hxml. split; [by left|done].
        * right. exists h. split; [by right|done].
      + destruct (IH acc w1 (fun h Hh => Hsub h (list_elem_of_further _ _ _ Hh)))
          as (names & w' & Hrun & Hnames).
        exists names, w'. split; [exact Hrun|].
        intros name Hin. destruct (Hnames name Hin) as [Hacc|(h & Hh & Hn)];
          [by left|].
        right. exists h. split; [by right|done]. }
  destruct (Hloop hxml_set [] w (fun h Hh => Hh)) as (names & w' & Hrun & Hnames).
  exists names, w'. split; [exact Hrun|].
  intros name Hin. destruct (Hnames name Hin) as [Hacc|Hex]; [|exact Hex].
  by apply elem_of_nil in Hacc.
Qed.

End FormulaMoreFacts.

(** X8 at work: a count of 0 and a count of -2; the submission is not even
    an expression. *)
Lemma check_formula_no_samples_witness :
  FormulaResponse.check_formula formula_example "m" (AStr "1/0") "m,c@1,2:3,4#0"
    formula_world = (Ok "correct", formula_world)
  /\ FormulaResponse.check_formula formula_example "m" (AStr "1/0") "m,c@1,2:3,4#-2"
       formula_world = (Ok "correct", formula_world).
Proof.
  split.
  - apply (check_formula_no_samples formula_example "m" "m,c@1,2:3,4#0" (AStr "1/0")
             formula_ranges formula_world).
    vm_compute. reflexivity.
  - apply (check_formula_no_samples formula_example "m" "m,c@1,2:3,4#-2" (AStr "1/0")
             formula_ranges formula_world).
    vm_compute. reflexivity.
Defined.

(** X9 at work: of the three stanzas of [formula_hint_stanzas] only the
    first can be checked; the submission [c] matches it. *)
Lemma formula_check_hint_condition_total_witness :
  fst (FormulaResponse.check_hint_condition formula_example formula_hint_stanzas
         {[ "f1" := AStr "c" ]} formula_world)
  = Ok [Some "swapped"].
Proof.
  destruct (formula_check_hint_condition_total formula_example formula_hint_stanzas
              {[ "f1" := AStr "c" ]} (AStr "c") formula_world)
    as (names & w' & Hrun & _).
  - reflexivity.
  - intros hxml ctx Hin.
    repeat (apply elem_of_cons in Hin as [->|Hin]; [by eexists|]).
    by apply elem_of_nil in Hin.
  - rewrite Hrun. simpl. vm_compute in Hrun. by injection Hrun as <- _.
Defined.

(** ** Custom responses: the other paths of [get_score] *)

Section CustomMoreFacts.
Context {num rng : Type} `{!Host num}.
Import CustomResponse.

Lemma mapM_getitem_missing (student_answers : gmap string answer)
    (l : list string) (k : string) :
  k ∈ l -> student_answers !! k = None ->
  exists k', mapM (getitem student_answers) l = Raise (KeyError k').
Proof.
  induction l as [|x l IH]; intros Hin Hk; [by apply elem_of_nil in Hin|].
  cbn [mapM]. destruct (getitem student_answers x) as [v|e] eqn:Hg; simpl.
  - apply elem_of_cons in Hin as [->|Hin].
    + unfold getitem in Hg. rewrite Hk in Hg. discriminate.
    + destruct (IH Hin Hk) as [k' ->]. by eexists.
  - unfold getitem in Hg. destruct (student_answers !! x); [done|].
    injection Hg as <-. by eexists.
Qed.

(** X10.  When the value of one of its answer ids is missing from the
    student answers, [CustomResponse.get_score] raises a plain
    [Exception] before it touches anything: the script context is not
    updated and no checker runs. *)
Theorem custom_missing_answer
    (self : t num) (student_answers : gmap string answer)
    (w : world num rng) (k : string) :
  k ∈ answer_ids self ->
  student_answers !! k = None ->
  get_score self student_answers w = (Raise Exception_, w).
Proof.
  intros Hin Hk. unfold get_score, St.bind, St.try_catch, St.lift.
  destruct (mapM_getitem_missing student_answers (sorted (answer_ids self)) k)
    as [k' ->]; [by apply elem_of_sorted|done|done].
Qed.









(** X13.  An exception of a checker function, or of its call (wrong
    arity, a value that is not callable), is not swallowed: whatever it is,
    [get_score] raises a plain [Exception]. *)
Theorem custom_checker_raises
    (self : t num) (student_answers : gmap string answer)
    (w w' : world num rng) (submission : list answer) (e : exn) :
  (forall s, code self <> VStr s) ->
  mapM (getitem student_answers) (sorted (answer_ids self)) = Ok submission ->
  (forall aid a rest, sorted (answer_ids self) = [aid] ->
                      submission = a :: rest -> truthy a = true) ->
  call_checker self (code self) student_answers (sorted (answer_ids self)) submission
    (checker_world self student_answers (sorted (answer_ids self)) submission w)
    = (Raise e, w') ->
  get_score self student_answers w = (Raise Exception_, w').
Proof.
  intros Hfn Hsub Hfull Hcall.
  rewrite (get_score_evaluate _ _ _ _ Hsub Hfull).
  set (idset := sorted (answer_ids self)) in *.
  unfold evaluate. unfold St.bind at 1 2, St.update_context.
  cbn [fst snd context random_state trace].
  change (World _ _ _) with (checker_world self student_answers idset submission w).
  assert (Hrf : run_function self (code self) student_answers idset submission
                  (replicate (length idset) EmptyString)
                  (checker_world self student_answers idset submission w)
                = (Raise Exception_, w')).
  { unfold run_function. unfold St.bind at 1. unfold St.try_catch.
    by rewrite Hcall. }
  unfold St.bind at 1.
  destruct (code self) eqn:Hc; try (by rewrite Hrf).
  by destruct (Hfn s).
Qed.


End CustomMoreFacts.

(** X10 at work: two text lines, one answer. *)
Lemma custom_missing_answer_witness :
  CustomResponse.get_score (custom_pair (VFun "echo")) {[ "b1" := AStr "x" ]} Fixtures.w0
  = (Raise Exception_, Fixtures.w0).
Proof.
  apply (custom_missing_answer (custom_pair (VFun "echo")) _ Fixtures.w0 "b2").
  - apply elem_of_cons. by left.
  - reflexivity.
Defined.



(** X13 at work: the context value [other] is no function the host
    knows. *)
Lemma custom_checker_raises_witness :
  fst (CustomResponse.get_score (custom_example (VFun "other"))
         {[ "a1" := AStr "x" ]} Fixtures.w0) = Raise Exception_.
Proof.
  set (self := custom_example (VFun "other")).
  set (sa := {[ "a1" := AStr "x" ]} : gmap string answer).
  set (called := CustomResponse.call_checker self (CustomResponse.code self) sa
                   (sorted (CustomResponse.answer_ids self)) [AStr "x"]
                   (CustomResponse.checker_world self sa
                      (sorted (CustomResponse.answer_ids self)) [AStr "x"]
                      Fixtures.w0)).
  assert (Hcall : called = (Raise TypeError, snd called)).
  { rewrite (surjective_pairing called) at 1. f_equal. }
  rewrite (custom_checker_raises self sa Fixtures.w0 (snd called) [AStr "x"] TypeError);
    [reflexivity| | | |exact Hcall].
  - intros s. discriminate.
  - vm_compute. reflexivity.
  - intros aid a rest _ [= <- _]. reflexivity.
Defined.


(** ** External grading: requests that fail, replies that are malformed *)

Section ExternalMoreFacts.
Context {num rng : Type} `{!Host num}.
Import ExternalGrading.

Lemma do_external_request_cases
    (self : ExternalResponse.t) (cmd : string)
    (extra_payload : list (string * string)) (w : world num rng) :
  ExternalResponse.do_external_request self cmd extra_payload w
    = (match requests_post (ExternalResponse.url self)
               (Payload (etree_tostring (ExternalResponse.xml self)) cmd
                        (ExternalResponse.tests self) (ExternalResponse.code self)
                        extra_payload) with
       | Raise _ => Raise Exception_
       | Ok text =>
           if String.eqb text EmptyString || String.eqb (Str.strip text) EmptyString
           then Raise Exception_
           else match etree_fromstring text with
                | Ok rxml => Ok rxml
                | Raise _ => Raise Exception_
                end
       end,
       World (context w) (random_state w)
             (trace w ++ [EvPost (ExternalResponse.url self) cmd])%list).
Proof.
  unfold ExternalResponse.do_external_request, St.bind, St.emit, St.try_catch, St.lift.
  destruct (requests_post _ _) as [text|e]; [|reflexivity].
  destruct (String.eqb text EmptyString || String.eqb (Str.strip text) EmptyString);
    [reflexivity|].
  by destruct (etree_fromstring text).
Qed.

(** X15.  [do_external_request] posts once and returns the parsed reply
    when the server answers with text that is not blank and parses; a
    connection error, an empty or blank reply and a reply that does not
    parse all end in a plain [Exception]. *)
Theorem do_external_request_outcomes
    (self : ExternalResponse.t) (cmd : string)
    (extra_payload : list (string * string)) (w : world num rng) :
  let payload := Payload (etree_tostring (ExternalResponse.xml self)) cmd
                         (ExternalResponse.tests self) (ExternalResponse.code self)
                         extra_payload in
  let posted := World (context w) (random_state w)
                      (trace w ++ [EvPost (ExternalResponse.url self) cmd])%list in
  (forall text rxml,
     requests_post (ExternalResponse.url self) payload = Ok text ->
     Str.strip text <> EmptyString ->
     etree_fromstring text = Ok rxml ->
     ExternalResponse.do_external_request self cmd extra_payload w = (Ok rxml, posted))
  /\ ((exists e, requests_post (ExternalResponse.url self) payload = Raise e)
      \/ (exists text, requests_post (ExternalResponse.url self) payload = Ok text
                       /\ Str.strip text = EmptyString)
      \/ (exists text e, requests_post (ExternalResponse.url self) payload = Ok text
                         /\ etree_fromstring text = Raise e) ->
      ExternalResponse.do_external_request self cmd extra_payload w
        = (Raise Exception_, posted)).
Proof.
  intros payload posted. rewrite do_external_request_cases.
  fold payload. fold posted. split.
  - intros text rxml Hpost Hblank Hparse. rewrite Hpost.
    assert (Hne : String.eqb text EmptyString || String.eqb (Str.strip text) EmptyString
                  = false).
    { apply orb_false_intro; apply String.eqb_neq; [|done].
      intros ->. by apply Hblank. }
    by rewrite Hne, Hparse.
  - intros [[e Hpost]|[(text & Hpost & Hblank)|(text & e & Hpost & Hparse)]].
    + by rewrite Hpost.
    + rewrite Hpost, Hblank. by rewrite String.eqb_refl, orb_true_r.
    + rewrite Hpost, Hparse.
      by destruct (String.eqb text EmptyString || String.eqb (Str.strip text) EmptyString).
Qed.

Lemma dict_constant_lookup (c : string) (l : list string) :
  forall (m0 : gmap string string) (k : string),
    foldl (fun m p => <[p.1 := p.2]> m) m0 (zip l (replicate (length l) c)) !! k
      = if bool_decide (k ∈ l) then Some c else m0 !! k.
Proof.
  induction l as [|x l IH]; intros m0 k.
  - case_bool_decide as Hin; [by apply elem_of_nil in Hin|done].
  - cbn [length replicate zip zip_with foldl]. rewrite IH.
    destruct (decide (k ∈ l)) as [Hin|Hout].
    + rewrite !bool_decide_eq_true_2; [done|by right|done].
    + rewrite (bool_decide_eq_false_2 (k ∈ l)) by done. simpl.
      destruct (decide (k = x)) as [->|Hne].
      * rewrite lookup_insert_eq. rewrite bool_decide_eq_true_2; [done|by left].
      * rewrite lookup_insert_ne by done.
        rewrite bool_decide_eq_false_2; [done|].
        intros Hin. apply elem_of_cons in Hin as [?|?]; done.
Qed.

(** The world in which [ExternalResponse.get_score] sends its request. *)
Lemma external_get_score_failure
    (self : ExternalResponse.t) (student_answers : gmap string answer)
    (w w2 : world num rng) (submission : list answer) (e : exn) :
  mapM (getitem student_answers) (sorted (ExternalResponse.answer_ids self))
    = Ok submission ->
  ExternalResponse.do_external_request self "get_score"
    [("edX_student_response", json_dumps submission)]
    (World (<["submission" := VList (of_answer <$> submission)]> (context w))
           (random_state w) (trace w)) = (Raise e, w2) ->
  ExternalResponse.get_score self student_answers w
    = if ExternalResponse.debug self
      then match list_getitem (ExternalResponse.answer_ids self) 0 with
           | Ok first_id =>
               (Ok (CorrectMap.set_msg
                      (CorrectMap.set_dict CorrectMap.new
                         (dict (zip (sorted (ExternalResponse.answer_ids self))
                                    (replicate
                                       (length (sorted (ExternalResponse.answer_ids self)))
                                       "incorrect"))))
                      first_id
                      (ExternalResponse.font_error
                         (Str.replace "<" "&lt;" (str_of_exn e)))), w2)
           | Raise e' => (Raise e', w2)
           end
      else (Raise NameError, w2).
Proof.
  intros Hsub Hreq. unfold ExternalResponse.get_score.
  unfold St.bind at 1. unfold St.try_catch at 1. unfold St.lift at 1. rewrite Hsub.
  unfold St.bind at 1. unfold St.update_context at 1. simpl foldl.
  unfold St.bind at 1. unfold St.try_catch at 1. unfold St.bind at 1.
  rewrite Hreq.
  destruct (ExternalResponse.debug self); [|reflexivity].
  unfold St.bind, St.lift.
  by destruct (list_getitem (ExternalResponse.answer_ids self) 0).
Qed.

(** X16.  In debug mode a request that fails does not fail the grading:
    every answer id is marked ["incorrect"], and the text of the error, in
    a red [font] element, is the message of the first answer id. *)
Theorem external_failure_in_debug_mode
    (self : ExternalResponse.t) (student_answers : gmap string answer)
    (w w2 : world num rng) (submission : list answer) (e : exn)
    (first_id : string) (others : list string) :
  ExternalResponse.debug self = true ->
  ExternalResponse.answer_ids self = first_id :: others ->
  mapM (getitem student_answers) (sorted (ExternalResponse.answer_ids self))
    = Ok submission ->
  ExternalResponse.do_external_request self "get_score"
    [("edX_student_response", json_dumps submission)]
    (World (<["submission" := VList (of_answer <$> submission)]> (context w))
           (random_state w) (trace w)) = (Raise e, w2) ->
  exists m,
    ExternalResponse.get_score self student_answers w = (Ok m, w2)
    /\ (forall k, k ∈ ExternalResponse.answer_ids self ->
          CorrectMap.get_correctness m k = Some "incorrect")
    /\ CorrectMap.get_msg m first_id
       = Some (ExternalResponse.font_error (Str.replace "<" "&lt;" (str_of_exn e))).
Proof.
  intros Hdebug Hids Hsub Hreq.
  pose proof (external_get_score_failure self student_answers w w2 submission e
                Hsub Hreq) as Hrun.
  assert (Hfirst : list_getitem (ExternalResponse.answer_ids self) 0 = Ok first_id)
    by (by rewrite Hids).
  rewrite Hdebug, Hfirst in Hrun.
  eexists. split; [exact Hrun|]. split.
  - intros k Hk.
    assert (Hdict : CorrectMap.set_dict CorrectMap.new
                      (dict (zip (sorted (ExternalResponse.answer_ids self))
                                 (replicate
                                    (length (sorted (ExternalResponse.answer_ids self)))
                                    "incorrect"))) !! k
                    = Some (CorrectMap.Entry (Some "incorrect") None None None None)).
    { unfold CorrectMap.set_dict, CorrectMap.new, dict.
      rewrite lookup_union, lookup_fmap, dict_constant_lookup.
      rewrite bool_decide_eq_true_2 by (by apply elem_of_sorted).
      by rewrite lookup_empty. }
    unfold CorrectMap.get_correctness, CorrectMap.set_msg.
    destruct (decide (first_id = k)) as [->|Hne].
    + rewrite lookup_insert_eq. by rewrite Hdict.
    + rewrite lookup_insert_ne by done. by rewrite Hdict.
  - unfold CorrectMap.get_msg, CorrectMap.set_msg. by rewrite lookup_insert_eq.
Qed.

(** X17.  Outside debug mode a request that fails is logged and then
    forgotten: [get_score] goes on to read a reply it does not have and
    raises [NameError], whatever went wrong. *)
Theorem external_failure_outside_debug_mode
    (self : ExternalResponse.t) (student_answers : gmap string answer)
    (w w2 : world num rng) (submission : list answer) (e : exn) :
  ExternalResponse.debug self = false ->
  mapM (getitem student_answers) (sorted (ExternalResponse.answer_ids self))
    = Ok submission ->
  ExternalResponse.do_external_request self "get_score"
    [("edX_student_response", json_dumps submission)]
    (World (<["submission" := VList (of_answer <$> submission)]> (context w))
           (random_state w) (trace w)) = (Raise e, w2) ->
  ExternalResponse.get_score self student_answers w = (Raise NameError, w2).
Proof.
  intros Hdebug Hsub Hreq.
  rewrite (external_get_score_failure self student_answers w w2 submission e Hsub Hreq).
  by rewrite Hdebug.
Qed.

(** X18.  A callback that cannot be ingested: a message that is no XML
    makes [CodeResponse.update_score] raise a plain [Exception]; a reply
    without [awarddetail] element, and (for a response with an answer id) a
    reply whose [message] element is missing or has no text, make it raise
    [AttributeError]. *)
Theorem update_score_malformed_callback
    (self : CodeResponse.t) (score_msg : string) (w : world num rng) :
  (forall e, etree_fromstring score_msg = Raise e ->
     CodeResponse.update_score self score_msg w = (Raise Exception_, w))
  /\ (forall rxml, etree_fromstring score_msg = Ok rxml ->
       Xml.find rxml "awarddetail" = None ->
       CodeResponse.update_score self score_msg w = (Raise AttributeError, w))
  /\ (forall rxml ad,
       etree_fromstring score_msg = Ok rxml ->
       Xml.find rxml "awarddetail" = Some ad ->
       CodeResponse.answer_ids self <> [] ->
       Xml.find rxml "message" ≫= Xml.text = None ->
       fst (CodeResponse.update_score self score_msg w) = Raise AttributeError).
Proof.
  unfold CodeResponse.update_score. unfold St.bind at 1 2 3.
  unfold St.try_catch, St.lift. repeat split.
  - intros e ->. reflexivity.
  - intros rxml -> Hnone. simpl. unfold ingest, St.bind, St.lift, find_text.
    by rewrite Hnone.
  - intros rxml ad -> Had Hids Hmessage. simpl.
    unfold ingest, St.bind, St.lift, find_text. rewrite Had.
    pose proof (set_verdict_singleton (Xml.text ad) w) as Hv.
    destruct (set_verdict (Xml.text ad) w) as [[correct|e] w1]; simpl in Hv; [|done].
    injection Hv as ->. simpl.
    destruct (sorted (CodeResponse.answer_ids self)) as [|k rest] eqn:Hsorted.
    + exfalso. apply Hids.
      destruct (CodeResponse.answer_ids self) as [|x l]; [done|].
      assert (Hx : x ∈ sorted (x :: l)) by (apply elem_of_sorted; by left).
      rewrite Hsorted in Hx. by apply elem_of_nil in Hx.
    + simpl. unfold record. simpl. rewrite String.eqb_refl. simpl.
      unfold find_text.
      destruct (Xml.find rxml "message") as [msg|]; simpl in *; [|done].
      by rewrite Hmessage.
Qed.

End ExternalMoreFacts.

(** X15 at work: the grader that replies, and the one that is down. *)
Lemma do_external_request_outcomes_witness :
  fst (ExternalResponse.do_external_request (external_example ["e1"]) "get_score" []
         Fixtures.w0)
    = Ok (Xml.Element "edxgrade" [] None
            [Xml.Element "awarddetail" [] (Some "EXACT_ANS") [];
             Xml.Element "message" [] (Some "graded") []])
  /\ ExternalResponse.do_external_request (external_down false) "get_score" []
       Fixtures.w0
     = (Raise Exception_, World ∅ [] [EvPost "down" "get_score"]).
Proof.
  split.
  - pose proof (do_external_request_outcomes (external_example ["e1"]) "get_score" []
                  Fixtures.w0) as H.
    cbv zeta in H. destruct H as [Hok _].
    rewrite (Hok "EXACT_ANS"
               (Xml.Element "edxgrade" [] None
                  [Xml.Element "awarddetail" [] (Some "EXACT_ANS") [];
                   Xml.Element "message" [] (Some "graded") []]));
      [reflexivity|reflexivity|vm_compute; discriminate|reflexivity].
  - pose proof (do_external_request_outcomes (external_down false) "get_score" []
                  Fixtures.w0) as H.
    cbv zeta in H. destruct H as [_ Hfail].
    rewrite Hfail; [reflexivity|].
    left. exists (LibraryError "ConnectionError"). reflexivity.
Defined.

(** X16 at work: the grader is down and the system in debug mode. *)
Lemma external_failure_in_debug_mode_witness :
  exists m,
    fst (ExternalResponse.get_score (external_down true)
           {[ "e1" := AStr "x"; "e2" := AStr "y" ]} Fixtures.w0) = Ok m
    /\ CorrectMap.get_correctness m "e1" = Some "incorrect"
    /\ CorrectMap.get_correctness m "e2" = Some "incorrect"
    /\ CorrectMap.get_msg m "e2"
       = Some (ExternalResponse.font_error "error").
Proof.
  set (sa := {[ "e1" := AStr "x"; "e2" := AStr "y" ]} : gmap string answer).
  set (asked := ExternalResponse.do_external_request (external_down true) "get_score"
                  [("edX_student_response", json_dumps [AStr "x"; AStr "y"])]
                  (World (<["submission" := VList (of_answer <$> [AStr "x"; AStr "y"])]>
                            (context Fixtures.w0))
                         (random_state Fixtures.w0) (trace Fixtures.w0))).
  assert (Hasked : asked = (Raise Exception_, snd asked)).
  { rewrite (surjective_pairing asked) at 1. f_equal. }
  destruct (external_failure_in_debug_mode (external_down true) sa Fixtures.w0
              (snd asked) [AStr "x"; AStr "y"] Exception_ "e2" ["e1"])
    as (m & Hrun & Hall & Hmsg).
  - reflexivity.
  - reflexivity.
  - vm_compute. reflexivity.
  - exact Hasked.
  - exists m. rewrite Hrun. split; [reflexivity|].
    split; [apply Hall; right; left|].
    split; [apply Hall; left|].
    exact Hmsg.
Defined.

(** X17 at work: the grader is down and the system not in debug mode. *)
Lemma external_failure_outside_debug_mode_witness :
  fst (ExternalResponse.get_score (external_down false)
         {[ "e1" := AStr "x"; "e2" := AStr "y" ]} Fixtures.w0)
  = Raise NameError.
Proof.
  set (sa := {[ "e1" := AStr "x"; "e2" := AStr "y" ]} : gmap string answer).
  set (asked := ExternalResponse.do_external_request (external_down false) "get_score"
                  [("edX_student_response", json_dumps [AStr "x"; AStr "y"])]
                  (World (<["submission" := VList (of_answer <$> [AStr "x"; AStr "y"])]>
                            (context Fixtures.w0))
                         (random_state Fixtures.w0) (trace Fixtures.w0))).
  assert (Hasked : asked = (Raise Exception_, snd asked)).
  { rewrite (surjective_pairing asked) at 1. f_equal. }
  rewrite (external_failure_outside_debug_mode (external_down false) sa Fixtures.w0
             (snd asked) [AStr "x"; AStr "y"] Exception_);
    [reflexivity|reflexivity|vm_compute; reflexivity|exact Hasked].
Defined.

(** X18 at work: a callback that is empty, one without award detail and
    one without message. *)
Lemma update_score_malformed_callback_witness :
  CodeResponse.update_score (Host0 := terse_grader_host) (code_example ["c1"])
    EmptyString Fixtures.w0 = (Raise Exception_, Fixtures.w0)
  /\ CodeResponse.update_score (Host0 := terse_grader_host) (code_example ["c1"])
       "<edxgrade/>" Fixtures.w0 = (Raise AttributeError, Fixtures.w0)
  /\ fst (CodeResponse.update_score (Host0 := terse_grader_host) (code_example ["c1"])
            "EXACT_ANS" Fixtures.w0) = Raise AttributeError.
Proof.
  split; [|split].
  - destruct (update_score_malformed_callback (Host0 := terse_grader_host)
                (code_example ["c1"]) EmptyString Fixtures.w0) as (Hparse & _ & _).
    apply (Hparse (LibraryError "XMLSyntaxError")). reflexivity.
  - destruct (update_score_malformed_callback (Host0 := terse_grader_host)
                (code_example ["c1"]) "<edxgrade/>" Fixtures.w0) as (_ & Haward & _).
    apply (Haward (Xml.Element "edxgrade" [] None [])); reflexivity.
  - destruct (update_score_malformed_callback (Host0 := terse_grader_host)
                (code_example ["c1"]) "EXACT_ANS" Fixtures.w0) as (_ & _ & Hmessage).
    apply (Hmessage (Xml.Element "edxgrade" [] None
                       [Xml.Element "awarddetail" [] (Some "EXACT_ANS") []])
                    (Xml.Element "awarddetail" [] (Some "EXACT_ANS") []));
      [reflexivity|reflexivity|discriminate|reflexivity].
Defined.

(** ** Image responses: what can go wrong, and what a success means *)

Section ImageMoreFacts.
Import ImageResponse.

Lemma dict_lookup_listed `{Countable K} {V} (pairs : list (K * V)) (k : K) :
  forall m0 : gmap K V,
    k ∈ pairs.*1 \/ is_Some (m0 !! k) ->
    is_Some (foldl (fun m p => <[p.1 := p.2]> m) m0 pairs !! k).
Proof.
  induction pairs as [|[k0 v0] pairs IH]; intros m0 Hk; simpl.
  - destruct Hk as [Hk|Hk]; [by apply elem_of_nil in Hk|done].
  - apply IH. destruct Hk as [Hk|Hk].
    + apply elem_of_cons in Hk as [->|Hk]; [right|by left].
      by rewrite lookup_insert_eq.
    + right. destruct (decide (k0 = k)) as [->|Hne].
      * by rewrite lookup_insert_eq.
      * by rewrite lookup_insert_ne.
Qed.

Lemma get_answers_declared (self : t) (aid : option string) :
  aid ∈ answer_ids self -> is_Some (get_answers self !! aid).
Proof.
  intros Hin. unfold get_answers, dict. apply dict_lookup_listed. left.
  unfold answer_ids in Hin. by rewrite <- list_fmap_compose.
Qed.

(** The two ways out of the loop body for a declared field. *)
Lemma grade_outcome (self : t) (student_answers : gmap string answer)
    (cm : CorrectMap.t) (aid : option string) :
  is_Some (get_answers self !! aid) ->
  match grade self student_answers (get_answers self) cm aid with
  | Ok m => exists k r, aid = Some k /\ reading self student_answers k = Some r
                        /\ m = CorrectMap.set cm k (verdict r) None
  | Raise e =>
      match aid with
      | None => e = KeyError "None"
      | Some k =>
          (student_answers !! k = None /\ e = KeyError k)
          \/ (get_answers self !! Some k = Some None /\ e = AttributeError)
          \/ (exists r, get_answers self !! Some k = Some (Some r)
                        /\ match_rectangle (normalise r) = None /\ e = TypeError)
          \/ (exists l, student_answers !! k = Some (AList l) /\ e = AttributeError)
          \/ (exists g, student_answers !! k = Some (AStr g)
                        /\ match_point (normalise g) = None /\ e = Exception_)
      end
  end.
Proof.
  intros [rect Hrect]. unfold grade, reading, getitem.
  destruct aid as [k|]; simpl; [|done].
  destruct (student_answers !! k) as [given|] eqn:Hgiven; simpl; [|by left].
  rewrite Hrect. destruct rect as [r|]; simpl; [|by right; left].
  destruct (match_rectangle (normalise r)) as [[[[llx lly] urx] ury]|] eqn:Hm;
    simpl; [|right; right; left; by exists r].
  destruct given as [g|l]; simpl; [|right; right; right; left; by exists l].
  destruct (match_point (normalise g)) as [[gx gy]|] eqn:Hp; simpl;
    [|right; right; right; right; by exists g].
  destruct (inside llx lly urx ury gx gy) eqn:Hi; simpl;
    exists k, (llx, lly, urx, ury, (gx, gy));
    (split; [done|]);
    (split; [rewrite Hrect; simpl; rewrite Hm; simpl; rewrite Hgiven; simpl;
             by rewrite Hp|]);
    unfold verdict; by rewrite Hi.
Qed.

Lemma loop_raises (self : t) (student_answers : gmap string answer)
    (aids : list (option string)) (e : exn) :
  forall cm,
    loop self student_answers (get_answers self) cm aids = Raise e ->
    exists aid cm', aid ∈ aids
      /\ grade self student_answers (get_answers self) cm' aid = Raise e.
Proof.
  induction aids as [|aid rest IH]; intros cm Hloop; simpl in Hloop; [done|].
  destruct (grade self student_answers (get_answers self) cm aid) as [cm1|e1]
    eqn:Hgrade; simpl in Hloop.
  - destruct (IH _ Hloop) as (aid' & cm' & Hin & Hg).
    exists aid', cm'. split; [by right|done].
  - injection Hloop as ->. exists aid, cm. split; [by left|done].
Qed.

Lemma loop_returns (self : t) (student_answers : gmap string answer)
    (aids : list (option string)) :
  (forall aid, aid ∈ aids -> is_Some (get_answers self !! aid)) ->
  forall cm m,
    loop self student_answers (get_answers self) cm aids = Ok m ->
    forall aid, aid ∈ aids ->
      exists k, aid = Some k /\ is_Some (reading self student_answers k).
Proof.
  induction aids as [|aid0 rest IH]; intros Hdecl cm m Hloop aid Hin.
  - by apply elem_of_nil in Hin.
  - simpl in Hloop.
    pose proof (grade_outcome self student_answers cm aid0
                  (Hdecl aid0 (list_elem_of_here _ _))) as Hone.
    destruct (grade self student_answers (get_answers self) cm aid0) as [cm1|e1];
      simpl in Hloop; [|done].
    apply elem_of_cons in Hin as [->|Hin].
    { destruct Hone as (k & r & -> & Hr & _). exists k. by rewrite Hr. }
    apply (IH (fun a Ha => Hdecl a (list_elem_of_further _ _ _ Ha)) cm1 m Hloop aid Hin).
Qed.

Lemma loop_no_message (self : t) (student_answers : gmap string answer)
    (aids : list (option string)) :
  (forall aid, aid ∈ aids -> is_Some (get_answers self !! aid)) ->
  forall cm m,
    (forall k, CorrectMap.get_msg cm k = None) ->
    loop self student_answers (get_answers self) cm aids = Ok m ->
    forall k, CorrectMap.get_msg m k = None.
Proof.
  induction aids as [|aid0 rest IH]; intros Hdecl cm m Hcm Hloop; simpl in Hloop.
  - by injection Hloop as <-.
  - pose proof (grade_outcome self student_answers cm aid0
                  (Hdecl aid0 (list_elem_of_here _ _))) as Hone.
    destruct (grade self student_answers (get_answers self) cm aid0) as [cm1|e1];
      simpl in Hloop; [|done].
    destruct Hone as (k0 & r & _ & _ & ->).
    apply (IH (fun a Ha => Hdecl a (list_elem_of_further _ _ _ Ha))
              (CorrectMap.set cm k0 (verdict r) None) m); [|done].
    intros k. unfold CorrectMap.get_msg, CorrectMap.set.
    destruct (decide (k0 = k)) as [->|Hne].
    + by rewrite lookup_insert_eq.
    + rewrite lookup_insert_ne by done. apply Hcm.
Qed.

(** X19.  Every failure of [ImageResponse.get_score] is the failure of one
    field: a field without id or without submitted value ([KeyError]), a
    field without rectangle or with a list as its value
    ([AttributeError]), a click that is not of the form [[x,y]] (a plain
    [Exception]), or a rectangle that does not parse.  The last one does
    not raise the error in problem specification the code is about to
    build: it raises [TypeError], since the message indexes the list of
    fields by the answer id. *)
Theorem image_get_score_errors
    (self : t) (student_answers : gmap string answer) (e : exn) :
  get_score self student_answers = Raise e ->
  exists aid, aid ∈ answer_ids self /\
    match aid with
    | None => e = KeyError "None"
    | Some k =>
        (student_answers !! k = None /\ e = KeyError k)
        \/ (get_answers self !! Some k = Some None /\ e = AttributeError)
        \/ (exists r, get_answers self !! Some k = Some (Some r)
                      /\ match_rectangle (normalise r) = None /\ e = TypeError)
        \/ (exists l, student_answers !! k = Some (AList l) /\ e = AttributeError)
        \/ (exists g, student_answers !! k = Some (AStr g)
                      /\ match_point (normalise g) = None /\ e = Exception_)
    end.
Proof.
  unfold get_score. intros Hloop.
  destruct (loop_raises _ _ _ _ _ Hloop) as (aid & cm' & Hin & Hgrade).
  exists aid. split; [done|].
  pose proof (grade_outcome self student_answers cm' aid
                (get_answers_declared self aid Hin)) as Hone.
  by rewrite Hgrade in Hone.
Qed.

(** X20.  When [ImageResponse.get_score] returns, every field had an id, a
    rectangle and a click that parse; the map holds a record for the ids
    of the fields and for nothing else, each with the verdict of its
    field and without message. *)
Theorem image_scores_exactly_the_fields
    (self : t) (student_answers : gmap string answer) (m : CorrectMap.t) :
  get_score self student_answers = Ok m ->
  (forall aid, aid ∈ answer_ids self ->
     exists k r, aid = Some k /\ reading self student_answers k = Some r
                 /\ CorrectMap.get_correctness m k = Some (verdict r))
  /\ (forall k, Some k ∉ answer_ids self -> m !! k = None)
  /\ (forall k, CorrectMap.get_msg m k = None).
Proof.
  unfold get_score. intros Hloop.
  pose proof (loop_returns self student_answers (answer_ids self)
                (get_answers_declared self) _ _ Hloop) as Hgood.
  destruct (loop_readings self student_answers (answer_ids self) Hgood CorrectMap.new)
    as (m' & Hloop' & Hin & Hout).
  rewrite Hloop in Hloop'. injection Hloop' as <-.
  split; [|split].
  - intros aid Haid. destruct (Hgood aid Haid) as (k & -> & [r Hr]).
    exists k, r. split; [done|]. split; [done|]. by apply Hin.
  - intros k Hk. rewrite (Hout k Hk). apply lookup_empty.
  - apply (loop_no_message self student_answers (answer_ids self)
             (get_answers_declared self) CorrectMap.new m); [|done].
    intros k. unfold CorrectMap.get_msg, CorrectMap.new. by rewrite lookup_empty.
Qed.

End ImageMoreFacts.

(** X19 at work: the rectangle [10,10-20,30] does not parse. *)
Lemma image_get_score_errors_witness :
  ImageResponse.get_score image_unparsable {[ "i1" := AStr "[15,20]" ]} = Raise TypeError
  /\ exists aid, aid ∈ ImageResponse.answer_ids image_unparsable /\
       match aid with
       | None => TypeError = KeyError "None"
       | Some k =>
           (({[ "i1" := AStr "[15,20]" ]} : gmap string answer) !! k = None
            /\ TypeError = KeyError k)
           \/ (ImageResponse.get_answers image_unparsable !! Some k = Some None
               /\ TypeError = AttributeError)
           \/ (exists r, ImageResponse.get_answers image_unparsable !! Some k = Some (Some r)
                         /\ ImageResponse.match_rectangle (ImageResponse.normalise r) = None
                         /\ TypeError = TypeError)
           \/ (exists l, ({[ "i1" := AStr "[15,20]" ]} : gmap string answer) !! k
                           = Some (AList l)
                         /\ TypeError = AttributeError)
           \/ (exists g, ({[ "i1" := AStr "[15,20]" ]} : gmap string answer) !! k
                           = Some (AStr g)
                         /\ ImageResponse.match_point (ImageResponse.normalise g) = None
                         /\ TypeError = Exception_)
       end.
Proof.
  split; [vm_compute; reflexivity|].
  apply (image_get_score_errors image_unparsable {[ "i1" := AStr "[15,20]" ]} TypeError).
  vm_compute. reflexivity.
Defined.

(** X20 at work: the click [[15,20]] in the rectangle of scenario 5. *)
Lemma image_scores_exactly_the_fields_witness :
  exists m,
    ImageResponse.get_score image_example {[ "i1" := AStr "[15,20]" ]} = Ok m
    /\ CorrectMap.get_correctness m "i1" = Some "correct"
    /\ m !! "i2" = None
    /\ CorrectMap.get_msg m "i1" = None.
Proof.
  set (sa := {[ "i1" := AStr "[15,20]" ]} : gmap string answer).
  set (m := match ImageResponse.get_score image_example sa with
            | Ok m => m
            | Raise _ => CorrectMap.new
            end).
  assert (Hm : ImageResponse.get_score image_example sa = Ok m)
    by (vm_compute; reflexivity).
  destruct (image_scores_exactly_the_fields image_example sa m Hm)
    as (Hin & Hout & Hmsg).
  exists m. split; [exact Hm|]. split; [|split; [|apply Hmsg]].
  - destruct (Hin (Some "i1")) as (k & r & Hk & Hr & Hverdict).
    + apply (bool_decide_unpack _). vm_compute. exact I.
    + injection Hk as <-. rewrite Hverdict.
      vm_compute in Hr. injection Hr as <-. reflexivity.
  - apply Hout. apply (bool_decide_unpack _). vm_compute. exact I.
Defined.

(** ** The checks of [__init__] *)

Section InitFacts.
Context {num : Type} `{!Host num}.
Import ResponseInit.

Lemma each_outcome {A} (ok : A -> bool) (l : list A) :
  (each ok l = Ok tt /\ Forall (fun x => ok x = true) l)
  \/ (each ok l = Raise LoncapaProblemError /\ ~ Forall (fun x => ok x = true) l).
Proof.
  induction l as [|x l IH]; simpl.
  - left. by split.
  - destruct (ok x) eqn:Hx.
    + destruct IH as [[-> Hall]|[-> Hnot]].
      * left. split; [done|]. by constructor.
      * right. split; [done|]. intros Hall. apply Hnot.
        by apply Forall_cons in Hall as [_ ?].
    + right. split; [done|]. intros Hall.
      apply Forall_cons in Hall as [Hok _]. congruence.
Qed.

Lemma nonempty_spec (o : option string) :
  nonempty o = true <-> exists v, o = Some v /\ v <> EmptyString.
Proof.
  destruct o as [v|]; simpl.
  - rewrite negb_true_iff, String.eqb_neq. split.
    + intros Hv. by exists v.
    + by intros (v' & [= <-] & Hv).
  - split; [done|]. by intros (v & ? & _).
Qed.

Lemma too_many_spec (k : kind) (inputfields : list Xml.element) :
  too_many k inputfields = false
  <-> forall n, max_inputfields k = Some n -> n <> 0%nat ->
                (length inputfields <= n)%nat.
Proof.
  unfold too_many. destruct (max_inputfields k) as [n|].
  - rewrite andb_false_iff, negb_false_iff, Nat.eqb_eq, Nat.ltb_ge. split.
    + intros [->|Hle] n' [= <-] Hn; [done|lia].
    + intros Hall. destruct (decide (n = 0%nat)) as [->|Hne]; [by left|].
      right. by apply Hall.
  - split; [|done]. by intros _ n [=].
Qed.

Lemma init_checks
    (k : kind) (setup_response : fields -> res fields) (xml : Xml.element)
    (inputfields : list Xml.element) (context : gmap string (pyval num)) :
  let valid :=
    Forall (fun abox => Xml.tag abox ∈ allowed_inputfields k) inputfields
    /\ (forall n, max_inputfields k = Some n -> n <> 0%nat ->
                  (length inputfields <= n)%nat)
    /\ Forall (fun prop => exists v, Xml.get xml prop = Some v /\ v <> EmptyString)
              (required_attributes k) in
  (valid
   /\ init k setup_response xml inputfields context
      = (answer_id ← (if bool_decide (max_inputfields k = Some 1%nat)
                      then first ← list_getitem
                                     ((fun x => Xml.get x "id") <$> inputfields) 0;
                           mret (Some first)
                      else Ok None);
         default_answer_map ← default_answers context inputfields ∅;
         setup_response (Fields ((fun x => Xml.get x "id") <$> inputfields)
                                answer_id default_answer_map)))
  \/ (~ valid
      /\ init k setup_response xml inputfields context = Raise LoncapaProblemError).
Proof.
  intros valid. subst valid. unfold init.
  destruct (each_outcome (fun abox => str_in (Xml.tag abox) (allowed_inputfields k))
              inputfields) as [[-> Htags]|[-> Htags]]; simpl.
  2:{ right. split; [|done]. intros (Hall & _ & _). apply Htags.
      eapply Forall_impl; [exact Hall|]. intros abox Hin. simpl.
      by apply bool_decide_eq_true_2. }
  destruct (too_many k inputfields) eqn:Hmany; simpl.
  { right. split; [|done]. intros (_ & Hcount & _).
    apply too_many_spec in Hcount. congruence. }
  destruct (each_outcome (fun prop => nonempty (Xml.get xml prop))
              (required_attributes k)) as [[-> Hattrs]|[-> Hattrs]]; simpl.
  2:{ right. split; [|done]. intros (_ & _ & Hall). apply Hattrs.
      eapply Forall_impl; [exact Hall|]. intros prop Hv. simpl.
      by apply nonempty_spec. }
  left. split; [|done]. split; [|split].
  - eapply Forall_impl; [exact Htags|]. intros abox Hin. simpl in Hin.
    by apply bool_decide_eq_true_1 in Hin.
  - by apply too_many_spec.
  - eapply Forall_impl; [exact Hattrs|]. intros prop Hv. simpl in Hv.
    by apply nonempty_spec.
Qed.

Lemma default_answers_raises (context : gmap string (pyval num))
    (inputfields : list Xml.element) (e : exn) :
  forall m,
    default_answers context inputfields m = Raise e ->
    exists entry, entry ∈ inputfields
      /\ nonempty (Xml.get entry "correct_answer") = true
      /\ contextualize_text (Xml.get entry "correct_answer") context = Raise e.
Proof.
  induction inputfields as [|entry rest IH]; intros m Hraise; simpl in Hraise; [done|].
  destruct (nonempty (Xml.get entry "correct_answer")) eqn:Hanswer.
  - destruct (contextualize_text (Xml.get entry "correct_answer") context)
      as [text|e'] eqn:Htext; simpl in Hraise.
    + destruct (IH _ Hraise) as (entry' & Hin & Hne & He).
      exists entry'. split; [by right|done].
    + injection Hraise as ->. exists entry. split; [by left|done].
  - destruct (IH _ Hraise) as (entry' & Hin & Hne & He).
    exists entry'. split; [by right|done].
Qed.

(** X21.  [__init__] refuses, with [LoncapaProblemError] and before it
    reads a default answer or runs [setup_response], every response with
    an input field whose tag is not allowed for the type, with more input
    fields than a non-zero [max_inputfields], or without a non-empty value
    for a required attribute.  A response that passes these three checks
    can still fail, in three ways only: with [IndexError] when the type is
    limited to one input field and none is given, with the error of
    [contextualize_text] on the default answer of a field, or with the
    error of its [setup_response]. *)
Theorem init_validation
    (k : kind) (setup_response : fields -> res fields) (xml : Xml.element)
    (inputfields : list Xml.element) (context : gmap string (pyval num)) :
  let valid :=
    Forall (fun abox => Xml.tag abox ∈ allowed_inputfields k) inputfields
    /\ (forall n, max_inputfields k = Some n -> n <> 0%nat ->
                  (length inputfields <= n)%nat)
    /\ Forall (fun prop => exists v, Xml.get xml prop = Some v /\ v <> EmptyString)
              (required_attributes k) in
  (~ valid ->
     init k setup_response xml inputfields context = Raise LoncapaProblemError)
  /\ (valid -> max_inputfields k = Some 1%nat -> inputfields = [] ->
        init k setup_response xml inputfields context = Raise IndexError)
  /\ (valid -> forall e,
        init k setup_response xml inputfields context = Raise e ->
        (max_inputfields k = Some 1%nat /\ inputfields = [] /\ e = IndexError)
        \/ (exists entry, entry ∈ inputfields
               /\ nonempty (Xml.get entry "correct_answer") = true
               /\ contextualize_text (Xml.get entry "correct_answer") context
                  = Raise e)
        \/ (exists self, setup_response self = Raise e))
  /\ (forall self, init k setup_response xml inputfields context = Ok self -> valid).
Proof.
  intros valid.
  destruct (init_checks k setup_response xml inputfields context)
    as [[Hvalid Hinit]|[Hinvalid Hinit]]; fold valid in Hvalid || fold valid in Hinvalid.
  - split; [done|]. split; [|split; [|done]].
    + intros _ Hmax ->. rewrite Hinit.
      by rewrite bool_decide_eq_true_2.
    + intros _ e. rewrite Hinit. clear Hinit.
      case_bool_decide as Hmax.
      * destruct inputfields as [|abox rest]; [simpl; intros [= <-]; by left|].
        remember (default_answers context (abox :: rest) ∅) as da eqn:Hdam.
        symmetry in Hdam. simpl. destruct da as [dam|e']; simpl.
        { intros Hsetup. right. right. by eexists. }
        intros [= ->]. right. left. by apply (default_answers_raises _ _ _ _ Hdam).
      * simpl.
        destruct (default_answers context inputfields ∅) as [dam|e'] eqn:Hdam; simpl.
        { intros Hsetup. right. right. by eexists. }
        intros [= ->]. right. left. by apply (default_answers_raises _ _ _ _ Hdam).
  - split; [done|]. split; [done|]. split; [done|].
    intros self Hself. rewrite Hinit in Hself. discriminate.
Qed.

End InitFacts.

(** X21 at work: a numerical response without [answer] attribute, a
    multiple-choice response without choice group, and a custom response
    that passes the checks and whose [setup_response] finds no [cfn] in the
    context. *)
Lemma init_validation_witness :
  ResponseInit.init ResponseInit.numericalresponse Ok
    (Xml.Element "numericalresponse" [] None [])
    [Xml.Element "textline" [("id", "n1")] None []] ∅
  = Raise LoncapaProblemError
  /\ ResponseInit.init ResponseInit.multiplechoiceresponse Ok
       (Xml.Element "multiplechoiceresponse" [] None []) [] ∅
     = Raise IndexError
  /\ ((exists entry,
         entry ∈ [Xml.Element "textline" [("id", "c1")] None []]
         /\ ResponseInit.nonempty (Xml.get entry "correct_answer") = true
         /\ contextualize_text (Xml.get entry "correct_answer")
              (∅ : gmap string (pyval Fixtures.tnum)) = Raise LoncapaProblemError)
      \/ (exists self : ResponseInit.fields,
            (fun _ => Raise LoncapaProblemError) self
            = (Raise LoncapaProblemError : res ResponseInit.fields))).
Proof.
  split; [|split].
  - destruct (init_validation ResponseInit.numericalresponse Ok
                (Xml.Element "numericalresponse" [] None [])
                [Xml.Element "textline" [("id", "n1")] None []] ∅) as (Hrefuse & _).
    apply Hrefuse. intros (_ & _ & Hattrs).
    apply Forall_cons in Hattrs as [(v & Hv & _) _]. discriminate.
  - destruct (init_validation ResponseInit.multiplechoiceresponse Ok
                (Xml.Element "multiplechoiceresponse" [] None []) [] ∅)
      as (_ & Hnone & _).
    apply Hnone; [|reflexivity|reflexivity].
    split; [constructor|]. split; [|constructor].
    intros n [= <-] _. simpl. lia.
  - destruct (init_validation ResponseInit.customresponse
                (fun _ => Raise LoncapaProblemError)
                (Xml.Element "customresponse" [("cfn", "check")] None [])
                [Xml.Element "textline" [("id", "c1")] None []] ∅)
      as (_ & _ & Hpast & _).
    destruct (Hpast ltac:(split; [repeat constructor|split; [by intros n [=]|constructor]])
                LoncapaProblemError eq_refl)
      as [(Hmax & _)|Hrest]; [discriminate|exact Hrest].
Defined.

(** ** String responses: padding and case *)

Section StringFacts.
Context {num : Type} `{!Host num}.
Import StringResponse.

Lemma lstrip_blank_app (p s : string) :
  Str.is_blank p = true -> Str.lstrip (p +:+ s) = Str.lstrip s.
Proof.
  induction p as [|c p IH]; simpl; intros Hp; [done|].
  apply andb_true_iff in Hp as [Hc Hp]. rewrite Hc. by apply IH.
Qed.

Lemma lstrip_blank (p : string) : Str.is_blank p = true -> Str.lstrip p = EmptyString.
Proof.
  induction p as [|c p IH]; simpl; intros Hp; [done|].
  apply andb_true_iff in Hp as [Hc Hp]. rewrite Hc. by apply IH.
Qed.

Lemma lstrip_app_blank (s p : string) :
  Str.is_blank p = true ->
  Str.lstrip (s +:+ p) = Str.lstrip s +:+ p
  \/ (Str.lstrip s = EmptyString /\ Str.lstrip (s +:+ p) = EmptyString).
Proof.
  intros Hp. induction s as [|c s IH]; simpl.
  - right. split; [done|]. by apply lstrip_blank.
  - destruct (Str.is_whitespace c); [exact IH|by left].
Qed.

Lemma list_ascii_app (a b : string) :
  list_ascii_of_string (a +:+ b)
  = (list_ascii_of_string a ++ list_ascii_of_string b)%list.
Proof. induction a as [|c a IH]; simpl; [done|]. by rewrite IH. Qed.

Lemma string_of_list_app (a b : list ascii) :
  string_of_list_ascii (a ++ b)
  = string_of_list_ascii a +:+ string_of_list_ascii b.
Proof. induction a as [|c a IH]; simpl; [done|]. by rewrite IH. Qed.

Lemma rev_string_app (a b : string) :
  Str.rev_string (a +:+ b) = Str.rev_string b +:+ Str.rev_string a.
Proof.
  unfold Str.rev_string. by rewrite list_ascii_app, rev_app_distr, string_of_list_app.
Qed.

Lemma rev_string_blank (p : string) : Str.is_blank p = true -> Str.is_blank (Str.rev_string p) = true.
Proof.
  unfold Str.is_blank, Str.rev_string. intros Hp.
  rewrite list_ascii_of_string_of_list_ascii.
  rewrite forallb_forall in *. intros c Hc. apply Hp. by apply in_rev.
Qed.

Lemma rstrip_app_blank (s p : string) :
  Str.is_blank p = true -> Str.rstrip (s +:+ p) = Str.rstrip s.
Proof.
  intros Hp. unfold Str.rstrip. rewrite rev_string_app.
  by rewrite lstrip_blank_app by (by apply rev_string_blank).
Qed.

Lemma strip_padding (p1 s p2 : string) :
  Str.is_blank p1 = true -> Str.is_blank p2 = true -> Str.strip (p1 +:+ s +:+ p2) = Str.strip s.
Proof.
  intros Hp1 Hp2. unfold Str.strip. rewrite lstrip_blank_app by done.
  destruct (lstrip_app_blank s p2 Hp2) as [->|[Hs ->]].
  - by apply rstrip_app_blank.
  - by rewrite Hs.
Qed.

(** X22.  Whitespace around a submitted string never matters to a string
    response: with any padding before and after it, the submission gets
    the same score and the same hints. *)
Theorem string_padding_ignored
    (self : t) (student_answers : gmap string answer) (p1 s p2 : string)
    (hxml_set : list Xml.element) (context : gmap string (pyval num)) :
  Str.is_blank p1 = true -> Str.is_blank p2 = true ->
  get_score self (<[answer_id self := AStr (p1 +:+ s +:+ p2)]> student_answers)
    = get_score self (<[answer_id self := AStr s]> student_answers)
  /\ check_hint_condition self hxml_set
       (<[answer_id self := AStr (p1 +:+ s +:+ p2)]> student_answers) context
     = check_hint_condition self hxml_set
         (<[answer_id self := AStr s]> student_answers) context.
Proof.
  intros Hp1 Hp2.
  assert (Hgiven : given_text self
                     (<[answer_id self := AStr (p1 +:+ s +:+ p2)]> student_answers)
                   = given_text self (<[answer_id self := AStr s]> student_answers)).
  { unfold given_text, getitem. rewrite !lookup_insert_eq. simpl.
    by rewrite strip_padding. }
  unfold get_score, check_hint_condition. by rewrite Hgiven.
Qed.

Lemma lower_char_whitespace (c : ascii) :
  Str.is_whitespace (Str.lower_char c) = Str.is_whitespace c.
Proof. by destruct c as [[] [] [] [] [] [] [] []]. Qed.

Lemma lower_char_idemp (c : ascii) :
  Str.lower_char (Str.lower_char c) = Str.lower_char c.
Proof. by destruct c as [[] [] [] [] [] [] [] []]. Qed.

Lemma lower_idemp (s : string) : Str.lower (Str.lower s) = Str.lower s.
Proof.
  induction s as [|c s IH]; simpl; [done|]. by rewrite lower_char_idemp, IH.
Qed.

Lemma lower_lstrip (s : string) :
  Str.lower (Str.lstrip s) = Str.lstrip (Str.lower s).
Proof.
  induction s as [|c s IH]; simpl; [done|].
  rewrite lower_char_whitespace. by destruct (Str.is_whitespace c).
Qed.

Lemma lower_list (s : string) :
  list_ascii_of_string (Str.lower s) = map Str.lower_char (list_ascii_of_string s).
Proof. induction s as [|c s IH]; simpl; [done|]. by rewrite IH. Qed.

Lemma lower_of_list (l : list ascii) :
  Str.lower (string_of_list_ascii l) = string_of_list_ascii (map Str.lower_char l).
Proof. induction l as [|c l IH]; simpl; [done|]. by rewrite IH. Qed.

Lemma lower_rev_string (s : string) :
  Str.lower (Str.rev_string s) = Str.rev_string (Str.lower s).
Proof.
  unfold Str.rev_string. rewrite lower_of_list, lower_list.
  by rewrite map_rev.
Qed.

Lemma lower_strip (s : string) : Str.lower (Str.strip s) = Str.strip (Str.lower s).
Proof.
  unfold Str.strip, Str.rstrip.
  by rewrite lower_rev_string, lower_lstrip, lower_rev_string, lower_lstrip.
Qed.

(** X23.  In a string response of type [ci], two submissions that differ
    in the case of their letters only get the same score and the same
    hints. *)
Theorem string_case_ignored
    (self : t) (student_answers : gmap string answer) (s1 s2 : string)
    (hxml_set : list Xml.element) (context : gmap string (pyval num)) :
  Xml.get (xml self) "type" = Some "ci" ->
  Str.lower s1 = Str.lower s2 ->
  get_score self (<[answer_id self := AStr s1]> student_answers)
    = get_score self (<[answer_id self := AStr s2]> student_answers)
  /\ check_hint_condition self hxml_set
       (<[answer_id self := AStr s1]> student_answers) context
     = check_hint_condition self hxml_set
         (<[answer_id self := AStr s2]> student_answers) context.
Proof.
  intros Hci Hlower.
  assert (Hstrip : Str.lower (Str.strip s1) = Str.lower (Str.strip s2))
    by (by rewrite !lower_strip, Hlower).
  assert (Hcheck : forall expected,
            check_string self expected (Str.strip s1)
            = check_string self expected (Str.strip s2)).
  { intros expected. unfold check_string.
    rewrite bool_decide_eq_true_2 by done. by rewrite Hstrip. }
  unfold get_score, check_hint_condition, given_text, getitem.
  rewrite !lookup_insert_eq. simpl. rewrite Hcheck. split; [done|].
  generalize (@nil (option string)).
  induction hxml_set as [|hxml rest IH]; intros acc; simpl; [done|].
  destruct (contextualize_text (Xml.get hxml "answer") context) as [text|e];
    simpl; [|done].
  rewrite Hcheck. destruct (check_string self (Str.strip text) (Str.strip s2)); apply IH.
Qed.

End StringFacts.

(** X22 at work: [Paris] after two spaces and before a no-break space. *)
Lemma string_padding_ignored_witness :
  StringResponse.get_score string_example
    {[ "s1" := AStr ("  " +:+ "Paris" +:+ String (ascii_of_nat 160) EmptyString) ]}
    = Ok (CorrectMap.init "s1" "correct" None)
  /\ StringResponse.check_hint_condition (num := Fixtures.tnum) string_example
       string_hint_stanzas
       {[ "s1" := AStr ("  " +:+ "Paris" +:+ String (ascii_of_nat 160) EmptyString) ]} ∅
     = Ok [Some "capital"].
Proof.
  destruct (string_padding_ignored (num := Fixtures.tnum) string_example ∅
              "  " "Paris" (String (ascii_of_nat 160) EmptyString)
              string_hint_stanzas ∅) as [Hscore Hhints];
    [reflexivity|reflexivity|].
  split.
  - etransitivity; [exact Hscore|]. vm_compute. reflexivity.
  - etransitivity; [exact Hhints|]. vm_compute. reflexivity.
Defined.

(** X23 at work: [PARIS] and [paris]; and the word [Etat] written with an
    acute accent on its first letter (code point 201 for the capital, 233
    for the small letter), declared with the capital and submitted with
    the small letter. *)
Lemma string_case_ignored_witness :
  (StringResponse.get_score string_example {[ "s1" := AStr "PARIS" ]}
     = StringResponse.get_score string_example {[ "s1" := AStr "paris" ]}
   /\ StringResponse.check_hint_condition (num := Fixtures.tnum) string_example
        string_hint_stanzas {[ "s1" := AStr "PARIS" ]} ∅
      = StringResponse.check_hint_condition (num := Fixtures.tnum) string_example
          string_hint_stanzas {[ "s1" := AStr "paris" ]} ∅)
  /\ StringResponse.get_score string_accent_example
       {[ "s1" := AStr (String (ascii_of_nat 233) "tat") ]}
     = Ok (CorrectMap.init "s1" "correct" None).
Proof.
  split.
  - apply (string_case_ignored (num := Fixtures.tnum) string_example ∅
             "PARIS" "paris" string_hint_stanzas ∅); reflexivity.
  - destruct (string_case_ignored (num := Fixtures.tnum) string_accent_example ∅
                (String (ascii_of_nat 233) "tat") (String (ascii_of_nat 201) "tat")
                [] ∅) as [Hscore _]; [reflexivity|reflexivity|].
    etransitivity; [exact Hscore|]. vm_compute. reflexivity.
Defined.

(** ** The names [mc_setup_response] gives to the choices *)

Section ChoiceSetupFacts.
Import ChoiceSetup.

Lemma get_set (e : Xml.element) (name value : string) :
  Xml.get (Xml.set e name value) name = Some value.
Proof.
  destruct e as [t a x c]. unfold Xml.get, Xml.set. simpl.
  induction a as [|[k v] a IH]; simpl.
  - by rewrite String.eqb_refl.
  - destruct (String.eqb k name) eqn:Hk; simpl; rewrite Hk; [done|exact IH].
Qed.

Lemma name_choices_length (cs : list Xml.element) :
  forall i, length (name_choices i cs).1 = length cs.
Proof.
  induction cs as [|c cs IH]; intros i; simpl; [done|].
  destruct (Xml.get c "name") as [name|].
  - specialize (IH i). destruct (name_choices i cs) as [rest j]. simpl in *.
    by rewrite IH.
  - specialize (IH (S i)). destruct (name_choices (S i) cs) as [rest j]. simpl in *.
    by rewrite IH.
Qed.

Lemma get_set_other (e : Xml.element) (name value other : string) :
  other <> name -> Xml.get (Xml.set e name value) other = Xml.get e other.
Proof.
  intros Hne. destruct e as [t a x c]. unfold Xml.get, Xml.set. simpl.
  induction a as [|[k v] a IH]; simpl.
  - by rewrite (proj2 (String.eqb_neq name other)) by done.
  - destruct (String.eqb k name) eqn:Hk; simpl.
    + apply String.eqb_eq in Hk as ->.
      by rewrite (proj2 (String.eqb_neq name other)) by done.
    + destruct (String.eqb k other); [done|exact IH].
Qed.

Lemma name_choices_lookup (cs : list Xml.element) :
  forall i n o r,
    cs !! n = Some o -> (name_choices i cs).1 !! n = Some r ->
    r = Xml.set o "name"
          ("choice_" +:+ match Xml.get o "name" with
                         | Some name => name
                         | None => str (i + unnamed cs n)
                         end).
Proof.
  induction cs as [|c cs IH]; intros i n o r Ho Hr; [done|].
  simpl in Hr. unfold unnamed.
  destruct (Xml.get c "name") as [name|] eqn:Hc.
  - specialize (IH i). destruct (name_choices i cs) as [rest j]. simpl in *.
    destruct n as [|n]; simpl in *.
    + injection Ho as <-. injection Hr as <-. by rewrite Hc.
    + rewrite filter_cons_False by (by rewrite Hc). by apply IH.
  - specialize (IH (S i)). destruct (name_choices (S i) cs) as [rest j]. simpl in *.
    destruct n as [|n]; simpl in *.
    + injection Ho as <-. injection Hr as <-. rewrite Hc.
      by rewrite Nat.add_0_r.
    + rewrite filter_cons_True by done. simpl.
      rewrite (IH n o r Ho Hr). unfold unnamed.
      by rewrite Nat.add_succ_r.
Qed.

Lemma name_choices_app (a b : list Xml.element) :
  forall i,
    name_choices i (a ++ b)
    = ((name_choices i a).1 ++ (name_choices (name_choices i a).2 b).1,
       (name_choices (name_choices i a).2 b).2)%list.
Proof.
  induction a as [|c a IH]; intros i; simpl.
  - by destruct (name_choices i b).
  - destruct (Xml.get c "name") as [name|].
    + rewrite IH. by destruct (name_choices i a).
    + rewrite IH. by destruct (name_choices (S i) a).
Qed.

(** The two loops are one pass over all the choices of the response. *)
Lemma setup_groups_choices (retype : Xml.element -> Xml.element)
    (children : list Xml.element) :
  (forall e, Xml.tag (retype e) = Xml.tag e
             /\ Xml.children (retype e) = Xml.children e) ->
  forall i,
    concat (Xml.children <$>
              List.filter (fun c => String.eqb (Xml.tag c) "choicegroup")
                          (setup_groups retype i children))
    = (name_choices i
         (concat (Xml.children <$>
                    List.filter (fun c => String.eqb (Xml.tag c) "choicegroup")
                                children))).1.
Proof.
  intros Hretype. induction children as [|response rest IH]; intros i; simpl; [done|].
  destruct (String.eqb (Xml.tag response) "choicegroup") eqn:Htag.
  - destruct (Hretype response) as [Ht Hc]. rewrite Hc.
    rewrite fmap_cons, concat_cons, name_choices_app.
    destruct (name_choices i (Xml.children response)) as [named j] eqn:Hnamed.
    simpl. unfold Xml.with_children at 1. simpl. rewrite Ht, Htag. simpl.
    by rewrite IH.
  - simpl. rewrite Htag. apply IH.
Qed.

Lemma unnamed_lt (cs : list Xml.element) (n1 n2 : nat) (o : Xml.element) :
  cs !! n1 = Some o -> Xml.get o "name" = None -> (n1 < n2)%nat ->
  (unnamed cs n1 < unnamed cs n2)%nat.
Proof.
  intros Ho Hnone Hlt. unfold unnamed.
  replace n2 with (S n1 + (n2 - S n1))%nat by lia.
  rewrite <- take_take_drop, (take_S_r _ _ _ Ho).
  rewrite !filter_app, !length_app.
  rewrite filter_cons_True by done. simpl. lia.
Qed.

(** X24.  After [mc_setup_response] (of multiple-choice and of true/false
    responses alike) the response has the same choices, in the same order:
    every choice keeps its tag, its text, its children and all its
    attributes but [name] (its [correct] attribute among them).  The name
    starts with [choice_]: a choice that had a name keeps it after the
    prefix, a choice that had none gets the number of nameless choices
    before it in the whole response.  So the choices that had no name get
    names that are pairwise different. *)
Theorem choice_names
    (setup : Xml.element -> Xml.element) (xml : Xml.element) :
  setup = mc_setup_response \/ setup = tf_setup_response ->
  length (choices (setup xml)) = length (choices xml)
  /\ (forall n o r,
        choices xml !! n = Some o -> choices (setup xml) !! n = Some r ->
        Xml.tag r = Xml.tag o
        /\ Xml.text r = Xml.text o
        /\ Xml.children r = Xml.children o
        /\ (forall a, a <> "name" -> Xml.get r a = Xml.get o a)
        /\ Xml.get r "name"
           = Some ("choice_" +:+
                   match Xml.get o "name" with
                   | Some name => name
                   | None =>
                       str (length (filter (fun c => Xml.get c "name" = None)
                                           (take n (choices xml))))
                   end))
  /\ (forall n1 n2 o1 o2 r1 r2,
        n1 <> n2 ->
        choices xml !! n1 = Some o1 -> choices xml !! n2 = Some o2 ->
        Xml.get o1 "name" = None -> Xml.get o2 "name" = None ->
        choices (setup xml) !! n1 = Some r1 -> choices (setup xml) !! n2 = Some r2 ->
        Xml.get r1 "name" <> Xml.get r2 "name").
Proof.
  intros Hsetup.
  assert (Hpass : choices (setup xml) = (name_choices 0 (choices xml)).1).
  { unfold choices, Xml.findall.
    destruct Hsetup as [-> | ->]; unfold mc_setup_response, tf_setup_response;
      unfold Xml.with_children at 1; simpl; apply setup_groups_choices.
    - intros e. by destruct (bool_decide (Xml.get e "type" = Some "MultipleChoice")).
    - done. }
  rewrite Hpass.
  assert (Hset : forall n o r,
            choices xml !! n = Some o ->
            (name_choices 0 (choices xml)).1 !! n = Some r ->
            r = Xml.set o "name"
                  ("choice_" +:+
                   match Xml.get o "name" with
                   | Some name => name
                   | None => str (unnamed (choices xml) n)
                   end)).
  { intros n o r Ho Hr. by rewrite (name_choices_lookup _ 0 n o r Ho Hr). }
  assert (Hnames : forall n o r,
            choices xml !! n = Some o ->
            (name_choices 0 (choices xml)).1 !! n = Some r ->
            Xml.get r "name"
            = Some ("choice_" +:+
                    match Xml.get o "name" with
                    | Some name => name
                    | None => str (unnamed (choices xml) n)
                    end)).
  { intros n o r Ho Hr. rewrite (Hset n o r Ho Hr). apply get_set. }
  split; [apply name_choices_length|]. split.
  { intros n o r Ho Hr. split; [|split; [|split; [|split]]].
    - rewrite (Hset n o r Ho Hr). by destruct o.
    - rewrite (Hset n o r Ho Hr). by destruct o.
    - rewrite (Hset n o r Ho Hr). by destruct o.
    - intros a Ha. rewrite (Hset n o r Ho Hr). by apply get_set_other.
    - by apply Hnames. }
  intros n1 n2 o1 o2 r1 r2 Hne Ho1 Ho2 Hn1 Hn2 Hr1 Hr2.
  rewrite (Hnames _ _ _ Ho1 Hr1), (Hnames _ _ _ Ho2 Hr2), Hn1, Hn2.
  intros [= Heq]. unfold str in Heq. apply pretty_nat_inj in Heq.
  destruct (decide (n1 < n2)%nat) as [Hlt|Hge].
  - pose proof (unnamed_lt _ _ _ _ Ho1 Hn1 Hlt). lia.
  - assert (Hlt : (n2 < n1)%nat) by lia.
    pose proof (unnamed_lt _ _ _ _ Ho2 Hn2 Hlt). lia.
Qed.

End ChoiceSetupFacts.

(** X24 at work: the third choice of [choice_xml] is the second one
    without name; it is still a wrong choice. *)
Lemma choice_names_witness :
  exists r,
    ChoiceSetup.choices (ChoiceSetup.mc_setup_response choice_xml) !! 2%nat = Some r
    /\ Xml.get r "name" = Some "choice_1"
    /\ Xml.get r "correct" = Some "false".
Proof.
  destruct (choice_names ChoiceSetup.mc_setup_response choice_xml (or_introl eq_refl))
    as (_ & Hchoice & _).
  set (r := default (Xml.Element EmptyString [] None [])
              (ChoiceSetup.choices (ChoiceSetup.mc_setup_response choice_xml) !! 2%nat)).
  assert (Hr : ChoiceSetup.choices (ChoiceSetup.mc_setup_response choice_xml) !! 2%nat
               = Some r) by (vm_compute; reflexivity).
  destruct (Hchoice 2%nat (Xml.Element "choice" [("correct", "false")] None []) r)
    as (_ & _ & _ & Hattrs & Hname); [vm_compute; reflexivity|exact Hr|].
  exists r. split; [exact Hr|]. split.
  - rewrite Hname. vm_compute. reflexivity.
  - rewrite (Hattrs "correct"); [reflexivity|discriminate].
Defined.

(** ** True/false responses: submissions that are not lists *)

Section TrueFalseMoreFacts.
Import TrueFalseResponse.

Lemma prefixed_not_char (c : string) (a : ascii) :
  String.prefix "choice_" c = true -> c <> String a EmptyString.
Proof.
  intros Hprefix ->.
  destruct a as [[] [] [] [] [] [] [] []]; vm_compute in Hprefix; discriminate.
Qed.

(** X25.  [TrueFalseResponse.get_score] reads a submission that is one
    string as the set of its characters.  With a correct choice whose name
    has the shape the setup gives to every choice ([choice_] and more), no
    such submission is ["correct"], whatever the string.  A missing
    submission is read as the empty selection: it raises nothing, and it is
    ["correct"] exactly when no choice is declared correct. *)
Theorem true_false_string_submission
    (self : t) (student_answers : gmap string answer) :
  (forall s c,
     student_answers !! answer_id self = Some (AStr s) ->
     c ∈ correct_choices self ->
     String.prefix "choice_" c = true ->
     get_score self student_answers
       = Ok (CorrectMap.init (answer_id self) "incorrect" None))
  /\ (student_answers !! answer_id self = None ->
      (correct_choices self = [] ->
       get_score self student_answers
         = Ok (CorrectMap.init (answer_id self) "correct" None))
      /\ (correct_choices self <> [] ->
          get_score self student_answers
            = Ok (CorrectMap.init (answer_id self) "incorrect" None))).
Proof.
  rewrite true_false_verdict. split.
  - intros s c Hs Hc Hprefix. rewrite bool_decide_eq_false_2; [done|].
    unfold declared, submitted. rewrite Hs. simpl. intros Heq.
    assert (Hin : c ∈ (list_to_set (chars s) : gset string)).
    { rewrite <- Heq. by apply elem_of_list_to_set. }
    apply elem_of_list_to_set in Hin. unfold chars in Hin.
    apply list_elem_of_fmap in Hin as (a & -> & _).
    by apply (prefixed_not_char _ a Hprefix).
  - intros Hnone. unfold declared, submitted. rewrite Hnone. simpl. split.
    + intros ->. by rewrite bool_decide_eq_true_2.
    + intros Hne. rewrite bool_decide_eq_false_2; [done|].
      intros Heq. destruct (correct_choices self) as [|c l]; [done|].
      assert (Hin : c ∈ (list_to_set (c :: l) : gset string))
        by (apply elem_of_list_to_set; by left).
      rewrite Heq in Hin. by apply elem_of_empty in Hin.
Qed.

End TrueFalseMoreFacts.

(** X25 at work: the problem [tf_example], answered with the name of one
    of its correct choices as a string, and not answered. *)
Lemma true_false_string_submission_witness :
  TrueFalseResponse.get_score tf_example {[ "q1" := AStr "choice_0" ]}
    = Ok (CorrectMap.init "q1" "incorrect" None)
  /\ TrueFalseResponse.get_score tf_example ∅
     = Ok (CorrectMap.init "q1" "incorrect" None).
Proof.
  destruct (true_false_string_submission tf_example {[ "q1" := AStr "choice_0" ]})
    as [Hstring _].
  destruct (true_false_string_submission tf_example ∅) as [_ Hmissing].
  split.
  - apply (Hstring "choice_0" "choice_0"); [reflexivity| |reflexivity].
    apply (bool_decide_unpack _). vm_compute. exact I.
  - apply Hmissing; [reflexivity|discriminate].
Defined.

(** ** External grading: a submission that is not complete *)

Section ExternalMissingFacts.
Context {num rng : Type} `{!Host num}.

(** X26.  When the value of one of its answer ids is missing from the
    student answers, [ExternalResponse.get_score] raises a plain
    [Exception] at once: nothing is posted to the grader and the script
    context is not updated. *)
Theorem external_missing_answer
    (self : ExternalResponse.t) (student_answers : gmap string answer)
    (w : world num rng) (k : string) :
  k ∈ ExternalResponse.answer_ids self ->
  student_answers !! k = None ->
  ExternalResponse.get_score self student_answers w = (Raise Exception_, w).
Proof.
  intros Hin Hk. unfold ExternalResponse.get_score.
  unfold St.bind at 1. unfold St.try_catch at 1. unfold St.lift at 1.
  destruct (mapM_getitem_missing student_answers
              (sorted (ExternalResponse.answer_ids self)) k)
    as [k' ->]; [by apply elem_of_sorted|done|done].
Qed.

End ExternalMissingFacts.

(** X26 at work: two text boxes, one of them left out. *)
Lemma external_missing_answer_witness :
  ExternalResponse.get_score (external_example ["e1"; "e2"])
    {[ "e1" := AStr "x" ]} Fixtures.w0
  = (Raise Exception_, Fixtures.w0).
Proof.
  apply (external_missing_answer (external_example ["e1"; "e2"])
           {[ "e1" := AStr "x" ]} Fixtures.w0 "e2").
  - apply (bool_decide_unpack _). vm_compute. exact I.
  - reflexivity.
Defined.
